(** * galaxykit: the authenticated API client ([galaxykit/client.py])

    A shallow embedding of [GalaxyClient]: its constructor, the HTTP
    dispatch [_http], the payload encoder [_payload] and the three verbs
    [get], [post] and [put], together with the pieces of the Python
    runtime and of the libraries ([simplejson.dumps], [urllib.parse],
    [requests]) that the client calls.

    Conventions.
    - A Python [str] is a list of Unicode code points ([N]); [bytes] is a
      list of [byte].
    - A Python [dict] is an insertion-ordered association list.
    - Methods run in a state-and-exception monad over a [world]: the heap
      of header dictionaries, the client object and the trace of
      observable events (HTTP requests, prints, container sessions). *)

From Stdlib Require Import List String Ascii NArith ZArith Bool Lia Arith.
From Stdlib Require Import Setoid.
From Stdlib.Strings Require Import Byte.
From Stdlib Require Import DecimalString.
From Stdlib Require DecimalPos DecimalFacts DecimalZ.
Import ListNotations.

Set Implicit Arguments.
Local Set Warnings "-register-all".

(* ================================================================== *)
(** ** Text *)
(* ================================================================== *)

(** A code point; Python strings hold values below [0x110000]. *)
Definition codepoint := N.

(** Python [str]. *)
Definition str := list codepoint.

(** Python [bytes]. *)
Definition bytes := list byte.

(** [ord(c)] for an ASCII character of the source. *)
Definition chr (a : ascii) : codepoint := N_of_ascii a.

(** The double quote. *)
Definition dquote : codepoint := 34%N.

(** An ASCII literal of the source, as a [str]. *)
Definition py (s : string) : str :=
  List.map N_of_ascii (list_ascii_of_string s).

Fixpoint str_eqb (a b : str) : bool :=
  match a, b with
  | [], [] => true
  | x :: a', y :: b' => N.eqb x y && str_eqb a' b'
  | _, _ => false
  end.

(** [s[:n] == p] for [n = len(p)]: does [s] start with [p]? *)
Fixpoint startswith (p s : str) : bool :=
  match p, s with
  | [], _ => true
  | x :: p', y :: s' => N.eqb x y && startswith p' s'
  | _ :: _, [] => false
  end.

(** [c in s] for a one-character [c]. *)
Definition contains_char (c : codepoint) (s : str) : bool :=
  existsb (N.eqb c) s.

(** [s.split(c)] for a one-character separator: never empty. *)
Fixpoint split (c : codepoint) (s : str) : list str :=
  match s with
  | [] => [[]]
  | x :: s' =>
      if N.eqb x c then [] :: split c s'
      else match split c s' with
           | [] => [[x]]
           | w :: ws => (x :: w) :: ws
           end
  end.

(** [s.split(c, 1)] when [c in s]: the text before and after the first
    occurrence; when [c] does not occur, all of [s] and nothing. *)
Fixpoint split_once (c : codepoint) (s : str) : str * str :=
  match s with
  | [] => ([], [])
  | x :: s' =>
      if N.eqb x c then ([], s')
      else let (a, b) := split_once c s' in (x :: a, b)
  end.

(** [c.join(parts)]. *)
Fixpoint join (c : str) (parts : list str) : str :=
  match parts with
  | [] => []
  | [w] => w
  | w :: ws => w ++ c ++ join c ws
  end.

(** Index of the first [c] in [s]. *)
Fixpoint index_of (c : codepoint) (s : str) : option nat :=
  match s with
  | [] => None
  | x :: s' => if N.eqb x c then Some 0 else option_map S (index_of c s')
  end.

(** [s.find(c, start)]; [None] is Python's [-1]. *)
Definition find (c : codepoint) (s : str) (start : nat) : option nat :=
  option_map (Nat.add start) (index_of c (skipn start s)).

(** [s.rfind(c)]; [None] is Python's [-1]. *)
Definition rfind (c : codepoint) (s : str) : option nat :=
  option_map (fun i => List.length s - 1 - i) (index_of c (rev s)).

(** [s.replace(c, "")]. *)
Definition remove_char (c : codepoint) (s : str) : str :=
  filter (fun x => negb (N.eqb x c)) s.

(** [s.isascii()]. *)
Definition isascii (s : str) : bool := forallb (fun c => (c <? 128)%N) s.

(** [s.lstrip(chars)] for the C0 controls and the space. *)
Fixpoint lstrip_c0 (s : str) : str :=
  match s with
  | c :: s' => if (c <=? 32)%N then lstrip_c0 s' else s
  | [] => []
  end.

(** [s.strip(chars)] for the same characters. *)
Definition strip_c0 (s : str) : str :=
  rev (lstrip_c0 (rev (lstrip_c0 s))).

(** [s.rpartition(c)[2]]: the text after the last [c], all of [s] when
    there is none. *)
Definition after_last (c : codepoint) (s : str) : str :=
  match rfind c s with
  | Some i => skipn (i + 1) s
  | None => s
  end.

(** [c.isascii() and c.isalpha()]. *)
Definition ascii_letter (c : codepoint) : bool :=
  ((97 <=? c) && (c <=? 122) || (65 <=? c) && (c <=? 90))%N.

(** ASCII lower-casing of one code point. *)
Definition lower_char (c : codepoint) : codepoint :=
  if (65 <=? c)%N && (c <=? 90)%N then (c + 32)%N else c.

(** [s.lower()] on ASCII text (other code points are left alone). *)
Definition lower (s : str) : str := List.map lower_char s.

(** Python [str(n)] for an [int]. *)
Definition str_of_Z (z : Z) : str :=
  py (NilZero.string_of_int (Z.to_int z)).

(** [s.encode('utf8')] of one code point; a surrogate cannot be
    encoded. *)
Definition utf8_char (c : codepoint) : option bytes :=
  let b (n : N) : byte :=
    match Byte.of_N n with Some x => x | None => x00 end in
  if (c <? 128)%N then Some [b c]
  else if (c <? 2048)%N then
    Some [b (192 + c / 64)%N; b (128 + c mod 64)%N]
  else if (55296 <=? c)%N && (c <=? 57343)%N then None
  else if (c <? 65536)%N then
    Some [b (224 + c / 4096)%N; b (128 + (c / 64) mod 64)%N;
          b (128 + c mod 64)%N]
  else if (c <? 1114112)%N then
    Some [b (240 + c / 262144)%N; b (128 + (c / 4096) mod 64)%N;
          b (128 + (c / 64) mod 64)%N; b (128 + c mod 64)%N]
  else None.

(** [s.encode('utf8')]: [None] stands for [UnicodeEncodeError]. *)
Fixpoint encode_utf8 (s : str) : option bytes :=
  match s with
  | [] => Some []
  | c :: s' =>
      match utf8_char c, encode_utf8 s' with
      | Some bs, Some rest => Some (bs ++ rest)
      | _, _ => None
      end
  end.

(* ================================================================== *)
(** ** Dictionaries *)
(* ================================================================== *)

(** A [dict] with [str] keys: bindings in insertion order, keys
    distinct. *)
Definition dict (V : Type) := list (str * V).

Section Dict.
Variable V : Type.

(** [d.get(k)] / [d[k]]. *)
Fixpoint dict_get (k : str) (d : dict V) : option V :=
  match d with
  | [] => None
  | (k', v) :: d' => if str_eqb k k' then Some v else dict_get k d'
  end.

(** [d[k] = v]: an existing key keeps its place, a new one goes last. *)
Fixpoint dict_set (k : str) (v : V) (d : dict V) : dict V :=
  match d with
  | [] => [(k, v)]
  | (k', v') :: d' =>
      if str_eqb k k' then (k', v) :: d' else (k', v') :: dict_set k v d'
  end.

(** [d.update(e)], also the meaning of a dict display
    [{**d, k1: v1, ...}]: the bindings of [e] are stored in order. *)
Definition dict_update (d e : dict V) : dict V :=
  fold_left (fun acc kv => dict_set (fst kv) (snd kv) acc) e d.
End Dict.

(* ================================================================== *)
(** ** Exceptions and results *)
(* ================================================================== *)

(** The exceptions the client and its libraries raise.  The text carried
    is the exception's message where the source builds one. *)
Inductive exn : Type :=
| NameError (name : str)
| TypeError
| ValueError (msg : str)
| AttributeError
| UnicodeEncodeError
| JSONDecodeError
| Exception_ (msg : str)
| RequestException.

(** The outcome of a computation that can raise. *)
Inductive result (A : Type) : Type :=
| Ok (a : A)
| Raise (e : exn).
Arguments Ok {A} a.
Arguments Raise {A} e.

(* ================================================================== *)
(** ** Floats *)
(* ================================================================== *)

(** A Python [float], as far as [repr] tells floats apart: not a
    number, an infinity, a zero, or a finite number other than zero.
    The last is given by the digits [repr] shows for it (the shortest
    that read back as the same float), as the decimal numeral of [m],
    and by the place [decpt] of the decimal point: the float is
    [0.m * 10 ** decpt], so [1.5] is [FFinite false 15 1].  Every float
    is one of these; the type has more (a float has 17 digits at most
    and a bounded exponent), which [repr] below treats alike. *)
Inductive float : Type :=
| FNan
| FInf (negative : bool)
| FZero (negative : bool)
| FFinite (negative : bool) (m : positive) (decpt : Z).

(** The sign [repr] writes. *)
Definition float_sign (negative : bool) : str :=
  if negative then py "-" else [].

(** The exponent as C's [%+.02d] prints it: a sign and two digits at
    least. *)
Definition float_exponent (e : Z) : str :=
  (if (e <? 0)%Z then py "-" else py "+")
  ++ (if (Z.abs e <? 10)%Z then py "0" else [])
  ++ str_of_Z (Z.abs e).

(** [repr(f)]: the digits with a decimal point for a float from [1e-4]
    up to [1e16], with [.0] after a whole number; the first digit, the
    others after a point, and an exponent outside that range. *)
Definition float_repr (f : float) : str :=
  match f with
  | FNan => py "nan"
  | FInf negative => float_sign negative ++ py "inf"
  | FZero negative => float_sign negative ++ py "0.0"
  | FFinite negative m decpt =>
      let digits := str_of_Z (Z.pos m) in
      let n := Z.of_nat (List.length digits) in
      float_sign negative
      ++ (if (decpt <=? -4)%Z || (16 <? decpt)%Z then
            firstn 1 digits
            ++ (if (1 <? n)%Z then py "." ++ skipn 1 digits else [])
            ++ py "e" ++ float_exponent (decpt - 1)
          else if (decpt <=? 0)%Z then
            py "0." ++ repeat (chr "0") (Z.to_nat (- decpt)) ++ digits
          else if (decpt <? n)%Z then
            firstn (Z.to_nat decpt) digits
            ++ py "." ++ skipn (Z.to_nat decpt) digits
          else
            digits ++ repeat (chr "0") (Z.to_nat (decpt - n)) ++ py ".0")
  end.

(* ================================================================== *)
(** ** JSON values and [simplejson.dumps] *)
(* ================================================================== *)

(** What [resp.json()] returns and what [dumps] accepts: [None], [bool],
    [int], [float], [str], [list] and [dict] with [str] keys. *)
Inductive json : Type :=
| JNull
| JBool (b : bool)
| JInt (z : Z)
| JFloat (f : float)
| JStr (s : str)
| JList (l : list json)
| JDict (d : list (str * json)).

(** One lower-case hexadecimal digit. *)
Definition hex_digit (n : N) : codepoint :=
  if (n <? 10)%N then (48 + n)%N else (87 + n)%N.

(** ['\\u%04x' % n]. *)
Definition escape_u (n : N) : str :=
  [chr "\"; chr "u"; hex_digit ((n / 4096) mod 16); hex_digit ((n / 256) mod 16);
   hex_digit ((n / 16) mod 16); hex_digit (n mod 16)]%N.

(** The replacement [simplejson] makes for one character under
    [ensure_ascii=True]: printable ASCII other than the quote and the
    backslash is kept, the rest is escaped. *)
Definition escape_char (c : codepoint) : str :=
  if (c =? chr "\")%N then py "\\"
  else if (c =? dquote)%N then [chr "\"; dquote]
  else if (32 <=? c)%N && (c <=? 126)%N then [c]
  else if (c =? 8)%N then py "\b"
  else if (c =? 12)%N then py "\f"
  else if (c =? 10)%N then py "\n"
  else if (c =? 13)%N then py "\r"
  else if (c =? 9)%N then py "\t"
  else if (c <? 65536)%N then escape_u c
  else
    let n := (c - 65536)%N in
    escape_u (N.lor 55296 (N.land (N.shiftr n 10) 1023))
    ++ escape_u (N.lor 56320 (N.land n 1023)).

(** [encode_basestring_ascii(s)]. *)
Definition encode_basestring_ascii (s : str) : str :=
  [dquote] ++ flat_map escape_char s ++ [dquote].

(** What the encoder writes for a float: [repr] for a finite float; for
    the others the names JavaScript has for them when [allow_nan] is
    set, and a [ValueError] when it is not.  The message is that of the
    compiled encoder; the encoder written in Python adds the [repr] of
    the float to it. *)
Definition floatstr (allow_nan : bool) (o : float) : result str :=
  match o with
  | FNan | FInf _ =>
      if allow_nan then
        Ok (match o with
            | FNan => py "NaN"
            | FInf true => py "-Infinity"
            | _ => py "Infinity"
            end)
      else
        Raise (ValueError
                 (py "Out of range float values are not JSON compliant"))
  | _ => Ok (float_repr o)
  end.

(** The chunks of a sequence, up to the first that raises. *)
Fixpoint collect {A : Type} (l : list (result A)) : result (list A) :=
  match l with
  | [] => Ok []
  | Raise e :: _ => Raise e
  | Ok a :: l' =>
      match collect l' with
      | Ok r => Ok (a :: r)
      | Raise e => Raise e
      end
  end.

(** [simplejson.dumps(o)] with its default options: separators [", "]
    and [": "], [ensure_ascii=True], keys in the dictionary's order.
    The default of [allow_nan] depends on the version of the library
    ([True] before 3.19, [False] from then on), so it is an argument
    here. *)
Fixpoint dumps (allow_nan : bool) (o : json) : result str :=
  match o with
  | JNull => Ok (py "null")
  | JBool true => Ok (py "true")
  | JBool false => Ok (py "false")
  | JInt z => Ok (str_of_Z z)
  | JFloat f => floatstr allow_nan f
  | JStr s => Ok (encode_basestring_ascii s)
  | JList l =>
      match collect (List.map (dumps allow_nan) l) with
      | Ok chunks => Ok (py "[" ++ join (py ", ") chunks ++ py "]")
      | Raise e => Raise e
      end
  | JDict d =>
      match collect
              (List.map (fun kv : str * json =>
                           let (k, v) := kv in
                           match dumps allow_nan v with
                           | Ok chunk =>
                               Ok (encode_basestring_ascii k ++ py ": "
                                   ++ chunk)
                           | Raise e => Raise e
                           end) d) with
      | Ok chunks => Ok (py "{" ++ join (py ", ") chunks ++ py "}")
      | Raise e => Raise e
      end
  end.

(* ================================================================== *)
(** ** [urllib.parse] (CPython 3.11) *)
(* ================================================================== *)

Module urllib.

Record ParseResult : Type := mkParseResult {
  scheme : str;
  netloc : str;
  path : str;
  params : str;
  query : str;
  fragment : str
}.

Definition uses_relative : list str :=
  List.map py
    [""; "ftp"; "http"; "gopher"; "nntp"; "imap"; "wais"; "file"; "https";
     "shttp"; "mms"; "prospero"; "rtsp"; "rtspu"; "sftp"; "svn"; "svn+ssh";
     "ws"; "wss"]%string.

Definition uses_netloc : list str :=
  List.map py
    [""; "ftp"; "http"; "gopher"; "nntp"; "telnet"; "imap"; "wais"; "file";
     "mms"; "https"; "shttp"; "snews"; "prospero"; "rtsp"; "rtspu"; "rsync";
     "svn"; "svn+ssh"; "sftp"; "nfs"; "git"; "git+ssh"; "ws"; "wss"]%string.

Definition uses_params : list str :=
  List.map py
    [""; "ftp"; "hdl"; "prospero"; "http"; "imap"; "https"; "shttp"; "rtsp";
     "rtspu"; "sip"; "sips"; "mms"; "sftp"; "tel"]%string.

(** [x in l] for a list of strings. *)
Definition mem (x : str) (l : list str) : bool := existsb (str_eqb x) l.

(** [c in scheme_chars]: ASCII letters, digits and ["+-."]. *)
Definition scheme_char (c : codepoint) : bool :=
  ((97 <=? c) && (c <=? 122) || (65 <=? c) && (c <=? 90)
   || (48 <=? c) && (c <=? 57)
   || (c =? chr "+") || (c =? chr "-") || (c =? chr "."))%N.

(** [_splitnetloc(url, 2)]: the text after the two slashes up to the
    first of ["/?#"], and the rest from that delimiter on. *)
Definition _splitnetloc (url : str) : str * str :=
  let delim c d :=
    match find c url 2 with Some w => Nat.min d w | None => d end in
  let d := delim (chr "#") (delim (chr "?") (delim (chr "/")
             (List.length url))) in
  (firstn (d - 2) (skipn 2 url), skipn d url).

(** What the parser takes from other modules of the standard library:
    [unicodedata.normalize('NFKC', s)], which [_checknetloc] consults
    for a network location that is not ASCII, and
    [_check_bracketed_host(hostname)] (a regular expression and
    [ipaddress.ip_address]), which answers [None] when the host between
    brackets is accepted and the exception it raises otherwise. *)
Record Lib : Type := mkLib {
  nfkc : str -> str;
  _check_bracketed_host : str -> option exn
}.

Section Normalize.

Variable lib : Lib.

(** [_checknetloc(netloc)]: [false] when it raises [ValueError]. *)
Definition _checknetloc (netloc : str) : bool :=
  if match netloc with [] => true | _ => false end || isascii netloc
  then true
  else
    let n := remove_char (chr "?") (remove_char (chr "#")
               (remove_char (chr ":") (remove_char (chr "@") netloc))) in
    let netloc2 := lib.(nfkc) n in
    if str_eqb n netloc2 then true
    else negb (existsb (fun c => contains_char c netloc2)
                 [chr "/"; chr "?"; chr "#"; chr "@"; chr ":"]).

(** [_check_bracketed_netloc(netloc)]: [None] when it returns. *)
Definition _check_bracketed_netloc (netloc : str) : option exn :=
  let hostname_and_port := after_last (chr "@") netloc in
  if contains_char (chr "[") hostname_and_port then
    let (before_bracket, bracketed) :=
      split_once (chr "[") hostname_and_port in
    match before_bracket with
    | _ :: _ => Some (ValueError (py "Invalid IPv6 URL"))
    | [] =>
        let (hostname, port) := split_once (chr "]") bracketed in
        match port with
        | c :: _ =>
            if N.eqb c (chr ":") then lib.(_check_bracketed_host) hostname
            else Some (ValueError (py "Invalid IPv6 URL"))
        | [] => lib.(_check_bracketed_host) hostname
        end
    end
  else
    lib.(_check_bracketed_host) (fst (split_once (chr ":") hostname_and_port)).

(** [urlsplit(url, scheme)], with the parameters field left empty. *)
Definition urlsplit (url scheme : str) : result ParseResult :=
  let url := lstrip_c0 url in
  let scheme := strip_c0 scheme in
  let remove s := remove_char 10%N (remove_char 13%N (remove_char 9%N s)) in
  let url := remove url in
  let scheme := remove scheme in
  let (scheme, url) :=
    match find (chr ":") url 0 with
    | Some (S i') =>
        let i := S i' in
        if ascii_letter (hd 0%N url) && forallb scheme_char (firstn i url)
        then (lower (firstn i url), skipn (i + 1) url)
        else (scheme, url)
    | _ => (scheme, url)
    end in
  let (netloc, url) :=
    if str_eqb (firstn 2 url) (py "//") then _splitnetloc url
    else ([], url) in
  if contains_char (chr "[") netloc && negb (contains_char (chr "]") netloc)
     || contains_char (chr "]") netloc && negb (contains_char (chr "[") netloc)
  then Raise (ValueError (py "Invalid IPv6 URL"))
  else
    match
      if contains_char (chr "[") netloc && contains_char (chr "]") netloc
      then _check_bracketed_netloc netloc else None
    with
    | Some e => Raise e
    | None =>
        let (url, fragment) :=
          if contains_char (chr "#") url then split_once (chr "#") url
          else (url, []) in
        let (url, query) :=
          if contains_char (chr "?") url then split_once (chr "?") url
          else (url, []) in
        if _checknetloc netloc
        then Ok (mkParseResult scheme netloc url [] query fragment)
        else Raise (ValueError
                      (py "netloc '" ++ netloc
                       ++ py "' contains invalid characters under NFKC normalization"))
    end.

(** [_splitparams(url)]: the parameters of the last path segment. *)
Definition _splitparams (url : str) : str * str :=
  let cut i := (firstn i url, skipn (i + 1) url) in
  if contains_char (chr "/") url then
    match rfind (chr "/") url with
    | Some r =>
        match find (chr ";") url r with
        | Some i => cut i
        | None => (url, [])
        end
    | None => (url, [])
    end
  else
    match find (chr ";") url 0 with
    | Some i => cut i
    | None => (url, [])
    end.

(** [urlparse(url, scheme)]. *)
Definition urlparse (url default_scheme : str) : result ParseResult :=
  match urlsplit url default_scheme with
  | Raise e => Raise e
  | Ok r =>
      if mem r.(scheme) uses_params && contains_char (chr ";") r.(path)
      then
        let (url', params') := _splitparams r.(path) in
        Ok (mkParseResult r.(scheme) r.(netloc) url' params'
              r.(query) r.(fragment))
      else Ok r
  end.

(** [urlunsplit((scheme, netloc, url, query, fragment))]. *)
Definition urlunsplit (scheme netloc url query fragment : str) : str :=
  let nonempty (s : str) := match s with [] => false | _ => true end in
  let url :=
    if nonempty netloc
       || (nonempty scheme && mem scheme uses_netloc
           && negb (str_eqb (firstn 2 url) (py "//")))
    then
      let url :=
        if nonempty url && negb (str_eqb (firstn 1 url) (py "/"))
        then py "/" ++ url else url in
      py "//" ++ netloc ++ url
    else url in
  let url := if nonempty scheme then scheme ++ py ":" ++ url else url in
  let url := if nonempty query then url ++ py "?" ++ query else url in
  if nonempty fragment then url ++ py "#" ++ fragment else url.

(** [urlunparse(components)]. *)
Definition urlunparse (r : ParseResult) : str :=
  let url :=
    match r.(params) with
    | [] => r.(path)
    | _ => r.(path) ++ py ";" ++ r.(params)
    end in
  urlunsplit r.(scheme) r.(netloc) url r.(query) r.(fragment).

(** [segments[1:-1] = filter(None, segments[1:-1])]: the empty strings
    strictly between the first and the last segment are dropped. *)
Definition filter_middle (segments : list str) : list str :=
  match segments with
  | [] => []
  | first :: rest =>
      match rest with
      | [] => [first]
      | _ =>
          first
          :: filter (fun s => match s with [] => false | _ => true end)
               (removelast rest)
          ++ [last rest []]
      end
  end.

(** The loop of [urljoin] over the segments: [".."] pops (an empty
    stack is left alone), ["."] is skipped, any other segment is
    appended. *)
Definition resolve_segments (segments : list str) : list str :=
  fold_left
    (fun resolved_path seg =>
       if str_eqb seg (py "..") then removelast resolved_path
       else if str_eqb seg (py ".") then resolved_path
       else resolved_path ++ [seg])
    segments [].

(** The path that [urljoin] puts in its result, from the base's path
    and the reference's non-empty path. *)
Definition resolve_path (bpath path : str) : str :=
  let base_parts := split (chr "/") bpath in
  let base_parts :=
    match last base_parts [] with
    | [] => base_parts
    | _ => removelast base_parts
    end in
  let segments :=
    if str_eqb (firstn 1 path) (py "/") then split (chr "/") path
    else filter_middle (base_parts ++ split (chr "/") path) in
  let resolved_path := resolve_segments segments in
  let resolved_path :=
    if mem (last segments []) [py "."; py ".."]
    then resolved_path ++ [[]] else resolved_path in
  match join (py "/") resolved_path with
  | [] => py "/"
  | p => p
  end.

(** [urljoin(base, url)]. *)
Definition urljoin (base url : str) : result str :=
  match base, url with
  | [], _ => Ok url
  | _, [] => Ok base
  | _, _ =>
      match urlparse base [] with
      | Raise e => Raise e
      | Ok b =>
          match urlparse url b.(scheme) with
          | Raise e => Raise e
          | Ok u =>
              if negb (str_eqb u.(scheme) b.(scheme))
                 || negb (mem u.(scheme) uses_relative)
              then Ok url
              else if mem u.(scheme) uses_netloc
                      && match u.(netloc) with [] => false | _ => true end
              then Ok (urlunparse u)
              else
                let netloc' :=
                  if mem u.(scheme) uses_netloc then b.(netloc)
                  else u.(netloc) in
                match u.(path), u.(params) with
                | [], [] =>
                    let query' :=
                      match u.(query) with
                      | [] => b.(query)
                      | q => q
                      end in
                    Ok (urlunparse
                          (mkParseResult u.(scheme) netloc' b.(path)
                             b.(params) query' u.(fragment)))
                | _, _ =>
                    Ok (urlunparse
                          (mkParseResult u.(scheme) netloc'
                             (resolve_path b.(path) u.(path))
                             u.(params) u.(query) u.(fragment)))
                end
          end
      end
  end.

End Normalize.
End urllib.

(* ================================================================== *)
(** ** The world the client runs in *)
(* ================================================================== *)

(** The values that are only passed around: the credentials handed to
    [requests] and to the container engine, the result of a name lookup,
    extra keyword arguments. *)
Inductive value : Type :=
| VNone
| VStr (s : str)
| VList (l : list str)
| VPair (a b : value)
| VObject (name : str).

(** [a + b] on these values: strings and lists concatenate among
    themselves, anything else is a [TypeError]. *)
Definition py_add (a b : value) : result value :=
  match a, b with
  | VStr x, VStr y => Ok (VStr (x ++ y))
  | VList x, VList y => Ok (VList (x ++ y))
  | _, _ => Raise TypeError
  end.

(** The truth value of an optional string argument: [None] and [""] are
    false. *)
Definition truthy (o : option str) : bool :=
  match o with
  | Some (_ :: _) => true
  | _ => false
  end.

(** The [body] argument of [post] and [put]: a JSON-like value ([dict],
    [str], [list], [None], ...) or [bytes]. *)
Inductive payload : Type :=
| PJson (j : json)
| PBytes (b : bytes).

(** A header dictionary is a mutable object: it lives in the heap and is
    named by its address. *)
Definition loc := nat.

(** The arguments of one call of [requests.request] / [requests.post]:
    the header dictionary as it is at the time of the call. *)
Record Request : Type := mkRequest {
  req_method : str;
  req_url : str;
  req_headers : option (dict str);
  req_data : option payload;
  req_auth : option value;
  req_kwargs : dict value
}.

(** A [requests.Response]: the raw body, and its decoded text. *)
Record Response : Type := mkResponse {
  status_code : Z;
  content : bytes;
  text : str
}.

(** What can be observed from outside: a call of [requests.request] or
    [requests.post] with its arguments, the text given to [print] (on
    standard output or, with [file=sys.stderr], on standard error), and
    the opening of a container session. *)
Inductive event : Type :=
| Http (r : Request)
| Stdout (s : str)
| Stderr (s : str)
| DockerInit (credentials : value) (engine registry : value).

(** The fields of a [GalaxyClient]. *)
Record GalaxyClient : Type := mkClient {
  headers : option loc;
  galaxy_root : str;
  token : json;
  docker_client : option value
}.

(** The class attributes, which an instance shows until [__init__]
    assigns its own. *)
Definition class_attributes : GalaxyClient :=
  mkClient None [] (JStr []) None.

Record world : Type := mkWorld {
  heap : list (dict str);
  self : GalaxyClient;
  trace : list event
}.

(** The keyword arguments of [get], [post] and [put]: [headers] (absent,
    [None] or a dictionary), [data], and the rest, which goes to
    [requests] untouched. *)
Record kwargs : Type := mkKwargs {
  kw_headers : option (option loc);
  kw_data : option payload;
  kw_rest : dict value
}.

Definition no_kwargs : kwargs := mkKwargs None None [].

(* ------------------------------------------------------------------ *)
(** *** The monad: state and exceptions *)

Definition M (A : Type) : Type := world -> result A * world.

Definition ret {A} (a : A) : M A := fun w => (Ok a, w).

Definition bind {A B} (m : M A) (k : A -> M B) : M B :=
  fun w =>
    match m w with
    | (Ok a, w') => k a w'
    | (Raise e, w') => (Raise e, w')
    end.

Definition raise {A} (e : exn) : M A := fun w => (Raise e, w).

(** [try: m except ...: handler]; a handler that answers [None] does not
    match, and the exception goes on. *)
Definition try_except {A} (m : M A) (handler : exn -> option (M A)) : M A :=
  fun w =>
    match m w with
    | (Ok a, w') => (Ok a, w')
    | (Raise e, w') =>
        match handler e with
        | Some h => h w'
        | None => (Raise e, w')
        end
    end.

Definition lift {A} (r : result A) : M A := fun w => (r, w).

Declare Scope monad_scope.
Delimit Scope monad_scope with monad.
Notation "x <- m ;; k" := (bind m (fun x => k))
  (at level 61, m at next level, right associativity) : monad_scope.
Notation "m ;; k" := (bind m (fun _ => k))
  (at level 61, right associativity) : monad_scope.
Local Open Scope monad_scope.

Definition get_self : M GalaxyClient := fun w => (Ok w.(self), w).

Definition set_self (c : GalaxyClient) : M unit :=
  fun w => (Ok tt, mkWorld w.(heap) c w.(trace)).

Definition emit (e : event) : M unit :=
  fun w => (Ok tt, mkWorld w.(heap) w.(self) (w.(trace) ++ [e])).

(** A new dictionary object. *)
Definition alloc_dict (d : dict str) : M loc :=
  fun w => (Ok (List.length w.(heap)),
            mkWorld (w.(heap) ++ [d]) w.(self) w.(trace)).

(** The dictionary at an address. *)
Definition deref (h : list (dict str)) (l : loc) : dict str := nth l h [].

Definition read_dict (l : loc) : M (dict str) :=
  fun w => (Ok (deref w.(heap) l), w).

Fixpoint replace_nth {A} (n : nat) (x : A) (l : list A) : list A :=
  match n, l with
  | _, [] => []
  | 0, _ :: l' => x :: l'
  | S n', y :: l' => y :: replace_nth n' x l'
  end.

(** [d.update(e)] on the dictionary object at [l]. *)
Definition update_dict (l : loc) (e : dict str) : M unit :=
  fun w =>
    (Ok tt,
     mkWorld (replace_nth l (dict_update (deref w.(heap) l) e) w.(heap))
       w.(self) w.(trace)).

(** Run a method on a world. *)
Definition run {A} (m : M A) (w : world) : result A * world := m w.

(* ================================================================== *)
(** ** Names *)
(* ================================================================== *)

(** The names bound at the top level of [client.py]: its imports and
    the class. *)
Definition module_globals : list str :=
  List.map py
    ["JSONDecodeError"; "dumps"; "sys"; "urlparse"; "urljoin"; "requests";
     "dockerutils"; "users"; "groups"; "GalaxyClient"]%string.

(** The built-in functions and the built-in names the module uses. *)
Definition builtins : list str :=
  List.map py
    ["abs"; "aiter"; "all"; "anext"; "any"; "ascii"; "bin"; "bool";
     "breakpoint"; "bytearray"; "bytes"; "callable"; "chr"; "classmethod";
     "compile"; "complex"; "delattr"; "dict"; "dir"; "divmod"; "enumerate";
     "eval"; "exec"; "filter"; "float"; "format"; "frozenset"; "getattr";
     "globals"; "hasattr"; "hash"; "help"; "hex"; "id"; "input"; "int";
     "isinstance"; "issubclass"; "iter"; "len"; "list"; "locals"; "map";
     "max"; "memoryview"; "min"; "next"; "object"; "oct"; "open"; "ord";
     "pow"; "print"; "property"; "range"; "repr"; "reversed"; "round";
     "set"; "setattr"; "slice"; "sorted"; "staticmethod"; "str"; "sum";
     "super"; "tuple"; "type"; "vars"; "zip"; "__import__";
     "None"; "True"; "False"; "Exception"; "ValueError"; "TypeError"]%string.

(** Loading a name that the function does not assign: the module's
    globals, then the built-ins, else [NameError]. *)
Definition load_global (name : str) : M value :=
  if urllib.mem name module_globals || urllib.mem name builtins
  then ret (VObject name)
  else raise (NameError name).

(* ================================================================== *)
(** ** [requests] *)
(* ================================================================== *)

(** [iter_slices(content, n)]: the body in pieces of [n] bytes. *)
Fixpoint iter_slices_fuel (fuel n : nat) (b : bytes) : list bytes :=
  match fuel, b with
  | 0, _ => []
  | _, [] => []
  | S fuel', _ => firstn n b :: iter_slices_fuel fuel' n (skipn n b)
  end.

(** [iter(resp)], that is [resp.iter_content(128)] on a body that has
    been read. *)
Definition Response_iter (resp : Response) : list bytes :=
  iter_slices_fuel (List.length resp.(content)) 128 resp.(content).

(** [s == b] for a [str] and a [bytes]: never equal. *)
Definition str_eq_bytes (s : str) (b : bytes) : bool := false.

(** [s in resp]: [Response] has no [__contains__], so the test walks
    [iter(resp)] and compares [s] with each piece. *)
Definition Response_contains (s : str) (resp : Response) : bool :=
  existsb (str_eq_bytes s) (Response_iter resp).

Section Client.

(** [simplejson.loads]: [None] when the text is not valid JSON. *)
Variable loads : str -> option json.

(** The network: what [requests] answers to a request (a response, or an
    exception such as a refused connection). *)
Variable net : Request -> result Response.

(** What [urllib.parse] takes from the rest of the standard library. *)
Variable lib : urllib.Lib.

(** The default of [simplejson]'s option [allow_nan], which the
    installed version of the library decides: [True] before 3.19,
    [False] from then on. *)
Variable allow_nan : bool.

(** [str(v)] of a list or a dictionary, for the f-string of [__init__]. *)
Variable container_str : json -> str.

(** [resp.json()]. *)
Definition Response_json (resp : Response) : M json :=
  match loads resp.(text) with
  | Some j => ret j
  | None => raise JSONDecodeError
  end.

(** [requests.post(url, auth=auth)]. *)
Definition requests_post (url : str) (auth : value) : M Response :=
  let req := mkRequest (py "post") url None None (Some auth) [] in
  emit (Http req) ;; lift (net req).

(** [requests.request(method, url, headers=headers, *args, **kwargs)]:
    the function takes [method] and [url] by position and nothing
    else. *)
Definition requests_request (method url : str) (headers : option loc)
    (args : list value) (kw : kwargs) : M Response :=
  match args with
  | _ :: _ => raise TypeError
  | [] =>
      hd <- match headers with
            | Some l => d <- read_dict l ;; ret (Some d)
            | None => ret None
            end ;;
      let req := mkRequest method url hd kw.(kw_data) None kw.(kw_rest) in
      emit (Http req) ;; lift (net req)
  end.

(** Modelled from the spec: [dockerutils.DockerClient], whose module is
    not part of the sources at hand; the spec gives the constructor's
    arguments (credentials, engine selector, registry host) and treats
    the session as opaque. *)
Definition DockerClient (credentials engine registry : value) : M value :=
  emit (DockerInit credentials engine registry) ;;
  ret (VObject (py "DockerClient")).

(* ================================================================== *)
(** ** [GalaxyClient] *)
(* ================================================================== *)

(** [j.get(key)] on the parsed body: only a dictionary has [get]; a
    missing key gives [None]. *)
Definition json_get (j : json) (key : str) : M json :=
  match j with
  | JDict d =>
      match dict_get key d with
      | Some v => ret v
      | None => ret JNull
      end
  | _ => raise AttributeError
  end.

(** The text an f-string shows for a value. *)
Definition format_value (j : json) : str :=
  match j with
  | JStr s => s
  | JNull => py "None"
  | JBool true => py "True"
  | JBool false => py "False"
  | JInt z => str_of_Z z
  | JFloat f => float_repr f
  | _ => container_str j
  end.

Definition set_galaxy_root (r : str) : M unit :=
  c <- get_self ;;
  set_self (mkClient c.(headers) r c.(token) c.(docker_client)).

Definition set_headers (h : option loc) : M unit :=
  c <- get_self ;;
  set_self (mkClient h c.(galaxy_root) c.(token) c.(docker_client)).

Definition set_token (t : json) : M unit :=
  c <- get_self ;;
  set_self (mkClient c.(headers) c.(galaxy_root) t c.(docker_client)).

Definition set_docker_client (d : value) : M unit :=
  c <- get_self ;;
  set_self (mkClient c.(headers) c.(galaxy_root) c.(token) (Some d)).

(** [self.galaxy_root]. *)
Definition self_galaxy_root : M str :=
  c <- get_self ;; ret c.(galaxy_root).

(** [GalaxyClient.__init__(self, galaxy_root, auth, container_engine,
    container_registry)].  [auth] is [None] or a pair of strings. *)
Definition __init__ (galaxy_root : str) (auth : option (str * str))
    (container_engine container_registry : option str) : M unit :=
  set_galaxy_root galaxy_root ;;
  h <- alloc_dict [] ;;
  set_headers (Some h) ;;
  match auth with
  | None => ret tt
  | Some (username, password) =>
      user <- load_global (py "user") ;;
      resp <- requests_post (galaxy_root ++ py "v3/auth/token/")
                (VPair user (VStr password)) ;;
      try_except
        (j <- Response_json resp ;;
         t <- json_get j (py "token") ;;
         set_token t)
        (fun e =>
           match e with
           | JSONDecodeError =>
               Some (emit (Stderr (py "Failed to fetch token: "
                                   ++ resp.(text))))
           | _ => None
           end) ;;
      c <- get_self ;;
      match c.(headers) with
      | Some l =>
          update_dict l
            [(py "Accept", py "application/json");
             (py "Authorization", py "Token " ++ format_value c.(token))]
      | None => raise AttributeError
      end ;;
      if truthy container_engine then
        registry <-
          (if truthy container_registry
           then ret (match container_registry with
                     | Some r => VStr r
                     | None => VNone
                     end)
           else
             root <- self_galaxy_root ;;
             p <- lift (urllib.urlparse lib root []) ;;
             lift (py_add (VList (split (chr ":") p.(urllib.netloc)))
                     (VStr (py ":5001")))) ;;
        user <- load_global (py "user") ;;
        d <- DockerClient (VPair user (VStr password))
               (match container_engine with
                | Some e => VStr e
                | None => VNone
                end)
               registry ;;
        set_docker_client d
      else ret tt
  end.

(** [GalaxyClient(galaxy_root, auth, container_engine,
    container_registry)]: a new instance, then [__init__] on it. *)
Definition construct (galaxy_root : str) (auth : option (str * str))
    (container_engine container_registry : option str) : M unit :=
  set_self class_attributes ;;
  __init__ galaxy_root auth container_engine container_registry.

(** [GalaxyClient._http(self, method, path, *args, **kwargs)]. *)
Definition _http (method path : str) (args : list value) (kw : kwargs)
  : M json :=
  c <- get_self ;;
  url <- lift (urllib.urljoin lib c.(galaxy_root) path) ;;
  let headers :=
    match kw.(kw_headers) with
    | Some h => h
    | None => c.(headers)
    end in
  let kw := mkKwargs None kw.(kw_data) kw.(kw_rest) in
  resp <- requests_request method url headers args kw ;;
  json <- try_except (Response_json resp)
            (fun e =>
               match e with
               | JSONDecodeError =>
                   Some (emit (Stdout resp.(text)) ;;
                         raise (ValueError
                                  (py "Failed to parse JSON response from API")))
               | _ => None
               end) ;;
  if Response_contains (py "errors") resp
  then raise TypeError
  else ret json.

(** [len(body)] where [body] is what [_payload] is left with. *)
Definition len (body : payload) : M nat :=
  match body with
  | PBytes b => ret (List.length b)
  | PJson (JList l) => ret (List.length l)
  | PJson _ => raise TypeError
  end.

(** [GalaxyClient._payload(self, method, path, body, *args, **kwargs)]. *)
Definition _payload (method path : str) (body : payload)
    (args : list value) (kw : kwargs) : M json :=
  body <- match body with
          | PJson (JDict d) =>
              s <- lift (dumps allow_nan (JDict d)) ;; ret (PJson (JStr s))
          | _ => ret body
          end ;;
  body <- match body with
          | PJson (JStr s) =>
              match encode_utf8 s with
              | Some b => ret (PBytes b)
              | None => raise UnicodeEncodeError
              end
          | _ => ret body
          end ;;
  c <- get_self ;;
  base <- match kw.(kw_headers) with
          | Some (Some l) => read_dict l
          | Some None => raise TypeError
          | None =>
              match c.(headers) with
              | Some l => read_dict l
              | None => raise TypeError
              end
          end ;;
  n <- len body ;;
  headers <- alloc_dict
               (dict_update base
                  [(py "Content-Type", py "application/json;charset=utf-8");
                   (py "Content-length", str_of_Z (Z.of_nat n))]) ;;
  _http method path args
    (mkKwargs (Some (Some headers)) (Some body) kw.(kw_rest)).

(** [GalaxyClient.get(self, path, *args, **kwargs)]. *)
Definition get (path : str) (args : list value) (kw : kwargs) : M json :=
  _http (py "get") path args kw.

(** [GalaxyClient.post(self, path, body, *args, **kwargs)]. *)
Definition post (path : str) (body : payload) (args : list value)
    (kw : kwargs) : M json :=
  _payload (py "post") path body args kw.

(** [GalaxyClient.put(self, path, body, *args, **kwargs)]. *)
Definition put (path : str) (body : payload) (args : list value)
    (kw : kwargs) : M json :=
  _payload (py "put") path body args kw.

End Client.

(* ================================================================== *)
(** ** Vocabulary of the specification *)
(* ================================================================== *)

(** The value of an HTTP header in a request's header mapping.  Header
    names are case-insensitive, and a later binding overrides an earlier
    one that differs only in case. *)
Definition header_get (name : str) (d : dict str) : option str :=
  option_map snd
    (List.find (fun kv => str_eqb (lower (fst kv)) (lower name)) (rev d)).

(** The header of a request; a request without a header mapping has
    none. *)
Definition request_header (name : str) (r : Request) : option str :=
  match r.(req_headers) with
  | Some d => header_get name d
  | None => None
  end.

(** The HTTP requests among some events, in order. *)
Fixpoint requests_of (evs : list event) : list Request :=
  match evs with
  | [] => []
  | Http r :: evs' => r :: requests_of evs'
  | _ :: evs' => requests_of evs'
  end.

(** The container sessions opened among some events. *)
Fixpoint sessions_of (evs : list event) : list (value * value * value) :=
  match evs with
  | [] => []
  | DockerInit c e r :: evs' => (c, e, r) :: sessions_of evs'
  | _ :: evs' => sessions_of evs'
  end.

(** Python [int(s)] on a decimal numeral. *)
Definition int_of_str (s : str) : option Z :=
  option_map Z.of_int
    (NilZero.int_of_string (string_of_list_ascii (List.map ascii_of_N s))).

(* ------------------------------------------------------------------ *)
(** *** The JSON grammar (RFC 8259) *)

Definition is_ws (c : codepoint) : bool :=
  ((c =? 32) || (c =? 9) || (c =? 10) || (c =? 13))%N.

Definition is_digit (c : codepoint) : bool := ((48 <=? c) && (c <=? 57))%N.

Definition is_digit19 (c : codepoint) : bool := ((49 <=? c) && (c <=? 57))%N.

Definition is_hex (c : codepoint) : bool :=
  (is_digit c || (97 <=? c) && (c <=? 102) || (65 <=? c) && (c <=? 70))%N.

(** A character that may stand for itself inside a string. *)
Definition unescaped (c : codepoint) : bool :=
  ((32 <=? c) && (c <=? 33) || (35 <=? c) && (c <=? 91)
   || (93 <=? c) && (c <=? 1114111))%N.

(** The character after the backslash of a two-character escape. *)
Definition simple_escape (c : codepoint) : bool :=
  existsb (N.eqb c)
    [dquote; chr "\"; chr "/"; chr "b"; chr "f"; chr "n"; chr "r"; chr "t"].

Definition ws (s : str) : Prop := forallb is_ws s = true.

Definition digits (s : str) : Prop := s <> [] /\ forallb is_digit s = true.

(** [int = zero / ( digit1-9 *DIGIT )]. *)
Definition json_int (s : str) : Prop :=
  s = py "0"
  \/ exists d ds, s = d :: ds /\ is_digit19 d = true
                  /\ forallb is_digit ds = true.

(** [frac = decimal-point 1*DIGIT], or nothing. *)
Definition json_frac (s : str) : Prop :=
  s = [] \/ exists ds, s = chr "." :: ds /\ digits ds.

(** [exp = e [ minus / plus ] 1*DIGIT], or nothing. *)
Definition json_exp (s : str) : Prop :=
  s = []
  \/ exists e sign ds,
       s = e :: sign ++ ds
       /\ (e = chr "e" \/ e = chr "E")
       /\ (sign = [] \/ sign = py "+" \/ sign = py "-")
       /\ digits ds.

(** [number = [ minus ] int [ frac ] [ exp ]]. *)
Definition json_number (s : str) : Prop :=
  exists minus i f e,
    s = minus ++ i ++ f ++ e
    /\ (minus = [] \/ minus = py "-")
    /\ json_int i /\ json_frac f /\ json_exp e.

(** The characters between the quotes of a string. *)
Inductive json_chars : str -> Prop :=
| chars_nil : json_chars []
| chars_plain c s :
    unescaped c = true -> json_chars s -> json_chars (c :: s)
| chars_escape c s :
    simple_escape c = true -> json_chars s ->
    json_chars (chr "\" :: c :: s)
| chars_unicode a b c d s :
    is_hex a = true -> is_hex b = true -> is_hex c = true ->
    is_hex d = true -> json_chars s ->
    json_chars (chr "\" :: chr "u" :: a :: b :: c :: d :: s).

(** [string = quotation-mark *char quotation-mark]. *)
Definition json_string (s : str) : Prop :=
  exists body, s = dquote :: body ++ [dquote] /\ json_chars body.

(** [value], with the elements of an array and the members of an
    object; insignificant whitespace is allowed around every value,
    name and separator. *)
Inductive json_value : str -> Prop :=
| value_null : json_value (py "null")
| value_true : json_value (py "true")
| value_false : json_value (py "false")
| value_number s : json_number s -> json_value s
| value_string s : json_string s -> json_value s
| value_array_empty w : ws w -> json_value (chr "[" :: w ++ py "]")
| value_array s : json_elements s -> json_value (chr "[" :: s ++ py "]")
| value_object_empty w : ws w -> json_value (chr "{" :: w ++ py "}")
| value_object s : json_members s -> json_value (chr "{" :: s ++ py "}")
with json_elements : str -> Prop :=
| elements_one w1 v w2 :
    ws w1 -> json_value v -> ws w2 -> json_elements (w1 ++ v ++ w2)
| elements_more w1 v w2 rest :
    ws w1 -> json_value v -> ws w2 -> json_elements rest ->
    json_elements (w1 ++ v ++ w2 ++ chr "," :: rest)
with json_members : str -> Prop :=
| members_one w1 k w2 w3 v w4 :
    ws w1 -> json_string k -> ws w2 -> ws w3 -> json_value v -> ws w4 ->
    json_members (w1 ++ k ++ w2 ++ chr ":" :: w3 ++ v ++ w4)
| members_more w1 k w2 w3 v w4 rest :
    ws w1 -> json_string k -> ws w2 -> ws w3 -> json_value v -> ws w4 ->
    json_members rest ->
    json_members (w1 ++ k ++ w2 ++ chr ":" :: w3 ++ v ++ w4
                  ++ chr "," :: rest).

(** [JSON-text = ws value ws]. *)
Definition json_text (s : str) : Prop :=
  exists w1 v w2, s = w1 ++ v ++ w2 /\ ws w1 /\ json_value v /\ ws w2.

(** The same for a payload of bytes: it is the UTF-8 encoding of a JSON
    text. *)
Definition json_bytes (b : bytes) : Prop :=
  exists s, json_text s /\ encode_utf8 s = Some b.

(* ================================================================== *)
(** ** A decoder and a server to run the client on *)
(* ================================================================== *)

(** The client is parametric in the decoder and in the network.  To run
    it on concrete exchanges, here is a decoder for the JSON documents
    whose numbers are integers, and servers that answer one fixed
    response. *)

Fixpoint skip_ws (s : str) : str :=
  match s with
  | c :: s' => if is_ws c then skip_ws s' else s
  | [] => []
  end.

Fixpoint take_digits (s : str) : str * str :=
  match s with
  | c :: s' =>
      if is_digit c then let (d, r) := take_digits s' in (c :: d, r)
      else ([], s)
  | [] => ([], [])
  end.

Definition hex_value (c : codepoint) : option N :=
  if is_digit c then Some (c - 48)%N
  else if ((97 <=? c) && (c <=? 102))%N then Some (c - 87)%N
  else if ((65 <=? c) && (c <=? 70))%N then Some (c - 55)%N
  else None.

Definition hex4 (a b c d : codepoint) : option N :=
  match hex_value a, hex_value b, hex_value c, hex_value d with
  | Some x, Some y, Some z, Some t =>
      Some (x * 4096 + y * 256 + z * 16 + t)%N
  | _, _, _, _ => None
  end.

Definition unescape (c : codepoint) : option codepoint :=
  if (c =? dquote)%N then Some dquote
  else if (c =? chr "\")%N then Some (chr "\")
  else if (c =? chr "/")%N then Some (chr "/")
  else if (c =? chr "b")%N then Some 8%N
  else if (c =? chr "f")%N then Some 12%N
  else if (c =? chr "n")%N then Some 10%N
  else if (c =? chr "r")%N then Some 13%N
  else if (c =? chr "t")%N then Some 9%N
  else None.

Definition cons_char (c : codepoint) (r : option (str * str))
  : option (str * str) :=
  match r with
  | Some (body, rest) => Some (c :: body, rest)
  | None => None
  end.

(** The characters of a string after its opening quote, decoded, and
    the text after the closing quote. *)
Fixpoint read_chars (s : str) : option (str * str) :=
  match s with
  | [] => None
  | c :: s1 =>
      if (c =? dquote)%N then Some ([], s1)
      else if (c =? chr "\")%N then
        match s1 with
        | [] => None
        | e :: s2 =>
            if (e =? chr "u")%N then
              match s2 with
              | a :: b :: c' :: d :: s3 =>
                  match hex4 a b c' d with
                  | None => None
                  | Some hi =>
                      let single := cons_char hi (read_chars s3) in
                      if ((55296 <=? hi) && (hi <? 56320))%N then
                        match s3 with
                        | b1 :: u1 :: h1 :: h2 :: h3 :: h4 :: s4 =>
                            if ((b1 =? chr "\") && (u1 =? chr "u"))%N then
                              match hex4 h1 h2 h3 h4 with
                              | Some lo =>
                                  if ((56320 <=? lo) && (lo <? 57344))%N
                                  then
                                    cons_char
                                      (65536 + (hi - 55296) * 1024
                                       + (lo - 56320))%N
                                      (read_chars s4)
                                  else single
                              | None => single
                              end
                            else single
                        | _ => single
                        end
                      else single
                  end
              | _ => None
              end
            else
              match unescape e with
              | Some x => cons_char x (read_chars s2)
              | None => None
              end
        end
      else if (c <? 32)%N then None
      else cons_char c (read_chars s1)
  end.

(** An integer numeral at the head of [s]; a fraction or an exponent
    is outside the fragment. *)
Definition read_int (s : str) : option (Z * str) :=
  let (neg, s1) :=
    match s with
    | c :: s' => if (c =? chr "-")%N then (true, s') else (false, s)
    | [] => (false, s)
    end in
  let (ds, rest) := take_digits s1 in
  let after_ok :=
    match rest with
    | c :: _ => negb ((c =? chr ".") || (c =? chr "e") || (c =? chr "E"))%N
    | [] => true
    end in
  let shape_ok :=
    match ds with
    | [] => false
    | [_] => true
    | d :: _ => is_digit19 d
    end in
  if after_ok && shape_ok then
    match int_of_str ds with
    | Some z => Some (if neg then (- z)%Z else z, rest)
    | None => None
    end
  else None.

Fixpoint parse_value (fuel : nat) (s : str) : option (json * str) :=
  match fuel with
  | 0 => None
  | S f =>
      let elements :=
        fix elements (n : nat) (s : str) (acc : list json)
          : option (json * str) :=
          match n with
          | 0 => None
          | S n' =>
              match parse_value f s with
              | None => None
              | Some (v, r) =>
                  match skip_ws r with
                  | c :: r' =>
                      if (c =? chr ",")%N then elements n' r' (acc ++ [v])
                      else if (c =? chr "]")%N
                      then Some (JList (acc ++ [v]), r')
                      else None
                  | [] => None
                  end
              end
          end in
      let members :=
        fix members (n : nat) (s : str) (acc : list (str * json))
          : option (json * str) :=
          match n with
          | 0 => None
          | S n' =>
              match skip_ws s with
              | q :: s1 =>
                  if (q =? dquote)%N then
                    match read_chars s1 with
                    | None => None
                    | Some (k, s2) =>
                        match skip_ws s2 with
                        | colon :: s3 =>
                            if (colon =? chr ":")%N then
                              match parse_value f s3 with
                              | None => None
                              | Some (v, r) =>
                                  match skip_ws r with
                                  | c :: r' =>
                                      if (c =? chr ",")%N
                                      then members n' r' (dict_set k v acc)
                                      else if (c =? chr "}")%N
                                      then Some (JDict (dict_set k v acc), r')
                                      else None
                                  | [] => None
                                  end
                              end
                            else None
                        | [] => None
                        end
                    end
                  else None
              | [] => None
              end
          end in
      match skip_ws s with
      | [] => None
      | c :: s1 =>
          if startswith (py "null") (c :: s1)
          then Some (JNull, skipn 4 (c :: s1))
          else if startswith (py "true") (c :: s1)
          then Some (JBool true, skipn 4 (c :: s1))
          else if startswith (py "false") (c :: s1)
          then Some (JBool false, skipn 5 (c :: s1))
          else if (c =? dquote)%N then
            match read_chars s1 with
            | Some (body, r) => Some (JStr body, r)
            | None => None
            end
          else if (c =? chr "[")%N then
            match skip_ws s1 with
            | c2 :: r =>
                if (c2 =? chr "]")%N then Some (JList [], r)
                else elements (List.length s1) s1 []
            | [] => None
            end
          else if (c =? chr "{")%N then
            match skip_ws s1 with
            | c2 :: r =>
                if (c2 =? chr "}")%N then Some (JDict [], r)
                else members (List.length s1) s1 []
            | [] => None
            end
          else
            match read_int (c :: s1) with
            | Some (z, r) => Some (JInt z, r)
            | None => None
            end
      end
  end.

(** The decoder: one value, then nothing but whitespace. *)
Definition loads_sample (s : str) : option json :=
  match parse_value (S (List.length s)) s with
  | Some (v, r) => match skip_ws r with [] => Some v | _ => None end
  | None => None
  end.

(** The text of an example, in which an apostrophe stands for the
    double quote. *)
Definition quoted (s : string) : str :=
  List.map (fun c => if (c =? chr "'")%N then dquote else c) (py s).

(** A response that carries the ASCII text [body]. *)
Definition response_of (status : Z) (body : string) : Response :=
  mkResponse status
    (List.map (fun c => match Byte.of_N c with
                        | Some b => b
                        | None => x00
                        end) (quoted body))
    (quoted body).

(** A server that answers every request with the same response. *)
Definition constant_server (resp : Response) : Request -> result Response :=
  fun _ => Ok resp.

(** A world with nothing in it. *)
Definition empty_world : world := mkWorld [] class_attributes [].

(** [str()] of containers for the runs in which no list or dictionary
    is formatted. *)
Definition no_container_str (j : json) : str := [].

(** The library for the examples, whose URLs are ASCII and have no
    bracketed host: no normalization, and no bracketed host accepted. *)
Definition lib_ascii : urllib.Lib :=
  urllib.mkLib (fun s => s)
    (fun _ => Some (ValueError (py "does not appear to be an IPv4 or IPv6 address"))).

(** The base URL of the examples. *)
Definition example_root : str := py "https://galaxy.example/".

(** A token endpoint that answers with JSON holding a token. *)
Definition token_response : Response := response_of 200 "{'token': 'abc'}".

(** An endpoint that answers with something that is not JSON. *)
Definition html_response : Response :=
  response_of 502 "<html>Bad Gateway</html>".

(* ================================================================== *)
(** ** Observing a call *)
(* ================================================================== *)

(** The world with some more events in its trace. *)
Definition log (w : world) (evs : list event) : world :=
  mkWorld w.(heap) w.(self) (w.(trace) ++ evs).

(** The events that happened between [w] and [w']. *)
Definition events_since (w w' : world) : list event :=
  skipn (List.length w.(trace)) w'.(trace).

(** The events of running [m] from [w]. *)
Definition events_of {A} (m : M A) (w : world) : list event :=
  events_since w (snd (run m w)).

(** The HTTP requests made by running [m] from [w]. *)
Definition sent_by {A} (m : M A) (w : world) : list Request :=
  requests_of (events_of m w).

(** The header mapping a call of [_http] hands to [requests]. *)
Definition http_headers (w : world) (kw : kwargs) : option (dict str) :=
  option_map (deref w.(heap))
    match kw.(kw_headers) with
    | Some h => h
    | None => w.(self).(headers)
    end.

(** The request a call of [_http] makes once the URL is joined. *)
Definition http_request (w : world) (method url : str) (kw : kwargs)
  : Request :=
  mkRequest method url (http_headers w kw) kw.(kw_data) None kw.(kw_rest).

(** The body [_payload] goes on with: a dictionary serialized, a string
    encoded, anything else as it is. *)
Definition encoded_body (allow_nan : bool) (body : payload)
  : result payload :=
  match body with
  | PJson (JDict d) =>
      match dumps allow_nan (JDict d) with
      | Ok s =>
          match encode_utf8 s with
          | Some b => Ok (PBytes b)
          | None => Raise UnicodeEncodeError
          end
      | Raise e => Raise e
      end
  | PJson (JStr s) =>
      match encode_utf8 s with
      | Some b => Ok (PBytes b)
      | None => Raise UnicodeEncodeError
      end
  | _ => Ok body
  end.

(** The mapping [_payload] starts its headers from: the caller's
    override, else the client's own. *)
Definition base_headers (w : world) (kw : kwargs) : result (dict str) :=
  match kw.(kw_headers) with
  | Some (Some l) => Ok (deref w.(heap) l)
  | Some None => Raise TypeError
  | None =>
      match w.(self).(headers) with
      | Some l => Ok (deref w.(heap) l)
      | None => Raise TypeError
      end
  end.

(** [len(body)], outside the monad. *)
Definition body_len (body : payload) : result nat :=
  match body with
  | PBytes b => Ok (List.length b)
  | PJson (JList l) => Ok (List.length l)
  | PJson _ => Raise TypeError
  end.

(** The header mapping [_payload] builds. *)
Definition payload_headers (base : dict str) (n : nat) : dict str :=
  dict_update base
    [(py "Content-Type", py "application/json;charset=utf-8");
     (py "Content-length", str_of_Z (Z.of_nat n))].

(** The world after [_payload] has stored its header mapping. *)
Definition with_dict (w : world) (d : dict str) : world :=
  mkWorld (w.(heap) ++ [d]) w.(self) w.(trace).

(** The keyword arguments [_payload] passes on to [_http]. *)
Definition payload_kwargs (w : world) (body : payload) (kw : kwargs)
  : kwargs :=
  mkKwargs (Some (Some (List.length w.(heap)))) (Some body) kw.(kw_rest).

(** The message of the [ValueError] that [_http] raises. *)
Definition parse_failure : exn :=
  ValueError (py "Failed to parse JSON response from API").

(** The constructor's intent for a container engine, as the
    specification words it: a session is opened with the engine
    selector and, as registry, the base URL's network location with
    port 5001, and the client holds the session. *)
Definition default_session_opened (lib : urllib.Lib) (root engine : str)
    (w w' : world) : Prop :=
  exists credentials p,
    urllib.urlparse lib root [] = Ok p
    /\ In (credentials, VStr engine,
           VStr (p.(urllib.netloc) ++ py ":5001"))
         (sessions_of (events_since w w'))
    /\ w'.(self).(docker_client) <> None.

(** A request that carries neither an [Accept] nor an [Authorization]
    header. *)
Definition no_credentials (r : Request) : Prop :=
  request_header (py "Accept") r = None
  /\ request_header (py "Authorization") r = None.

(** The client's header mapping, as it is in the heap. *)
Definition stored_headers (w : world) : option (dict str) :=
  option_map (deref w.(heap)) w.(self).(headers).

(** The client's header reference points into the heap. *)
Definition wf (w : world) : Prop :=
  match w.(self).(headers) with
  | Some l => l < List.length w.(heap)
  | None => True
  end.

(** The state a constructor leaves when it stops before the token
    exchange, and also when it is given no credentials: the base URL and
    an empty header mapping. *)
Definition bare (w : world) (root : str) : world :=
  mkWorld (w.(heap) ++ [[]])
    (mkClient (Some (List.length w.(heap))) root (JStr []) None)
    w.(trace).

(** One of the three verbs of the client, with the body of a mutating
    one. *)
Inductive verb : Type :=
| Get
| Post (body : payload)
| Put (body : payload).

(** The call [client.get(path, ...)], [client.post(path, body, ...)] or
    [client.put(path, body, ...)]. *)
Definition call (loads : str -> option json)
    (net : Request -> result Response) (lib : urllib.Lib)
    (allow_nan : bool)
    (v : verb) (path : str) (args : list value) (kw : kwargs) : M json :=
  match v with
  | Get => get loads net lib path args kw
  | Post body => post loads net lib allow_nan path body args kw
  | Put body => put loads net lib allow_nan path body args kw
  end.

(** Nothing of the client has changed between [w] and [w']: its fields
    are the same, every dictionary of [w] is still there with the same
    content, and so is the client's header mapping. *)
Definition client_preserved (w w' : world) : Prop :=
  w'.(self) = w.(self)
  /\ firstn (List.length w.(heap)) w'.(heap) = w.(heap)
  /\ stored_headers w' = stored_headers w.

(** An API answer that reports an error the way the comment in [_http]
    shows it. *)
Definition errors_response : Response :=
  response_of 403
    "{'errors': [{'status': '403', 'code': 'not_authenticated', 'title': 'Authentication credentials were not provided.'}]}".

(** The parsed body of [errors_response]. *)
Definition errors_body : json :=
  JDict [(py "errors",
          JList [JDict [(py "status", JStr (py "403"));
                        (py "code", JStr (py "not_authenticated"));
                        (py "title",
                         JStr (py "Authentication credentials were not provided."))]])].

(** A client built without credentials on the example base URL. *)
Definition anonymous_world : world := bare empty_world example_root.

(** The request [get("v3/users/")] makes from [anonymous_world]. *)
Definition example_get_request : Request :=
  mkRequest (py "get") (py "https://galaxy.example/v3/users/") (Some [])
    None None [].

(** A character with no meaning to the URL parser: not one of [":"],
    ["?"], ["#"], [";"], nor a tab or a line break. *)
Definition plain_char (c : codepoint) : bool :=
  negb (existsb (N.eqb c)
          [chr ":"; chr "?"; chr "#"; chr ";"; 9%N; 10%N; 13%N]).

(** Text made of plain characters. *)
Definition plain (s : str) : bool := forallb plain_char s.

(** The state the constructor is meant to leave after a token exchange
    that gave the token [abc]. *)
Definition authenticated_world : world :=
  mkWorld
    [[(py "Accept", py "application/json");
      (py "Authorization", py "Token abc")]]
    (mkClient (Some 0) example_root (JStr (py "abc")) None) [].

(** A client without credentials whose base URL has a path. *)
Definition prefixed_world : world :=
  bare empty_world (py "https://galaxy.example/api/galaxy/").

(** An answer with an empty JSON object. *)
Definition empty_object_response : Response := response_of 200 "{}".

(** The content type [_payload] announces. *)
Definition json_content_type : str := py "application/json;charset=utf-8".

(** A request that carries the payload [b] and whose header mapping
    announces it: a JSON content type, and the length of [b] under the
    key the source spells [Content-length]. *)
Definition announces (b : bytes) (r : Request) : Prop :=
  r.(req_data) = Some (PBytes b)
  /\ exists h,
       r.(req_headers) = Some h
       /\ dict_get (py "Content-Type") h = Some json_content_type
       /\ dict_get (py "Content-length") h
          = Some (str_of_Z (Z.of_nat (List.length b))).

(** The body of the example [post]: [{'name': 'admins'}]. *)
Definition example_body : list (str * json) :=
  [(py "name", JStr (py "admins"))].

(** The headers of [authenticated_world]. *)
Definition example_headers : dict str :=
  [(py "Accept", py "application/json");
   (py "Authorization", py "Token abc")].

(* ================================================================== *)
(** ** The container-image methods *)
(* ================================================================== *)

Section Images.

(** Modelled from the spec: the methods [pull_image], [tag_image] and
    [push_image] of the container session ([dockerutils.DockerClient]),
    whose module is not part of the sources at hand.  The spec treats
    the session as opaque: a method is named, gets its arguments, and
    answers or fails. *)
Variable session : str -> list (str * value) -> result value.

(** [self.docker_client.<method>(...)]: [None] has no attributes. *)
Definition docker_client_call (method : str) (arguments : list (str * value))
  : M value :=
  c <- get_self ;;
  match c.(docker_client) with
  | None => raise AttributeError
  | Some _ => lift (session method arguments)
  end.

(** [GalaxyClient.pull_image(self, image_name)]. *)
Definition pull_image (image_name : str) : M value :=
  docker_client_call (py "pull_image") [(py "image_name", VStr image_name)].

(** [GalaxyClient.tag_image(self, image_name, newtag, version="latest")]. *)
Definition tag_image (image_name newtag : str) (version : option str)
  : M value :=
  let version :=
    match version with
    | Some v => v
    | None => py "latest"
    end in
  docker_client_call (py "tag_image")
    [(py "image_name", VStr image_name); (py "newtag", VStr newtag);
     (py "version", VStr version)].

(** [GalaxyClient.push_image(self, image_tag)]. *)
Definition push_image (image_tag : str) : M value :=
  docker_client_call (py "push_image") [(py "image_tag", VStr image_tag)].

End Images.

(* ================================================================== *)
(** ** Several calls in a row *)
(* ================================================================== *)

(** One use of the client: a verb with its path and arguments. *)
Record invocation : Type := mkInvocation {
  inv_verb : verb;
  inv_path : str;
  inv_args : list value;
  inv_kw : kwargs
}.

(** The world after a caller has made the calls one after the other,
    going on after each of them whether it returned or raised. *)
Fixpoint run_all (loads : str -> option json)
    (net : Request -> result Response) (lib : urllib.Lib)
    (allow_nan : bool) (calls : list invocation) (w : world) : world :=
  match calls with
  | [] => w
  | i :: calls' =>
      run_all loads net lib allow_nan calls'
        (snd (run (call loads net lib allow_nan i.(inv_verb) i.(inv_path)
                     i.(inv_args) i.(inv_kw)) w))
  end.

(** A response with the same body and another status code. *)
Definition with_status (status : Z) (resp : Response) : Response :=
  mkResponse status resp.(content) resp.(text).

(** A path segment that the join keeps as it is: not empty, without a
    slash, and neither [.] nor [..]. *)
Definition clean_segment (seg : str) : bool :=
  match seg with [] => false | _ => true end
  && negb (contains_char (chr "/") seg)
  && negb (str_eqb seg (py "."))
  && negb (str_eqb seg (py "..")).

(** The request [get("v3/users/")] makes from [authenticated_world]. *)
Definition example_token_request : Request :=
  mkRequest (py "get") (py "https://galaxy.example/v3/users/")
    (Some example_headers) None None [].

(** A server that refuses every connection. *)
Definition refusing_server : Request -> result Response :=
  fun _ => Raise RequestException.

(** A JSON-like body that is neither a mapping nor text and has no
    length: [None], a [bool], an [int] or a [float]. *)
Definition unsized (j : json) : bool :=
  match j with
  | JNull | JBool _ | JInt _ | JFloat _ => true
  | _ => false
  end.

(** A code point that UTF-8 cannot encode: a surrogate. *)
Definition surrogate (c : codepoint) : bool :=
  ((55296 <=? c) && (c <=? 57343))%N.

(** A request that carries the list [l] itself as its data and
    announces the number of its elements as the length. *)
Definition announces_list (l : list json) (r : Request) : Prop :=
  r.(req_data) = Some (PJson (JList l))
  /\ exists h,
       r.(req_headers) = Some h
       /\ dict_get (py "Content-Type") h = Some json_content_type
       /\ dict_get (py "Content-length") h
          = Some (str_of_Z (Z.of_nat (List.length l))).

(** The headers a caller passes for one call. *)
Definition override_headers : dict str := [(py "X-Request-Id", py "7")].

(** [authenticated_world] with the caller's header mapping in the heap,
    at address 1. *)
Definition override_world : world :=
  mkWorld [example_headers; override_headers]
    (mkClient (Some 0) example_root (JStr (py "abc")) None) [].

(** The keyword arguments [headers=override_headers]. *)
Definition override_kwargs : kwargs := mkKwargs (Some (Some 1)) None [].

(** A caller's session: a [get], a [post] of a mapping, a [post] of
    [None] (which raises) and a [put] with headers of its own. *)
Definition example_calls : list invocation :=
  [mkInvocation Get (py "v3/users/") [] no_kwargs;
   mkInvocation (Post (PJson (JDict example_body))) (py "_ui/v1/groups/") []
     no_kwargs;
   mkInvocation (Post (PJson JNull)) (py "_ui/v1/groups/") [] no_kwargs;
   mkInvocation (Put (PJson (JDict example_body))) (py "_ui/v1/groups/1/")
     [] override_kwargs].

(** A container session that answers every method with [None]. *)
Definition idle_session (method : str) (arguments : list (str * value))
  : result value := Ok VNone.

(** A client without credentials and without a base URL. *)
Definition rootless_world : world := bare empty_world [].

(** Every [float] in [o] is a finite number. *)
Fixpoint finite_floats (o : json) : bool :=
  match o with
  | JFloat (FNan | FInf _) => false
  | JList l => forallb finite_floats l
  | JDict d => forallb (fun kv : str * json => finite_floats (snd kv)) d
  | _ => true
  end.

(** The characters of a JSON number. *)
Definition number_char (c : codepoint) : bool :=
  is_digit c
  || existsb (N.eqb c) [chr "-"; chr "+"; chr "."; chr "e"; chr "E"].

(** The characters a JSON text has outside its strings: whitespace, the
    characters of numbers, brackets, braces, commas, colons and the
    letters of [null], [true] and [false]. *)
Definition structural (c : codepoint) : bool :=
  is_ws c || number_char c || existsb (N.eqb c) (py "[]{},:nultrefas").

(** Whether a character that is not structural comes after the last
    double quote of [s]; [seen] says whether one came before [s]. *)
Fixpoint stray (seen : bool) (s : str) : bool :=
  match s with
  | [] => seen
  | c :: s' =>
      if (c =? dquote)%N then stray false s'
      else stray (seen || negb (structural c)) s'
  end.

(** The mapping [{'x': float('nan')}]. *)
Definition nan_body : list (str * json) := [(py "x", JFloat FNan)].

(** The mapping [{'name': 'admins', 'quota': 1.5}]. *)
Definition measured_body : list (str * json) :=
  [(py "name", JStr (py "admins"));
   (py "quota", JFloat (FFinite false 15 1))].

(* ================================================================== *)
(** ** Tactics *)
(* ================================================================== *)

(** Boolean comparisons on [N] in the hypotheses, as propositions. *)
Ltac bool_hyps :=
  repeat match goal with
  | H : (_ && _) = true |- _ => apply andb_true_iff in H as [? ?]
  | H : (_ =? _)%N = true |- _ => apply N.eqb_eq in H
  | H : (_ =? _)%N = false |- _ => apply N.eqb_neq in H
  | H : (_ <=? _)%N = true |- _ => apply N.leb_le in H
  | H : (_ <=? _)%N = false |- _ => apply N.leb_gt in H
  | H : (_ <? _)%N = true |- _ => apply N.ltb_lt in H
  | H : (_ <? _)%N = false |- _ => apply N.ltb_ge in H
  end.

(** The same for a boolean goal. *)
Ltac bool_goal :=
  rewrite ?orb_true_iff, ?andb_true_iff, ?N.leb_le, ?N.ltb_lt, ?N.eqb_eq.

(* ================================================================== *)
(** * Properties *)
(* ================================================================== *)

Local Open Scope monad_scope.

(** ** The membership test on a response *)

Lemma existsb_str_eq_bytes (s : str) (l : list bytes) :
  existsb (str_eq_bytes s) l = false.
Proof.
  induction l as [|b l IH]; simpl; auto.
Qed.

Lemma Response_contains_false (s : str) (resp : Response) :
  Response_contains s resp = false.
Proof.
  unfold Response_contains. apply existsb_str_eq_bytes.
Qed.

(** ** What a run of [_http] does *)

Lemma log_nil (w : world) : log w [] = w.
Proof.
  destruct w as [h c t]. unfold log; simpl. now rewrite app_nil_r.
Qed.

Lemma _http_run loads net lib (method path : str) (args : list value)
    (kw : kwargs) (w : world) :
  run (_http loads net lib method path args kw) w =
  match urllib.urljoin lib w.(self).(galaxy_root) path with
  | Raise e => (Raise e, w)
  | Ok url =>
      match args with
      | _ :: _ => (Raise TypeError, w)
      | [] =>
          let req := http_request w method url kw in
          match net req with
          | Raise e => (Raise e, log w [Http req])
          | Ok resp =>
              match loads resp.(text) with
              | Some j => (Ok j, log w [Http req])
              | None =>
                  (Raise parse_failure,
                   log w [Http req; Stdout resp.(text)])
              end
          end
      end
  end.
Proof.
  destruct w as [h c t].
  unfold run, _http, bind, get_self, lift; simpl.
  destruct (urllib.urljoin lib (galaxy_root c) path) as [url|e]; [|reflexivity].
  destruct args as [|a args]; [|reflexivity].
  unfold requests_request, http_request, http_headers, log; simpl.
  destruct (match kw_headers kw with Some h0 => h0 | None => headers c end)
    as [l|]; unfold bind, read_dict, ret, emit, lift, try_except; simpl.
  - destruct (net _) as [resp|e]; [|reflexivity].
    unfold Response_json. destruct (loads (text resp)) as [j|]; simpl.
    + now rewrite Response_contains_false.
    + unfold parse_failure. now rewrite <- app_assoc.
  - destruct (net _) as [resp|e]; [|reflexivity].
    unfold Response_json. destruct (loads (text resp)) as [j|]; simpl.
    + now rewrite Response_contains_false.
    + unfold parse_failure. now rewrite <- app_assoc.
Qed.

(** ** What a run of [_payload] does *)

Lemma _payload_run loads net lib allow_nan (method path : str)
    (body : payload) (args : list value) (kw : kwargs) (w : world) :
  run (_payload loads net lib allow_nan method path body args kw) w =
  match encoded_body allow_nan body with
  | Raise e => (Raise e, w)
  | Ok body' =>
      match base_headers w kw with
      | Raise e => (Raise e, w)
      | Ok base =>
          match body_len body' with
          | Raise e => (Raise e, w)
          | Ok n =>
              run (_http loads net lib method path args
                     (payload_kwargs w body' kw))
                (with_dict w (payload_headers base n))
          end
      end
  end.
Proof.
  destruct w as [h c t].
  unfold _payload, encoded_body, base_headers, body_len.
  assert (tail : forall body' : payload,
    (c0 <- get_self;;
     base <- match kw_headers kw with
             | Some (Some l) => read_dict l
             | Some None => raise TypeError
             | None => match headers c0 with
                       | Some l => read_dict l
                       | None => raise TypeError
                       end
             end;;
     n <- len body';;
     headers <- alloc_dict
                  (dict_update base
                     [(py "Content-Type", py "application/json;charset=utf-8");
                      (py "Content-length", str_of_Z (Z.of_nat n))]);;
     _http loads net lib method path args
       (mkKwargs (Some (Some headers)) (Some body') (kw_rest kw)))
      (mkWorld h c t) =
    match
      match kw_headers kw with
      | Some (Some l) => Ok (deref h l)
      | Some None => Raise TypeError
      | None => match headers c with
                | Some l => Ok (deref h l)
                | None => Raise TypeError
                end
      end
    with
    | Raise e => (Raise e, mkWorld h c t)
    | Ok base =>
        match body_len body' with
        | Raise e => (Raise e, mkWorld h c t)
        | Ok n =>
            run (_http loads net lib method path args
                   (payload_kwargs (mkWorld h c t) body' kw))
              (with_dict (mkWorld h c t) (payload_headers base n))
        end
    end).
  { intros body'. unfold bind at 1. unfold get_self. cbv beta iota.
    unfold bind at 1.
    destruct (kw_headers kw) as [[l0|]|]; cbn [headers self heap];
      [ unfold read_dict; cbn [heap]
      | reflexivity
      | destruct (headers c) as [l1|];
        [ unfold read_dict; cbn [heap] | reflexivity ] ];
      (unfold bind at 1; unfold len, body_len;
       destruct body' as [[| bo | z | f | s | l | d]|b]; try reflexivity). }
  destruct body as [[| bo | z | f | s | l | d]|b];
    try (unfold run, bind at 1, ret; cbv beta iota;
         unfold bind at 1, ret; cbv beta iota; apply tail).
  - unfold run, bind at 1, ret; cbv beta iota. unfold bind at 1.
    destruct (encode_utf8 s) as [b|]; [|reflexivity].
    unfold ret; cbv beta iota. apply tail.
  - unfold run. unfold bind at 1. unfold bind at 1. unfold lift.
    destruct (dumps allow_nan (JDict d)) as [s|e]; [|reflexivity].
    unfold ret; cbv beta iota. unfold bind at 1.
    destruct (encode_utf8 s) as [b|]; [|reflexivity].
    unfold ret; cbv beta iota. apply tail.
Qed.

(** ** Events *)

Lemma events_since_log (w : world) (evs : list event) :
  events_since w (log w evs) = evs.
Proof.
  unfold events_since, log; simpl.
  rewrite skipn_app, skipn_all, Nat.sub_diag. reflexivity.
Qed.

Lemma events_since_same (w w' : world) :
  trace w' = trace w -> events_since w w' = [].
Proof.
  unfold events_since. intros ->. apply skipn_all.
Qed.

Lemma events_since_with_dict (w : world) (d : dict str) (w' : world) :
  events_since (with_dict w d) w' = events_since w w'.
Proof. reflexivity. Qed.

(** ** The constructor *)

Lemma construct_with_credentials_run loads net lib cstr (root u p : str)
    (engine registry : option str) (w : world) :
  run (construct loads net lib cstr root (Some (u, p)) engine registry) w
  = (Raise (NameError (py "user")), bare w root).
Proof. destruct w as [h c t]. reflexivity. Qed.

Lemma construct_without_credentials_run loads net lib cstr (root : str)
    (engine registry : option str) (w : world) :
  run (construct loads net lib cstr root None engine registry) w
  = (Ok tt, bare w root).
Proof. destruct w as [h c t]. reflexivity. Qed.

Lemma stored_headers_bare (w : world) (root : str) :
  stored_headers (bare w root) = Some [].
Proof.
  unfold stored_headers, bare, deref; simpl.
  rewrite app_nth2, Nat.sub_diag; auto.
Qed.

Lemma events_since_bare (w : world) (root : str) :
  events_since w (bare w root) = [].
Proof. apply events_since_same. reflexivity. Qed.

(** C1 (defect of the code).  Whatever the credentials and whatever the
    token endpoint would answer, the constructor stops with [NameError]
    on the unbound name [user] before it makes any request: no POST to
    [v3/auth/token/] goes out and the header mapping gets no
    [Authorization] entry. *)
Theorem construct_with_credentials_raises_NameError
    loads net lib cstr (root u p : str) (engine registry : option str)
    (w : world) :
  let m := construct loads net lib cstr root (Some (u, p)) engine registry in
  fst (run m w) = Raise (NameError (py "user"))
  /\ sent_by m w = []
  /\ option_map (header_get (py "Authorization"))
       (stored_headers (snd (run m w))) = Some None.
Proof.
  cbv zeta. unfold sent_by, events_of.
  rewrite construct_with_credentials_run. cbn [fst snd].
  rewrite events_since_bare, stored_headers_bare. auto.
Qed.

(** C1 at a concrete exchange: credentials [("u", "p")] and a token
    endpoint that would answer with a token. *)
Example construct_token_exchange_example :
  loads_sample (text token_response)
  = Some (JDict [(py "token", JStr (py "abc"))])
  /\ run (construct loads_sample (constant_server token_response)
            lib_ascii no_container_str example_root
            (Some (py "u", py "p")) None None) empty_world
     = (Raise (NameError (py "user")),
        mkWorld [[]] (mkClient (Some 0) example_root (JStr []) None) []).
Proof. split; reflexivity. Qed.

(** C6 (defect of the code).  With credentials and a token endpoint
    whose answer is not JSON, construction does raise: it stops with
    [NameError] before the exchange, nothing is reported on standard
    error, and no client is returned. *)
Theorem construct_non_json_token_response_raises :
  let m := construct loads_sample (constant_server html_response)
             lib_ascii no_container_str example_root
             (Some (py "u", py "p")) None None in
  loads_sample (text html_response) = None
  /\ fst (run m empty_world) = Raise (NameError (py "user"))
  /\ events_of m empty_world = [].
Proof. cbv zeta. repeat split; reflexivity. Qed.

(** C10 (defect of the code).  With credentials, whatever the token
    endpoint answers (valid JSON or not), the half-built client is left
    with an empty header mapping: there is no [Authorization] header,
    not even one with an empty token. *)
Theorem construct_with_credentials_leaves_headers_empty
    loads net lib cstr (root u p : str) (engine registry : option str)
    (w : world) :
  let m := construct loads net lib cstr root (Some (u, p)) engine registry in
  stored_headers (snd (run m w)) = Some []
  /\ option_map (header_get (py "Authorization"))
       (stored_headers (snd (run m w))) <> Some (Some (py "Token ")).
Proof.
  cbv zeta. rewrite construct_with_credentials_run. cbn [snd].
  rewrite stored_headers_bare. split; [reflexivity|discriminate].
Qed.

(** C7 (defect of the code).  With credentials and a container-engine
    option, and no registry given, the constructor does not get to the
    container engine: it stops with [NameError] on the unbound name
    [user], as for C1, so no registry host is derived, no session is
    opened and [docker_client] stays [None].  The lines it does not
    reach would not do it either: the registry host is computed by
    adding the text [":5001"] to the list [netloc.split(":")], which is
    a [TypeError] for every network location. *)
Theorem container_engine_with_credentials_opens_no_session
    loads net lib cstr (root u p engine : str) (w : world) :
  let m :=
    construct loads net lib cstr root (Some (u, p)) (Some engine) None in
  fst (run m w) = Raise (NameError (py "user"))
  /\ sessions_of (events_of m w) = []
  /\ docker_client (self (snd (run m w))) = None
  /\ ~ default_session_opened lib root engine w (snd (run m w))
  /\ forall netloc : str,
       py_add (VList (split (chr ":") netloc)) (VStr (py ":5001"))
       = Raise TypeError.
Proof.
  cbv zeta. unfold events_of.
  rewrite construct_with_credentials_run. cbn [fst snd].
  rewrite events_since_bare. repeat split.
  intros (credentials & q & _ & Hin & _).
  rewrite events_since_bare in Hin. exact Hin.
Qed.

(** C7 at a concrete construction: credentials [("u", "p")], the engine
    [podman], and a token endpoint that would answer with a token. *)
Example container_engine_example :
  run (construct loads_sample (constant_server token_response)
         lib_ascii no_container_str example_root
         (Some (py "u", py "p")) (Some (py "podman")) None) empty_world
  = (Raise (NameError (py "user")),
     mkWorld [[]] (mkClient (Some 0) example_root (JStr []) None) []).
Proof. reflexivity. Qed.

(** X16 at a concrete construction: a container-engine option without
    credentials opens no session. *)
Lemma container_engine_without_credentials_opens_no_session :
  ~ default_session_opened lib_ascii example_root (py "podman")
      empty_world
      (snd (run (construct loads_sample (constant_server token_response)
                   lib_ascii no_container_str example_root None
                   (Some (py "podman")) None) empty_world)).
Proof.
  intros (credentials & p & _ & Hin & _).
  vm_compute in Hin. exact Hin.
Qed.

(** X16.  The container-engine branch lies under the test for
    credentials: for every construction without credentials, whatever
    container-engine option and registry are given, construction
    succeeds, no container session is opened and [docker_client] stays
    [None]. *)
Theorem construct_without_credentials_opens_no_session
    loads net lib cstr (root : str) (engine registry : option str)
    (w : world) :
  let m := construct loads net lib cstr root None engine registry in
  fst (run m w) = Ok tt
  /\ sessions_of (events_of m w) = []
  /\ docker_client (self (snd (run m w))) = None.
Proof.
  cbv zeta. unfold events_of.
  rewrite construct_without_credentials_run. cbn [fst snd].
  rewrite events_since_bare. auto.
Qed.

(** ** The requests a call sends *)

Lemma _http_events loads net lib (method path : str) (args : list value)
    (kw : kwargs) (w : world) :
  events_of (_http loads net lib method path args kw) w =
  match urllib.urljoin lib w.(self).(galaxy_root) path with
  | Raise e => []
  | Ok url =>
      match args with
      | _ :: _ => []
      | [] =>
          let req := http_request w method url kw in
          match net req with
          | Raise e => [Http req]
          | Ok resp =>
              match loads resp.(text) with
              | Some j => [Http req]
              | None => [Http req; Stdout resp.(text)]
              end
          end
      end
  end.
Proof.
  unfold events_of. rewrite _http_run.
  destruct (urllib.urljoin lib _ path) as [url|e]; cbn [snd];
    [|now apply events_since_same].
  destruct args as [|a args]; cbn [snd]; [|now apply events_since_same].
  cbv zeta. destruct (net _) as [resp|e]; cbn [snd];
    [|apply events_since_log].
  destruct (loads (text resp)); cbn [snd]; apply events_since_log.
Qed.

Lemma _http_sent loads net lib (method path : str) (args : list value)
    (kw : kwargs) (w : world) :
  sent_by (_http loads net lib method path args kw) w =
  match urllib.urljoin lib w.(self).(galaxy_root) path, args with
  | Ok url, [] => [http_request w method url kw]
  | _, _ => []
  end.
Proof.
  unfold sent_by. rewrite _http_events.
  destruct (urllib.urljoin lib _ path) as [url|e]; [|reflexivity].
  destruct args as [|a args]; [|reflexivity].
  cbv zeta. destruct (net _) as [resp|e]; [|reflexivity].
  destruct (loads (text resp)); reflexivity.
Qed.

Lemma deref_with_dict (w : world) (d : dict str) :
  deref (heap (with_dict w d)) (List.length (heap w)) = d.
Proof.
  unfold with_dict, deref; simpl.
  rewrite app_nth2, Nat.sub_diag; auto.
Qed.

Lemma http_request_payload (w : world) (d : dict str) (method url : str)
    (body : payload) (kw : kwargs) :
  http_request (with_dict w d) method url (payload_kwargs w body kw)
  = mkRequest method url (Some d) (Some body) None kw.(kw_rest).
Proof.
  unfold http_request, http_headers, payload_kwargs.
  cbn [kw_headers kw_data kw_rest option_map].
  now rewrite deref_with_dict.
Qed.

Lemma _payload_events loads net lib allow_nan (method path : str)
    (body : payload) (args : list value) (kw : kwargs) (w : world) :
  events_of (_payload loads net lib allow_nan method path body args kw) w =
  match encoded_body allow_nan body with
  | Raise e => []
  | Ok body' =>
      match base_headers w kw with
      | Raise e => []
      | Ok base =>
          match body_len body' with
          | Raise e => []
          | Ok n =>
              events_of (_http loads net lib method path args
                           (payload_kwargs w body' kw))
                (with_dict w (payload_headers base n))
          end
      end
  end.
Proof.
  unfold events_of at 1. rewrite _payload_run.
  destruct (encoded_body allow_nan body) as [body'|e]; cbn [snd];
    [|now apply events_since_same].
  destruct (base_headers w kw) as [base|e]; cbn [snd];
    [|now apply events_since_same].
  destruct (body_len body') as [n|e]; cbn [snd];
    [|now apply events_since_same].
  reflexivity.
Qed.

Lemma _payload_sent loads net lib allow_nan (method path : str)
    (body : payload) (args : list value) (kw : kwargs) (w : world) :
  sent_by (_payload loads net lib allow_nan method path body args kw) w =
  match encoded_body allow_nan body, base_headers w kw with
  | Ok body', Ok base =>
      match body_len body',
            urllib.urljoin lib w.(self).(galaxy_root) path, args with
      | Ok n, Ok url, [] =>
          [mkRequest method url (Some (payload_headers base n)) (Some body')
             None kw.(kw_rest)]
      | _, _, _ => []
      end
  | _, _ => []
  end.
Proof.
  unfold sent_by. rewrite _payload_events.
  destruct (encoded_body allow_nan body) as [body'|e]; [|reflexivity].
  destruct (base_headers w kw) as [base|e]; [|reflexivity].
  destruct (body_len body') as [n|e]; [|reflexivity].
  fold (sent_by (_http loads net lib method path args
                   (payload_kwargs w body' kw))
          (with_dict w (payload_headers base n))).
  rewrite _http_sent. cbn [with_dict self].
  destruct (urllib.urljoin lib _ path) as [url|e]; [|reflexivity].
  destruct args as [|a args]; [|reflexivity].
  now rewrite http_request_payload.
Qed.

(** ** A client without credentials *)

Lemma base_headers_bare (w : world) (root : str) data rest :
  base_headers (bare w root) (mkKwargs None data rest) = Ok [].
Proof.
  unfold base_headers, bare, deref; simpl.
  rewrite app_nth2, Nat.sub_diag; auto.
Qed.

Lemma http_headers_bare (w : world) (root : str) data rest :
  http_headers (bare w root) (mkKwargs None data rest) = Some [].
Proof.
  unfold http_headers, bare, deref; simpl.
  rewrite app_nth2, Nat.sub_diag; auto.
Qed.

Lemma payload_headers_no_credentials (n : nat) :
  header_get (py "Accept") (payload_headers [] n) = None
  /\ header_get (py "Authorization") (payload_headers [] n) = None.
Proof. split; reflexivity. Qed.

(** C9.  Without credentials the constructor makes no request at all and
    leaves the header mapping empty; a following [get], [post] or [put]
    that does not override the headers sends neither an [Accept] nor an
    [Authorization] header. *)
Theorem construct_without_credentials_sends_none
    loads net lib allow_nan cstr (root : str) (engine registry : option str)
    (w : world) (path : str) (body : payload) (args : list value)
    (data : option payload) (rest : dict value) :
  let m := construct loads net lib cstr root None engine registry in
  let w1 := snd (run m w) in
  let kw := mkKwargs None data rest in
  fst (run m w) = Ok tt
  /\ events_of m w = []
  /\ stored_headers w1 = Some []
  /\ Forall no_credentials (sent_by (get loads net lib path args kw) w1)
  /\ Forall no_credentials
       (sent_by (post loads net lib allow_nan path body args kw) w1)
  /\ Forall no_credentials
       (sent_by (put loads net lib allow_nan path body args kw) w1).
Proof.
  cbv zeta. unfold events_of at 1, get, post, put.
  rewrite construct_without_credentials_run. cbn [fst snd].
  rewrite events_since_bare, stored_headers_bare.
  repeat split.
  - rewrite _http_sent.
    destruct (urllib.urljoin lib _ path) as [url|e]; [|constructor].
    destruct args; constructor; [|constructor].
    unfold no_credentials, request_header, http_request.
    cbn [req_headers]. rewrite http_headers_bare. split; reflexivity.
  - rewrite _payload_sent, base_headers_bare.
    destruct (encoded_body allow_nan body) as [b|]; [|constructor].
    destruct (body_len b) as [n|]; [|constructor].
    destruct (urllib.urljoin lib _ path) as [url|e]; [|constructor].
    destruct args; constructor; [|constructor].
    apply payload_headers_no_credentials.
  - rewrite _payload_sent, base_headers_bare.
    destruct (encoded_body allow_nan body) as [b|]; [|constructor].
    destruct (body_len b) as [n|]; [|constructor].
    destruct (urllib.urljoin lib _ path) as [url|e]; [|constructor].
    destruct args; constructor; [|constructor].
    apply payload_headers_no_credentials.
Qed.

(** ** The outcome of a call, from the response it gets *)

Lemma _http_outcome loads net lib (method path : str) (args : list value)
    (kw : kwargs) (w : world) (req : Request) (resp : Response) :
  let m := _http loads net lib method path args kw in
  In req (sent_by m w) -> net req = Ok resp ->
  match loads resp.(text) with
  | Some j => fst (run m w) = Ok j /\ events_of m w = [Http req]
  | None =>
      fst (run m w) = Raise parse_failure
      /\ events_of m w = [Http req; Stdout resp.(text)]
  end.
Proof.
  cbv zeta. rewrite _http_sent, _http_events, _http_run.
  destruct (urllib.urljoin lib _ path) as [url|e]; [|intros []].
  destruct args as [|a args]; [|intros []].
  intros [<-|[]] Hnet. cbv zeta. rewrite Hnet.
  destruct (loads (text resp)); auto.
Qed.

Lemma _payload_outcome loads net lib allow_nan (method path : str)
    (body : payload) (args : list value) (kw : kwargs) (w : world)
    (req : Request) (resp : Response) :
  let m := _payload loads net lib allow_nan method path body args kw in
  In req (sent_by m w) -> net req = Ok resp ->
  match loads resp.(text) with
  | Some j => fst (run m w) = Ok j /\ events_of m w = [Http req]
  | None =>
      fst (run m w) = Raise parse_failure
      /\ events_of m w = [Http req; Stdout resp.(text)]
  end.
Proof.
  cbv zeta. unfold sent_by. rewrite _payload_events, _payload_run.
  destruct (encoded_body allow_nan body) as [body'|e]; [|intros []].
  destruct (base_headers w kw) as [base|e]; [|intros []].
  destruct (body_len body') as [n|e]; [|intros []].
  apply _http_outcome.
Qed.

Lemma call_outcome loads net lib allow_nan (v : verb) (path : str)
    (args : list value) (kw : kwargs) (w : world) (req : Request)
    (resp : Response) :
  let m := call loads net lib allow_nan v path args kw in
  In req (sent_by m w) -> net req = Ok resp ->
  match loads resp.(text) with
  | Some j => fst (run m w) = Ok j /\ events_of m w = [Http req]
  | None =>
      fst (run m w) = Raise parse_failure
      /\ events_of m w = [Http req; Stdout resp.(text)]
  end.
Proof.
  destruct v as [|body|body]; unfold call, get, post, put.
  - exact (@_http_outcome loads net lib (py "get") path args kw w req resp).
  - exact (@_payload_outcome loads net lib allow_nan (py "post") path body
             args kw w
             req resp).
  - exact (@_payload_outcome loads net lib allow_nan (py "put") path body
             args kw w
             req resp).
Qed.



(** C2 (defect of the code).  An answer that is valid JSON and holds an
    [errors] list is returned to the caller like any other body: the
    test ["errors" in resp] looks at the response object, not at the
    parsed body, and never holds, so no failure with the error's title
    is raised. *)
Theorem reported_errors_are_returned (allow_nan : bool) :
  let run_verb v :=
    fst (run (call loads_sample (constant_server errors_response)
                lib_ascii allow_nan v (py "v3/users/") [] no_kwargs)
           anonymous_world) in
  loads_sample (text errors_response) = Some errors_body
  /\ run_verb Get = Ok errors_body
  /\ run_verb (Post (PJson (JDict []))) = Ok errors_body
  /\ run_verb (Put (PJson (JDict []))) = Ok errors_body.
Proof.
  cbv zeta. destruct allow_nan; repeat split; vm_compute; reflexivity.
Qed.

(** ** The client is not modified by its verbs *)

Lemma _http_world loads net lib (method path : str) (args : list value)
    (kw : kwargs) (w : world) :
  let m := _http loads net lib method path args kw in
  snd (run m w) = log w (events_of m w).
Proof.
  cbv zeta. rewrite _http_events, _http_run.
  destruct (urllib.urljoin lib _ path) as [url|e]; cbn [snd];
    [|now rewrite log_nil].
  destruct args as [|a args]; cbn [snd]; [|now rewrite log_nil].
  cbv zeta. destruct (net _) as [resp|e]; cbn [snd]; [|reflexivity].
  destruct (loads (text resp)); reflexivity.
Qed.

Lemma client_preserved_log (w : world) (evs : list event) :
  client_preserved w (log w evs).
Proof.
  unfold client_preserved, log, stored_headers; cbn [self heap].
  rewrite firstn_all. auto.
Qed.

Lemma client_preserved_with_dict (w : world) (d : dict str)
    (evs : list event) :
  wf w -> client_preserved w (log (with_dict w d) evs).
Proof.
  unfold wf, client_preserved, log, with_dict, stored_headers;
    cbn [self heap].
  intros Hwf. repeat split.
  - rewrite firstn_app, firstn_all, Nat.sub_diag. cbn [firstn].
    apply app_nil_r.
  - destruct (headers (self w)) as [l|]; [|reflexivity].
    cbn [option_map]. unfold deref. now rewrite app_nth1.
Qed.

Lemma _http_preserved loads net lib (method path : str)
    (args : list value) (kw : kwargs) (w : world) :
  client_preserved w (snd (run (_http loads net lib method path args kw) w)).
Proof.
  pose proof (_http_world loads net lib method path args kw w) as H.
  cbv zeta in H. rewrite H. apply client_preserved_log.
Qed.

Lemma _payload_preserved loads net lib allow_nan (method path : str)
    (body : payload) (args : list value) (kw : kwargs) (w : world) :
  wf w ->
  client_preserved w
    (snd (run (_payload loads net lib allow_nan method path body args kw) w)).
Proof.
  intros Hwf. rewrite _payload_run.
  pose proof (client_preserved_log w []) as Hsame. rewrite log_nil in Hsame.
  destruct (encoded_body allow_nan body) as [body'|e]; [|exact Hsame].
  destruct (base_headers w kw) as [base|e]; [|exact Hsame].
  destruct (body_len body') as [n|e]; [|exact Hsame].
  pose proof (_http_world loads net lib method path args
                (payload_kwargs w body' kw)
                (with_dict w (payload_headers base n))) as H.
  cbv zeta in H. rewrite H. now apply client_preserved_with_dict.
Qed.

(** C8.  No [get], [post] or [put] modifies the client: its fields and
    its header mapping are the same after the call, and every
    dictionary that existed before the call (the stored headers, a
    caller's override) keeps its content; the mapping with
    [Content-Type] and [Content-length] is a new object. *)
Theorem verbs_preserve_client loads net lib allow_nan (v : verb) (path : str)
    (args : list value) (kw : kwargs) (w : world) :
  wf w ->
  client_preserved w
    (snd (run (call loads net lib allow_nan v path args kw) w)).
Proof.
  intros Hwf. destruct v as [|body|body]; unfold call, get, post, put.
  - apply _http_preserved.
  - now apply _payload_preserved.
  - now apply _payload_preserved.
Qed.

(** Every client that the constructor leaves, with or without
    credentials, has its header mapping in the heap. *)
Lemma construct_wf loads net lib cstr (root : str)
    (auth : option (str * str)) (engine registry : option str) (w : world) :
  wf (snd (run (construct loads net lib cstr root auth engine registry) w)).
Proof.
  destruct auth as [[u p]|].
  - rewrite construct_with_credentials_run. unfold wf, bare; cbn.
    rewrite length_app; cbn. lia.
  - rewrite construct_without_credentials_run. unfold wf, bare; cbn.
    rewrite length_app; cbn. lia.
Qed.

(** C8 at a concrete call: a [post] of a dictionary on a client that
    holds an [Authorization] header. *)
Lemma verbs_preserve_client_witness :
  client_preserved authenticated_world
    (snd (run (call loads_sample (constant_server empty_object_response)
                 lib_ascii false
                 (Post (PJson (JDict [(py "name", JStr (py "admins"))])))
                 (py "_ui/v1/groups/") [] no_kwargs)
            authenticated_world)).
Proof.
  apply verbs_preserve_client. unfold wf. cbn. lia.
Defined.

(** ** Where [get] sends its request *)

Lemma str_eqb_refl (s : str) : str_eqb s s = true.
Proof.
  induction s as [|c s IH]; simpl; auto.
  now rewrite N.eqb_refl.
Qed.

Lemma resolve_path_absolute (bpath rest : str) :
  urllib.resolve_path bpath (chr "/" :: rest)
  = urllib.resolve_path [] (chr "/" :: rest).
Proof. reflexivity. Qed.

Lemma urlparse_empty lib (default_scheme : str) (u : urllib.ParseResult) :
  urllib.urlparse lib [] default_scheme = Ok u -> urllib.path u = [].
Proof.
  unfold urllib.urlparse, urllib.urlsplit. cbn.
  rewrite andb_false_r. intros H. injection H as <-. reflexivity.
Qed.

Lemma urljoin_absolute_path lib (base ref : str)
    (b u : urllib.ParseResult) (rest : str) :
  base <> [] ->
  urllib.urlparse lib base [] = Ok b ->
  urllib.urlparse lib ref (urllib.scheme b) = Ok u ->
  urllib.scheme u = urllib.scheme b ->
  urllib.mem (urllib.scheme b) urllib.uses_relative = true ->
  urllib.netloc u = [] ->
  urllib.path u = chr "/" :: rest ->
  urllib.urljoin lib base ref
  = Ok (urllib.urlunparse
          (urllib.mkParseResult (urllib.scheme b)
             (if urllib.mem (urllib.scheme b) urllib.uses_netloc
              then urllib.netloc b else [])
             (urllib.resolve_path [] (chr "/" :: rest))
             (urllib.params u) (urllib.query u) (urllib.fragment u))).
Proof.
  intros Hbase Hb Hu Hscheme Hrel Hnetloc Hpath.
  destruct base as [|c0 base']; [congruence|].
  destruct ref as [|r0 ref'].
  - apply urlparse_empty in Hu. congruence.
  - unfold urllib.urljoin. rewrite Hb, Hu, Hscheme, str_eqb_refl, Hrel.
    cbn [negb orb]. rewrite Hnetloc, andb_false_r, Hpath.
    rewrite resolve_path_absolute.
    destruct (urllib.mem (urllib.scheme b) urllib.uses_netloc); reflexivity.
Qed.

(** ** Parsing a plain absolute path *)

Lemma contains_char_forallb (p : codepoint -> bool) (c : codepoint) (s : str) :
  forallb p s = true -> p c = false -> contains_char c s = false.
Proof.
  intros Hall Hc. induction s as [|x s IH]; simpl in *; auto.
  apply andb_true_iff in Hall as [Hx Hs].
  rewrite (IH Hs), orb_false_r.
  destruct (N.eqb_spec c x) as [->|]; congruence.
Qed.

Lemma remove_char_absent (c : codepoint) (s : str) :
  contains_char c s = false -> remove_char c s = s.
Proof.
  induction s as [|x s IH]; simpl; auto.
  intros H. apply orb_false_iff in H as [Hx Hs].
  rewrite N.eqb_sym, Hx. simpl. now rewrite (IH Hs).
Qed.

Lemma index_of_absent (c : codepoint) (s : str) :
  contains_char c s = false -> index_of c s = None.
Proof.
  induction s as [|x s IH]; simpl; auto.
  intros H. apply orb_false_iff in H as [Hx Hs].
  rewrite N.eqb_sym, Hx. now rewrite (IH Hs).
Qed.

Lemma find_absent (c : codepoint) (s : str) :
  contains_char c s = false -> find c s 0 = None.
Proof.
  intros H. unfold find. cbn [skipn]. now rewrite index_of_absent.
Qed.

Lemma strip_plain (s : str) :
  plain s = true ->
  remove_char 10%N (remove_char 13%N (remove_char 9%N s)) = s.
Proof.
  intros H.
  rewrite (@remove_char_absent 9%N s), (@remove_char_absent 13%N s),
          (@remove_char_absent 10%N s); auto;
    apply (contains_char_forallb plain_char); auto.
Qed.

Lemma scheme_char_visible (c : codepoint) :
  urllib.scheme_char c = true -> (c <=? 32)%N = false.
Proof.
  unfold urllib.scheme_char, chr. cbn [N_of_ascii]. intros H.
  apply N.leb_gt.
  repeat (apply orb_true_iff in H as [H|H]); bool_hyps; subst;
    try lia; reflexivity.
Qed.

Lemma lstrip_scheme (s : str) :
  forallb urllib.scheme_char s = true -> lstrip_c0 s = s.
Proof.
  destruct s as [|c s]; [reflexivity|]. cbn [forallb lstrip_c0].
  intros H. apply andb_true_iff in H as [Hc _].
  now rewrite (scheme_char_visible _ Hc).
Qed.

Lemma forallb_rev (A : Type) (p : A -> bool) (l : list A) :
  forallb p l = true -> forallb p (rev l) = true.
Proof.
  rewrite !forallb_forall. intros H x Hin. apply H. now apply in_rev.
Qed.

Lemma strip_scheme (s : str) :
  forallb urllib.scheme_char s = true ->
  remove_char 10%N (remove_char 13%N (remove_char 9%N (strip_c0 s))) = s.
Proof.
  intros H. unfold strip_c0.
  rewrite (lstrip_scheme _ H), (lstrip_scheme _ (forallb_rev _ _ H)),
          rev_involutive.
  rewrite (@remove_char_absent 9%N s), (@remove_char_absent 13%N s),
          (@remove_char_absent 10%N s); auto;
    apply (contains_char_forallb urllib.scheme_char); auto.
Qed.

Lemma urlparse_plain_absolute lib (rest sch : str) :
  plain (chr "/" :: rest) = true ->
  startswith (py "/") rest = false ->
  forallb urllib.scheme_char sch = true ->
  urllib.urlparse lib (chr "/" :: rest) sch
  = Ok (urllib.mkParseResult sch [] (chr "/" :: rest) [] [] []).
Proof.
  intros Hplain Hslash Hsch.
  assert (Hc : forall c, plain_char c = false ->
                         contains_char c (chr "/" :: rest) = false).
  { intros c Hcp. now apply (contains_char_forallb plain_char). }
  unfold urllib.urlparse, urllib.urlsplit.
  change (lstrip_c0 (chr "/" :: rest)) with (chr "/" :: rest).
  cbv zeta.
  rewrite (strip_plain _ Hplain), (strip_scheme _ Hsch).
  rewrite find_absent by now apply Hc.
  assert (Hnn : str_eqb (firstn 2 (chr "/" :: rest)) (py "//") = false).
  { destruct rest as [|r1 rest']; [reflexivity|].
    cbn in Hslash |- *. rewrite andb_true_r in *.
    now rewrite N.eqb_sym. }
  rewrite Hnn. cbv beta iota zeta.
  change (contains_char (chr "[") []) with false.
  change (contains_char (chr "]") []) with false.
  cbn [andb orb negb].
  rewrite (Hc (chr "#")) by reflexivity.
  rewrite (Hc (chr "?")) by reflexivity.
  change (urllib._checknetloc lib []) with true.
  cbv beta iota zeta. cbn [urllib.scheme urllib.path].
  rewrite (Hc (chr ";")) by reflexivity.
  now rewrite andb_false_r.
Qed.

Lemma lower_char_scheme (c : codepoint) :
  urllib.scheme_char c = true -> urllib.scheme_char (lower_char c) = true.
Proof.
  unfold lower_char.
  destruct ((65 <=? c)%N && (c <=? 90)%N) eqn:E; [|auto].
  intros _. apply andb_true_iff in E as [E1 E2].
  apply N.leb_le in E1, E2. unfold urllib.scheme_char.
  assert (H1 : (97 <=? c + 32)%N = true) by (apply N.leb_le; lia).
  assert (H2 : (c + 32 <=? 122)%N = true) by (apply N.leb_le; lia).
  now rewrite H1, H2.
Qed.

Lemma lower_scheme (s : str) :
  forallb urllib.scheme_char s = true ->
  forallb urllib.scheme_char (lower s) = true.
Proof.
  induction s as [|c s IH]; simpl; auto.
  intros H. apply andb_true_iff in H as [Hc Hs].
  now rewrite lower_char_scheme, IH.
Qed.

Lemma urlsplit_scheme lib (url : str) (r : urllib.ParseResult) :
  urllib.urlsplit lib url [] = Ok r ->
  forallb urllib.scheme_char (urllib.scheme r) = true.
Proof.
  unfold urllib.urlsplit. cbv zeta.
  set (u := remove_char 10%N (remove_char 13%N (remove_char 9%N
               (lstrip_c0 url)))).
  change (remove_char 10%N (remove_char 13%N (remove_char 9%N
            (strip_c0 []))))
    with (@nil codepoint).
  match goal with
  | |- (let (_, _) := ?m in _) = _ -> _ => destruct m as [sch u'] eqn:E
  end.
  assert (Hs : forallb urllib.scheme_char sch = true).
  { destruct (find (chr ":") u 0) as [[|i']|].
    - now inversion E.
    - destruct (ascii_letter (hd 0%N u)
                && forallb urllib.scheme_char (firstn (S i') u)) eqn:F.
      + apply andb_true_iff in F as [_ F].
        inversion E. now apply lower_scheme.
      + now inversion E.
    - now inversion E. }
  match goal with
  | |- (let (_, _) := ?m in _) = _ -> _ => destruct m as [nl u2]
  end.
  match goal with |- context [if ?c then Raise _ else _] => destruct c end;
    [discriminate|].
  match goal with
  | |- match ?m with Some _ => _ | None => _ end = _ -> _ => destruct m
  end; [discriminate|].
  match goal with
  | |- (let (_, _) := ?m in _) = _ -> _ => destruct m as [u3 fr]
  end.
  match goal with
  | |- (let (_, _) := ?m in _) = _ -> _ => destruct m as [u4 q]
  end.
  destruct (urllib._checknetloc lib nl); [|discriminate].
  intros H. injection H as <-. exact Hs.
Qed.

Lemma urlparse_scheme lib (url : str) (r : urllib.ParseResult) :
  urllib.urlparse lib url [] = Ok r ->
  forallb urllib.scheme_char (urllib.scheme r) = true.
Proof.
  unfold urllib.urlparse.
  destruct (urllib.urlsplit lib url []) as [r0|e] eqn:E; [|discriminate].
  apply urlsplit_scheme in E.
  match goal with |- context [if ?c then _ else _] => destruct c end.
  - destruct (urllib._splitparams (urllib.path r0)) as [u p].
    intros H. injection H as <-. exact E.
  - intros H. injection H as <-. exact E.
Qed.

Lemma str_eqb_eq (a b : str) : str_eqb a b = true -> a = b.
Proof.
  revert b. induction a as [|x a IH]; intros [|y b]; simpl;
    try discriminate; auto.
  intros H. apply andb_true_iff in H as [Hx Hab].
  apply N.eqb_eq in Hx. subst. f_equal. now apply IH.
Qed.

Lemma uses_relative_netloc (s : str) :
  urllib.mem s urllib.uses_relative = true ->
  urllib.mem s urllib.uses_netloc = true.
Proof.
  intros H. unfold urllib.mem, urllib.uses_relative in H.
  cbn [List.map existsb] in H.
  repeat (apply orb_true_iff in H as [H|H];
          [apply str_eqb_eq in H; subst; reflexivity|]).
  discriminate.
Qed.

Lemma urljoin_plain_absolute lib (base : str) (b : urllib.ParseResult)
    (rest : str) :
  base <> [] ->
  urllib.urlparse lib base [] = Ok b ->
  urllib.mem (urllib.scheme b) urllib.uses_relative = true ->
  plain (chr "/" :: rest) = true ->
  startswith (py "/") rest = false ->
  urllib.urljoin lib base (chr "/" :: rest)
  = Ok (urllib.urlunparse
          (urllib.mkParseResult (urllib.scheme b) (urllib.netloc b)
             (urllib.resolve_path [] (chr "/" :: rest)) [] [] [])).
Proof.
  intros Hbase Hb Hrel Hplain Hslash.
  pose proof (@urlparse_scheme _ _ _ Hb) as Hs.
  pose proof (@urlparse_plain_absolute lib _ _ Hplain Hslash Hs) as Hu.
  rewrite (@urljoin_absolute_path lib _ _ _ _ rest Hbase Hb Hu eq_refl Hrel
             eq_refl eq_refl).
  cbn [urllib.params urllib.query urllib.fragment].
  now rewrite (@uses_relative_netloc _ Hrel).
Qed.

(** C4.  [get(path)] sends its one request to [urljoin(galaxy_root,
    path)] (and sends nothing when the join fails).  In particular, when
    [path] is a plain absolute path, the URL is made of the scheme and
    the network location of the base and of [path] with its dot
    segments resolved: the base's own path does not enter it. *)
Theorem get_requests_joined_url loads net lib (path : str) (kw : kwargs)
    (w : world) :
  let sent := sent_by (get loads net lib path [] kw) w in
  let root := w.(self).(galaxy_root) in
  List.map req_url sent
  = match urllib.urljoin lib root path with
    | Ok url => [url]
    | Raise _ => []
    end
  /\ Forall (fun r => req_method r = py "get") sent
  /\ forall (b : urllib.ParseResult) (rest : str),
       root <> [] ->
       urllib.urlparse lib root [] = Ok b ->
       urllib.mem (urllib.scheme b) urllib.uses_relative = true ->
       path = chr "/" :: rest ->
       plain path = true ->
       startswith (py "/") rest = false ->
       List.map req_url sent
       = [urllib.urlunparse
            (urllib.mkParseResult (urllib.scheme b) (urllib.netloc b)
               (urllib.resolve_path [] path) [] [] [])].
Proof.
  cbv zeta. unfold get. rewrite _http_sent.
  repeat split.
  - destruct (urllib.urljoin lib _ path); reflexivity.
  - destruct (urllib.urljoin lib _ path); repeat constructor.
  - intros b rest Hroot Hb Hrel -> Hplain Hslash.
    now rewrite (@urljoin_plain_absolute lib _ _ _ Hroot Hb Hrel Hplain Hslash).
Qed.

(** C4 at a concrete call: a base URL with the path [/api/galaxy/] and
    the absolute path [/v3/users/]. *)
Lemma get_requests_joined_url_witness :
  List.map req_url
    (sent_by (get loads_sample (constant_server empty_object_response)
                lib_ascii (py "/v3/users/") [] no_kwargs) prefixed_world)
  = [py "https://galaxy.example/v3/users/"].
Proof.
  refine (proj2 (proj2
            (@get_requests_joined_url loads_sample
               (constant_server empty_object_response) lib_ascii
               (py "/v3/users/") no_kwargs prefixed_world))
            (urllib.mkParseResult (py "https") (py "galaxy.example")
               (py "/api/galaxy/") [] [] [])
            (py "v3/users/") _ _ _ _ _ _).
  - discriminate.
  - reflexivity.
  - reflexivity.
  - reflexivity.
  - reflexivity.
  - reflexivity.
Defined.

(** The same base with a relative path: the path is appended. *)
Example get_relative_path_example :
  List.map req_url
    (sent_by (get loads_sample (constant_server empty_object_response)
                lib_ascii (py "v3/users/") [] no_kwargs) prefixed_world)
  = [py "https://galaxy.example/api/galaxy/v3/users/"].
Proof. reflexivity. Qed.

(** ** Decimal numerals *)

Lemma py_String (a : ascii) (s : string) :
  py (String a s) = N_of_ascii a :: py s.
Proof. reflexivity. Qed.

Lemma py_string_of_py (s : string) :
  string_of_list_ascii (List.map ascii_of_N (py s)) = s.
Proof.
  unfold py. rewrite map_map.
  rewrite (map_ext _ (fun a => a)) by apply ascii_N_embedding.
  rewrite map_id. apply string_of_list_ascii_of_string.
Qed.

Lemma int_of_str_of_Z (z : Z) : int_of_str (str_of_Z z) = Some z.
Proof.
  unfold int_of_str, str_of_Z. rewrite py_string_of_py.
  rewrite NilZero.isi.
  - cbn [option_map]. now rewrite DecimalZ.of_to.
  - destruct z; simpl; try discriminate.
    intros H. injection H as H. now apply DecimalPos.Unsigned.to_uint_nonnil in H.
  - destruct z; simpl; try discriminate.
    intros H. injection H as H. now apply DecimalPos.Unsigned.to_uint_nonnil in H.
Qed.

Lemma uint_digits (d : Decimal.uint) :
  forallb is_digit (py (NilEmpty.string_of_uint d)) = true.
Proof.
  induction d; cbn [NilEmpty.string_of_uint]; rewrite ?py_String;
    cbn [forallb]; try reflexivity; rewrite IHd; reflexivity.
Qed.

Lemma nzhead_not_D0 (u v : Decimal.uint) : Decimal.nzhead u <> Decimal.D0 v.
Proof.
  induction u; cbn [Decimal.nzhead]; auto; discriminate.
Qed.

Lemma to_uint_unorm (p : positive) :
  Decimal.unorm (Pos.to_uint p) = Pos.to_uint p.
Proof.
  rewrite <- (DecimalPos.Unsigned.to_of (Pos.to_uint p)).
  now rewrite DecimalPos.Unsigned.of_to.
Qed.

Lemma to_uint_head (p : positive) :
  match Pos.to_uint p with
  | Decimal.Nil | Decimal.D0 _ => False
  | _ => True
  end.
Proof.
  pose proof (to_uint_unorm p) as Hn.
  pose proof (DecimalPos.Unsigned.to_uint_nonzero p) as Hz.
  pose proof (DecimalPos.Unsigned.to_uint_nonnil p) as Hnil.
  destruct (Pos.to_uint p) as [|u| | | | | | | | |]; auto.
  rewrite DecimalFacts.unorm_D0 in Hn. unfold Decimal.unorm in Hn.
  destruct (Decimal.nzhead u) eqn:E; try discriminate.
  - injection Hn as <-. now apply Hz.
  - exact (@nzhead_not_D0 _ _ E).
Qed.

Lemma positive_numeral (p : positive) :
  exists d ds,
    py (NilZero.string_of_uint (Pos.to_uint p)) = d :: ds
    /\ is_digit19 d = true /\ forallb is_digit ds = true.
Proof.
  pose proof (to_uint_head p) as H.
  destruct (Pos.to_uint p) as [|u|u|u|u|u|u|u|u|u|u]; try contradiction;
    cbn [NilZero.string_of_uint NilEmpty.string_of_uint];
    rewrite py_String; eexists; eexists;
    (split; [reflexivity|split; [reflexivity|apply uint_digits]]).
Qed.

Lemma json_number_str_of_Z (z : Z) : json_number (str_of_Z z).
Proof.
  destruct z as [|p|p].
  - exists [], (py "0"), [], []. repeat split; auto; now left.
  - destruct (positive_numeral p) as (d & ds & E & H1 & H2).
    exists [], (d :: ds), [], []. repeat split.
    + unfold str_of_Z. cbn [Z.to_int NilZero.string_of_int].
      rewrite E. now rewrite !app_nil_r.
    + now left.
    + right. now exists d, ds.
    + now left.
    + now left.
  - destruct (positive_numeral p) as (d & ds & E & H1 & H2).
    exists (py "-"), (d :: ds), [], []. repeat split.
    + unfold str_of_Z. cbn [Z.to_int NilZero.string_of_int].
      rewrite py_String, E. now rewrite !app_nil_r.
    + now right.
    + right. now exists d, ds.
    + now left.
    + now left.
Qed.

Lemma is_digit_ascii (s : str) : forallb is_digit s = true -> isascii s = true.
Proof.
  unfold isascii. induction s as [|c s IH]; simpl; auto.
  intros H. apply andb_true_iff in H as [Hc Hs]. rewrite (IH Hs), andb_true_r.
  unfold is_digit in Hc. apply andb_true_iff in Hc as [_ Hc].
  apply N.leb_le in Hc. apply N.ltb_lt. lia.
Qed.

Lemma isascii_str_of_Z (z : Z) : isascii (str_of_Z z) = true.
Proof.
  destruct z as [|p|p]; [reflexivity| |];
    destruct (positive_numeral p) as (d & ds & E & H1 & H2);
    unfold str_of_Z; cbn [Z.to_int NilZero.string_of_int];
    rewrite ?py_String, E.
  - apply is_digit_ascii. cbn [forallb]. rewrite H2, andb_true_r.
    unfold is_digit19, is_digit in *. apply andb_true_iff in H1 as [Ha Hb].
    rewrite Hb, andb_true_r. apply N.leb_le in Ha. apply N.leb_le. lia.
  - change (isascii (N_of_ascii "-" :: d :: ds))
      with ((N_of_ascii "-" <? 128)%N && isascii (d :: ds)).
    cbn [andb]. replace (N_of_ascii "-" <? 128)%N with true by reflexivity.
    cbn [andb]. apply is_digit_ascii. cbn [forallb]. rewrite H2, andb_true_r.
    unfold is_digit19, is_digit in *. apply andb_true_iff in H1 as [Ha Hb].
    rewrite Hb, andb_true_r. apply N.leb_le in Ha. apply N.leb_le. lia.
Qed.

(** ** Escaped strings *)

Lemma hex_digit_spec (x : N) :
  is_hex (hex_digit (x mod 16)) = true
  /\ (hex_digit (x mod 16) <? 128)%N = true.
Proof.
  assert (H : (x mod 16 < 16)%N) by (apply N.mod_lt; discriminate).
  set (n := (x mod 16)%N) in *. unfold hex_digit, is_hex, is_digit.
  destruct (n <? 10)%N eqn:E; bool_hyps; bool_goal; lia.
Qed.

Lemma json_chars_escape_u (n : N) (rest : str) :
  json_chars rest -> json_chars (escape_u n ++ rest).
Proof.
  intros H. unfold escape_u. cbn [app].
  apply chars_unicode; auto; apply hex_digit_spec.
Qed.

Lemma isascii_app (a b : str) : isascii (a ++ b) = isascii a && isascii b.
Proof. unfold isascii. apply forallb_app. Qed.

Lemma isascii_escape_u (n : N) : isascii (escape_u n) = true.
Proof.
  unfold escape_u, isascii. cbn [forallb].
  rewrite !(proj2 (hex_digit_spec _)). reflexivity.
Qed.

Lemma escape_char_spec (c : codepoint) :
  isascii (escape_char c) = true
  /\ forall rest, json_chars rest -> json_chars (escape_char c ++ rest).
Proof.
  unfold escape_char.
  change (chr "\") with 92%N. change dquote with 34%N.
  destruct (c =? 92)%N eqn:E1.
  { split; [reflexivity|]. intros rest H. now apply chars_escape. }
  destruct (c =? 34)%N eqn:E2.
  { split; [reflexivity|]. intros rest H. now apply chars_escape. }
  destruct ((32 <=? c)%N && (c <=? 126)%N) eqn:E3.
  { bool_hyps. split.
    - unfold isascii. cbn [forallb]. rewrite andb_true_r. bool_goal. lia.
    - intros rest Hrest. cbn [app]. apply chars_plain; auto.
      unfold unescaped. bool_goal. lia. }
  destruct (c =? 8)%N.
  { split; [reflexivity|]. intros rest H. now apply chars_escape. }
  destruct (c =? 12)%N.
  { split; [reflexivity|]. intros rest H. now apply chars_escape. }
  destruct (c =? 10)%N.
  { split; [reflexivity|]. intros rest H. now apply chars_escape. }
  destruct (c =? 13)%N.
  { split; [reflexivity|]. intros rest H. now apply chars_escape. }
  destruct (c =? 9)%N.
  { split; [reflexivity|]. intros rest H. now apply chars_escape. }
  destruct (c <? 65536)%N.
  { split; [apply isascii_escape_u|]. intros rest H.
    now apply json_chars_escape_u. }
  split.
  - now rewrite isascii_app, !isascii_escape_u.
  - intros rest H. rewrite <- app_assoc.
    now apply json_chars_escape_u, json_chars_escape_u.
Qed.

Lemma flat_map_escape_spec (s : str) :
  isascii (flat_map escape_char s) = true
  /\ json_chars (flat_map escape_char s).
Proof.
  induction s as [|c s [IH1 IH2]]; cbn [flat_map].
  - split; [reflexivity|constructor].
  - destruct (escape_char_spec c) as [H1 H2]. split.
    + now rewrite isascii_app, H1, IH1.
    + now apply H2.
Qed.

Lemma encode_basestring_ascii_spec (s : str) :
  isascii (encode_basestring_ascii s) = true
  /\ json_string (encode_basestring_ascii s).
Proof.
  destruct (flat_map_escape_spec s) as [H1 H2].
  unfold encode_basestring_ascii. split.
  - rewrite !isascii_app, H1. reflexivity.
  - exists (flat_map escape_char s). split; [reflexivity|exact H2].
Qed.

(** ** The text of a float *)

Lemma positive_digits (m : positive) :
  exists d ds,
    str_of_Z (Z.pos m) = d :: ds
    /\ is_digit19 d = true /\ forallb is_digit ds = true.
Proof. exact (positive_numeral m). Qed.

Lemma is_digit19_digit (d : codepoint) :
  is_digit19 d = true -> is_digit d = true.
Proof.
  unfold is_digit19, is_digit. intros H. bool_hyps. bool_goal. lia.
Qed.

Lemma natural_digits (z : Z) :
  (0 <= z)%Z -> digits (str_of_Z z).
Proof.
  intros Hz. destruct z as [|p|p]; [split; [discriminate|reflexivity]| |lia].
  destruct (positive_digits p) as (d & ds & -> & Hd & Hds).
  split; [discriminate|]. cbn [forallb].
  now rewrite (is_digit19_digit _ Hd), Hds.
Qed.

Lemma digits_app (a b : str) :
  forallb is_digit a = true -> digits b -> digits (a ++ b).
Proof.
  intros Ha [Hne Hb]. split.
  - destruct a; [exact Hne|discriminate].
  - now rewrite forallb_app, Ha, Hb.
Qed.

Lemma zeros_digits (n : nat) : forallb is_digit (repeat (chr "0") n) = true.
Proof. induction n; cbn [repeat forallb]; auto. Qed.

Lemma json_exp_float_exponent (e : Z) :
  json_exp (py "e" ++ float_exponent e).
Proof.
  right. unfold float_exponent.
  exists (chr "e"), (if (e <? 0)%Z then py "-" else py "+"),
    ((if (Z.abs e <? 10)%Z then py "0" else []) ++ str_of_Z (Z.abs e)).
  repeat split.
  - now left.
  - destruct (e <? 0)%Z; auto.
  - destruct (Z.abs e <? 10)%Z; discriminate || idtac.
    pose proof (natural_digits (Z.abs_nonneg e)) as [Hne _].
    now destruct (str_of_Z (Z.abs e)).
  - pose proof (natural_digits (Z.abs_nonneg e)) as [_ Hd].
    rewrite forallb_app, Hd. now destruct (Z.abs e <? 10)%Z.
Qed.

Lemma forallb_firstn (A : Type) (p : A -> bool) (n : nat) (l : list A) :
  forallb p l = true -> forallb p (firstn n l) = true.
Proof.
  revert n. induction l as [|x l IH]; intros [|n]; cbn; auto.
  intros H. apply andb_true_iff in H as [Hx Hl]. now rewrite Hx, IH.
Qed.

Lemma forallb_skipn (A : Type) (p : A -> bool) (n : nat) (l : list A) :
  forallb p l = true -> forallb p (skipn n l) = true.
Proof.
  revert n. induction l as [|x l IH]; intros [|n]; cbn; auto.
  intros H. apply andb_true_iff in H as [Hx Hl]. now apply IH.
Qed.

(** The digits and the decimal point that [repr] writes for a finite
    float make a JSON number. *)
Lemma json_number_finite (negative : bool) (m : positive) (decpt : Z) :
  json_number (float_repr (FFinite negative m decpt)).
Proof.
  unfold float_repr.
  destruct (positive_digits m) as (d & ds & -> & Hd & Hds).
  pose proof (is_digit19_digit _ Hd) as Hd'.
  remember (Z.of_nat (List.length (d :: ds))) as n eqn:Hn.
  replace (Z.of_nat (List.length (d :: ds)))
    with (1 + Z.of_nat (List.length ds))%Z in Hn
    by (cbn [List.length]; lia).
  assert (Hsign : float_sign negative = [] \/ float_sign negative = py "-").
  { destruct negative; auto. }
  destruct ((decpt <=? -4)%Z || (16 <? decpt)%Z) eqn:Eexp.
  { exists (float_sign negative), [d],
      (if (1 <? n)%Z then py "." ++ ds else []),
      (py "e" ++ float_exponent (decpt - 1)).
    repeat split; auto.
    - right. now exists d, [].
    - destruct (1 <? n)%Z eqn:E1; [right|now left].
      exists ds. split; [reflexivity|]. split; [|exact Hds].
      apply Z.ltb_lt in E1.
      destruct ds; [cbn [List.length] in Hn; lia|discriminate].
    - apply json_exp_float_exponent. }
  apply orb_false_iff in Eexp as [E1 E2].
  apply Z.leb_gt in E1. apply Z.ltb_ge in E2.
  destruct (decpt <=? 0)%Z eqn:E3.
  { exists (float_sign negative), (py "0"),
      (chr "." :: repeat (chr "0") (Z.to_nat (- decpt)) ++ d :: ds), [].
    repeat split; auto.
    - now rewrite app_nil_r.
    - now left.
    - right. eexists. split; [reflexivity|].
      apply digits_app; [apply zeros_digits|].
      split; [discriminate|]. cbn [forallb]. now rewrite Hd', Hds.
    - now left. }
  apply Z.leb_gt in E3.
  destruct (decpt <? n)%Z eqn:E4.
  { apply Z.ltb_lt in E4.
    destruct (Z.to_nat decpt) as [|k] eqn:Ek; [lia|].
    exists (float_sign negative), (d :: firstn k ds),
      (chr "." :: skipn k ds), [].
    repeat split; auto.
    - cbn [firstn skipn app]. now rewrite app_nil_r.
    - right. exists d, (firstn k ds). repeat split; auto.
      now apply forallb_firstn.
    - right. eexists. split; [reflexivity|]. split.
      + intros H. apply (f_equal (@List.length _)) in H.
        rewrite length_skipn in H. cbn [List.length] in H. lia.
      + now apply forallb_skipn.
    - now left. }
  exists (float_sign negative),
    (d :: ds ++ repeat (chr "0") (Z.to_nat (decpt - n))), (py ".0"), [].
  repeat split; auto.
  - cbn [app]. now rewrite <- !app_assoc.
  - right. eexists. eexists. repeat split; eauto.
    now rewrite forallb_app, Hds, zeros_digits.
  - right. exists (py "0"). repeat split. discriminate.
  - now left.
Qed.

Lemma json_number_zero (negative : bool) :
  json_number (float_repr (FZero negative)).
Proof.
  exists (float_sign negative), (py "0"), (py ".0"), [].
  repeat split.
  - destruct negative; auto.
  - now left.
  - right. exists (py "0"). repeat split. discriminate.
  - now left.
Qed.

(** A JSON number is made of digits, signs, a point and an [e]. *)
Lemma json_number_chars (s : str) :
  json_number s -> forallb number_char s = true.
Proof.
  assert (Hdig : forall x, forallb is_digit x = true ->
                           forallb number_char x = true).
  { intros x. induction x as [|c x IH]; cbn [forallb]; auto.
    intros H. apply andb_true_iff in H as [Hc Hx].
    unfold number_char at 1. now rewrite Hc, IH. }
  intros (minus & i & f & e & -> & Hminus & Hi & Hf & He).
  rewrite !forallb_app. repeat (apply andb_true_iff; split).
  - destruct Hminus as [->| ->]; reflexivity.
  - destruct Hi as [->|(d & ds & -> & Hd & Hds)]; [reflexivity|].
    cbn [forallb]. rewrite (Hdig _ Hds). unfold number_char.
    now rewrite (is_digit19_digit _ Hd).
  - destruct Hf as [->|(ds & -> & _ & Hds)]; [reflexivity|].
    cbn [forallb]. now rewrite (Hdig _ Hds).
  - destruct He as [->|(c & sign & ds & -> & Hc & Hsign & _ & Hds)];
      [reflexivity|].
    cbn [forallb]. rewrite forallb_app, (Hdig _ Hds).
    destruct Hc as [->| ->];
      destruct Hsign as [->|[->| ->]]; reflexivity.
Qed.

Lemma number_char_ascii (s : str) :
  forallb number_char s = true -> isascii s = true.
Proof.
  unfold isascii. induction s as [|c s IH]; cbn [forallb]; auto.
  intros H. apply andb_true_iff in H as [Hc Hs]. rewrite (IH Hs), andb_true_r.
  unfold number_char in Hc. apply orb_true_iff in Hc as [Hc|Hc].
  - unfold is_digit in Hc. bool_hyps. bool_goal. lia.
  - cbn [existsb] in Hc.
    repeat (apply orb_true_iff in Hc as [Hc|Hc];
            [apply N.eqb_eq in Hc; subst c; reflexivity|]).
    discriminate.
Qed.

(** ** The output of [dumps] *)

Lemma json_nested_ind (P : json -> Prop) :
  P JNull ->
  (forall b, P (JBool b)) ->
  (forall z, P (JInt z)) ->
  (forall f, P (JFloat f)) ->
  (forall s, P (JStr s)) ->
  (forall l, Forall P l -> P (JList l)) ->
  (forall d, Forall (fun kv => P (snd kv)) d -> P (JDict d)) ->
  forall j, P j.
Proof.
  intros Hnull Hbool Hint Hfloat Hstr Hlist Hdict.
  fix IH 1. intros [| b | z | f | s | l | d].
  - exact Hnull.
  - apply Hbool.
  - apply Hint.
  - apply Hfloat.
  - apply Hstr.
  - apply Hlist. induction l as [|x l IHl]; constructor.
    + apply IH.
    + exact IHl.
  - apply Hdict. induction d as [|[k v] d IHd]; constructor.
    + apply IH.
    + exact IHd.
Qed.

Lemma isascii_join (sep : str) (parts : list str) :
  isascii sep = true ->
  Forall (fun p => isascii p = true) parts ->
  isascii (join sep parts) = true.
Proof.
  intros Hsep H. induction H as [|p parts Hp Hparts IH]; [reflexivity|].
  destruct parts as [|q parts]; [exact Hp|].
  change (join sep (p :: q :: parts)) with (p ++ sep ++ join sep (q :: parts)).
  now rewrite !isascii_app, Hp, Hsep, IH.
Qed.

Lemma elements_join (vs : list str) :
  vs <> [] -> Forall json_value vs ->
  forall w, ws w -> json_elements (w ++ join (py ", ") vs).
Proof.
  intros Hne H. induction H as [|v vs Hv Hvs IH]; [congruence|].
  intros w Hw. destruct vs as [|v' vs].
  - cbn [join]. rewrite <- (app_nil_r v). now apply elements_one.
  - change (join (py ", ") (v :: v' :: vs))
      with (v ++ [] ++ chr "," :: [32%N] ++ join (py ", ") (v' :: vs)).
    apply elements_more; auto; try reflexivity.
    apply IH; [discriminate|reflexivity].
Qed.

Lemma members_one_dumps (w k v : str) :
  ws w -> json_string k -> json_value v ->
  json_members (w ++ k ++ py ": " ++ v).
Proof.
  intros Hw Hk Hv.
  replace (w ++ k ++ py ": " ++ v)
    with (w ++ k ++ [] ++ chr ":" :: [32%N] ++ v ++ []).
  - now apply members_one.
  - cbn [app]. now rewrite app_nil_r.
Qed.

Lemma members_more_dumps (w k v rest : str) :
  ws w -> json_string k -> json_value v -> json_members rest ->
  json_members (w ++ (k ++ py ": " ++ v) ++ chr "," :: rest).
Proof.
  intros Hw Hk Hv Hrest.
  replace (w ++ (k ++ py ": " ++ v) ++ chr "," :: rest)
    with (w ++ k ++ [] ++ chr ":" :: [32%N] ++ v ++ [] ++ chr "," :: rest).
  - now apply members_more.
  - change (py ": ") with [chr ":"; 32%N].
    rewrite <- (app_assoc k). reflexivity.
Qed.

Lemma members_join (kvs : list (str * str)) :
  kvs <> [] ->
  Forall (fun kv => json_string (fst kv) /\ json_value (snd kv)) kvs ->
  forall w, ws w ->
  json_members
    (w ++ join (py ", ")
            (List.map (fun kv => fst kv ++ py ": " ++ snd kv) kvs)).
Proof.
  intros Hne H. induction H as [|[k v] kvs [Hk Hv] Hkvs IH]; [congruence|].
  intros w Hw. destruct kvs as [|kv' kvs].
  - cbn [List.map join fst snd]. now apply members_one_dumps.
  - change (join (py ", ")
              (List.map (fun kv => fst kv ++ py ": " ++ snd kv)
                 ((k, v) :: kv' :: kvs)))
      with ((k ++ py ": " ++ v) ++ chr "," :: [32%N]
            ++ join (py ", ")
                 (List.map (fun kv => fst kv ++ py ": " ++ snd kv)
                    (kv' :: kvs))).
    apply members_more_dumps; auto.
    apply IH; [discriminate|reflexivity].
Qed.


Lemma collect_map (A B : Type) (f : A -> result B) (l : list A)
    (r : list B) :
  collect (List.map f l) = Ok r -> Forall2 (fun x y => f x = Ok y) l r.
Proof.
  revert r. induction l as [|x l IH]; cbn [List.map collect]; intros r.
  - intros H. injection H as <-. constructor.
  - destruct (f x) as [y|e] eqn:Ex; [|discriminate].
    destruct (collect (List.map f l)) as [r'|e]; [|discriminate].
    intros H. injection H as <-. constructor; auto.
Qed.

Lemma collect_total (A B : Type) (f : A -> result B) (l : list A) :
  Forall (fun x => exists y, f x = Ok y) l ->
  exists r, collect (List.map f l) = Ok r.
Proof.
  induction 1 as [|x l [y Hy] Hl [r Hr]]; cbn [List.map collect].
  - now exists [].
  - rewrite Hy, Hr. now eexists.
Qed.

Lemma floatstr_spec (allow_nan : bool) (f : float) (s : str) :
  floatstr allow_nan f = Ok s ->
  allow_nan = false \/ finite_floats (JFloat f) = true ->
  json_number s.
Proof.
  intros Hs Hfin. destruct f as [|negative|negative|negative m decpt].
  - destruct Hfin as [->|Hfin]; discriminate.
  - destruct Hfin as [->|Hfin]; discriminate.
  - injection Hs as <-. apply json_number_zero.
  - injection Hs as <-. apply json_number_finite.
Qed.

(** The text [dumps] returns is ASCII and is a JSON value, when no
    float in [j] is out of range or when [allow_nan] is off (it then
    raises for such a float). *)
Lemma dumps_spec (allow_nan : bool) (j : json) :
  allow_nan = false \/ finite_floats j = true ->
  forall s,
    dumps allow_nan j = Ok s -> isascii s = true /\ json_value s.
Proof.
  induction j as [| b | z | f | t | l IH | d IH] using json_nested_ind;
    intros Hfin s Hs.
  - injection Hs as <-. split; [reflexivity|constructor].
  - destruct b; injection Hs as <-; (split; [reflexivity|constructor]).
  - injection Hs as <-. split; [apply isascii_str_of_Z|].
    apply value_number, json_number_str_of_Z.
  - pose proof (@floatstr_spec _ _ _ Hs Hfin) as Hn.
    split; [|now apply value_number].
    now apply number_char_ascii, json_number_chars.
  - injection Hs as <-.
    destruct (encode_basestring_ascii_spec t) as [H1 H2].
    split; [exact H1|now apply value_string].
  - cbn [dumps] in Hs.
    destruct (collect (List.map (dumps allow_nan) l)) as [chunks|e] eqn:Ec;
      [|discriminate].
    assert (Es : s = py "[" ++ join (py ", ") chunks ++ py "]")
      by congruence.
    clear Hs. subst s. apply collect_map in Ec.
    assert (Hchunks : Forall (fun c => isascii c = true /\ json_value c)
                        chunks).
    { assert (Hl : Forall (fun x => allow_nan = false
                                    \/ finite_floats x = true) l).
      { apply Forall_forall. intros x Hx.
        destruct Hfin as [Hfin|Hfin]; [now left|right].
        cbn [finite_floats] in Hfin. rewrite forallb_forall in Hfin. auto. }
      clear Hfin. induction Ec as [|x c l chunks Hx Hrest IHc];
        constructor.
      - inversion IH; inversion Hl; subst. auto.
      - inversion IH; inversion Hl; subst. auto. }
    split.
    + rewrite !isascii_app, isascii_join; auto.
      revert Hchunks. apply Forall_impl. now intros c [H _].
    + destruct chunks as [|c chunks].
      * apply (@value_array_empty []). reflexivity.
      * change (py "[" ++ ?x ++ py "]") with (chr "[" :: x ++ py "]").
        apply value_array.
        apply (@elements_join (c :: chunks) ltac:(discriminate))
          with (w := []); [|reflexivity].
        revert Hchunks. apply Forall_impl. now intros x [_ H].
  - cbn [dumps] in Hs.
    match type of Hs with
    | match collect (List.map ?f d) with _ => _ end = _ =>
        set (item := f) in Hs
    end.
    destruct (collect (List.map item d)) as [chunks|e] eqn:Ec;
      [|discriminate].
    assert (Es : s = py "{" ++ join (py ", ") chunks ++ py "}")
      by congruence.
    clear Hs. subst s. apply collect_map in Ec.
    assert (Hchunks :
              exists kvs : list (str * str),
                chunks = List.map (fun kv => fst kv ++ py ": " ++ snd kv) kvs
                /\ Forall (fun kv => json_string (fst kv)
                                     /\ json_value (snd kv)) kvs
                /\ Forall (fun c => isascii c = true) chunks).
    { assert (Hd : Forall (fun kv : str * json =>
                             allow_nan = false
                             \/ finite_floats (snd kv) = true) d).
      { apply Forall_forall. intros x Hx.
        destruct Hfin as [Hfin|Hfin]; [now left|right].
        cbn [finite_floats] in Hfin. rewrite forallb_forall in Hfin. auto. }
      clear Hfin. induction Ec as [|[k v] c d chunks Hx Hrest IHc].
      - exists []. repeat split; constructor.
      - inversion IH as [|? ? Hv IH']. inversion Hd as [|? ? Hfin Hd'].
        subst. destruct (IHc IH' Hd') as (kvs & -> & Hkvs & Hascii).
        unfold item in Hx.
        destruct (dumps allow_nan v) as [chunk|e] eqn:Ev; [|discriminate].
        assert (Ek : c = encode_basestring_ascii k ++ py ": " ++ chunk)
          by congruence.
        clear Hx. subst c. cbn [snd] in Hv, Hfin.
        destruct (Hv Hfin _ Ev) as [Ha Hj].
        destruct (encode_basestring_ascii_spec k) as [Hka Hkj].
        exists ((encode_basestring_ascii k, chunk) :: kvs).
        repeat split.
        + constructor; [now split|exact Hkvs].
        + constructor; [|exact Hascii]. cbn [fst snd].
          rewrite !isascii_app, Hka, Ha. reflexivity. }
    destruct Hchunks as (kvs & -> & Hkvs & Hascii).
    split.
    + rewrite !isascii_app, isascii_join; auto.
    + destruct kvs as [|kv kvs].
      * apply (@value_object_empty []). reflexivity.
      * change (py "{" ++ ?x ++ py "}") with (chr "{" :: x ++ py "}").
        apply value_object.
        apply members_join with (w := []);
          [discriminate|exact Hkvs|reflexivity].
Qed.

(** [dumps] returns a text when no float in [j] is out of range. *)
Lemma dumps_total (allow_nan : bool) (j : json) :
  finite_floats j = true -> exists s, dumps allow_nan j = Ok s.
Proof.
  induction j as [| b | z | f | t | l IH | d IH] using json_nested_ind;
    intros Hfin; try (eexists; reflexivity).
  - destruct b; eexists; reflexivity.
  - destruct f; try discriminate; eexists; reflexivity.
  - cbn [dumps].
    destruct (@collect_total _ _ (dumps allow_nan) l) as [r Hr].
    { cbn [finite_floats] in Hfin. rewrite forallb_forall in Hfin.
      rewrite Forall_forall in *. auto. }
    rewrite Hr. now eexists.
  - cbn [dumps].
    match goal with
    | |- context [collect (List.map ?f d)] => set (item := f)
    end.
    destruct (@collect_total _ _ item d) as [r Hr].
    { cbn [finite_floats] in Hfin. rewrite forallb_forall in Hfin.
      rewrite Forall_forall in *. intros [k v] Hin.
      destruct (IH _ Hin (Hfin _ Hin)) as [s Hs]. cbn [snd] in Hs.
      unfold item. rewrite Hs. now eexists. }
    rewrite Hr. now eexists.
Qed.

(** ** Encoding ASCII text *)

Lemma encode_utf8_ascii (s : str) :
  isascii s = true ->
  exists b, encode_utf8 s = Some b /\ List.length b = List.length s.
Proof.
  unfold isascii. induction s as [|c s IH]; cbn [forallb encode_utf8].
  - intros _. now exists [].
  - intros H. apply andb_true_iff in H as [Hc Hs].
    destruct (IH Hs) as (b & Hb & Hlen).
    unfold utf8_char. rewrite Hc, Hb.
    eexists. split; [reflexivity|]. cbn [List.length app]. now rewrite Hlen.
Qed.

(** ** Header mappings *)

Lemma dict_get_set_same (V : Type) (k : str) (v : V) (d : dict V) :
  dict_get k (dict_set k v d) = Some v.
Proof.
  induction d as [|[k' v'] d IH]; cbn [dict_set dict_get].
  - now rewrite str_eqb_refl.
  - destruct (str_eqb k k') eqn:E; cbn [dict_get]; rewrite E; auto.
Qed.

Lemma dict_get_set_other (V : Type) (k k' : str) (v : V) (d : dict V) :
  str_eqb k k' = false ->
  dict_get k (dict_set k' v d) = dict_get k d.
Proof.
  intros Hk. induction d as [|[k0 v0] d IH]; cbn [dict_set dict_get].
  - now rewrite Hk.
  - destruct (str_eqb k' k0) eqn:E; cbn [dict_get].
    + apply str_eqb_eq in E. subst. now rewrite Hk.
    + destruct (str_eqb k k0); auto.
Qed.

(** ** Headers, read without regard to case *)

Lemma header_get_none (name : str) (d : dict str) :
  header_get name d = None ->
  forall kv, In kv d -> str_eqb (lower (fst kv)) (lower name) = false.
Proof.
  unfold header_get. intros H kv Hin.
  destruct (List.find _ (rev d)) as [x|] eqn:E; [discriminate|].
  apply (find_none _ _ E). now apply in_rev in Hin.
Qed.

Lemma header_get_last (name k v : str) (d : dict str) :
  str_eqb (lower k) (lower name) = true ->
  header_get name (d ++ [(k, v)]) = Some v.
Proof.
  intros H. unfold header_get. rewrite rev_unit. cbn [List.find fst].
  now rewrite H.
Qed.

Lemma header_get_skip (name k v : str) (d : dict str) :
  str_eqb (lower k) (lower name) = false ->
  header_get name (d ++ [(k, v)]) = header_get name d.
Proof.
  intros H. unfold header_get. rewrite rev_unit. cbn [List.find fst].
  now rewrite H.
Qed.

Lemma dict_set_new (name k v : str) (d : dict str) :
  (forall kv, In kv d -> str_eqb (lower (fst kv)) (lower name) = false) ->
  lower k = lower name ->
  dict_set k v d = d ++ [(k, v)].
Proof.
  intros Hd Hk. induction d as [|[k' v'] d IH]; [reflexivity|].
  cbn [dict_set app].
  destruct (str_eqb k k') eqn:E.
  - apply str_eqb_eq in E. subst k'.
    specialize (Hd (k, v') (or_introl eq_refl)). cbn [fst] in Hd.
    now rewrite Hk, str_eqb_refl in Hd.
  - rewrite IH; auto. intros kv Hin. apply Hd. now right.
Qed.

Lemma payload_headers_fresh (base : dict str) (n : nat) :
  header_get (py "Content-Type") base = None ->
  header_get (py "Content-Length") base = None ->
  header_get (py "Content-Type") (payload_headers base n)
  = Some json_content_type
  /\ header_get (py "Content-Length") (payload_headers base n)
     = Some (str_of_Z (Z.of_nat n)).
Proof.
  intros Htype Hlen.
  pose proof (header_get_none _ _ Htype) as Ht.
  pose proof (header_get_none _ _ Hlen) as Hl.
  unfold payload_headers, dict_update. cbn [fold_left fst snd].
  rewrite (@dict_set_new (py "Content-Type") (py "Content-Type")) by auto.
  rewrite (@dict_set_new (py "Content-Length") (py "Content-length")).
  - split.
    + rewrite header_get_skip by reflexivity.
      now apply header_get_last.
    + now apply header_get_last.
  - intros kv Hin. apply in_app_or in Hin as [Hin|[<-|[]]]; auto.
  - reflexivity.
Qed.

Lemma payload_headers_exact (base : dict str) (n : nat) :
  dict_get (py "Content-Type") (payload_headers base n)
  = Some json_content_type
  /\ dict_get (py "Content-length") (payload_headers base n)
     = Some (str_of_Z (Z.of_nat n)).
Proof.
  unfold payload_headers, dict_update. cbn [fold_left fst snd]. split.
  - rewrite dict_get_set_other by reflexivity. apply dict_get_set_same.
  - apply dict_get_set_same.
Qed.

(** ** The payload of [post] and [put] *)

Lemma dumps_encodes (allow_nan : bool) (j : json) (s : str) :
  allow_nan = false \/ finite_floats j = true ->
  dumps allow_nan j = Ok s ->
  exists b, encode_utf8 s = Some b /\ List.length b = List.length s.
Proof.
  intros Hfin Hs. apply encode_utf8_ascii.
  exact (proj1 (@dumps_spec allow_nan j Hfin s Hs)).
Qed.

Lemma dumps_json_text (allow_nan : bool) (j : json) (s : str) :
  allow_nan = false \/ finite_floats j = true ->
  dumps allow_nan j = Ok s -> json_text s.
Proof.
  intros Hfin Hs. exists [], s, []. rewrite app_nil_r.
  repeat split; try reflexivity.
  exact (proj2 (@dumps_spec allow_nan j Hfin s Hs)).
Qed.

Lemma _payload_dict_sent loads net lib allow_nan (method path : str)
    (d : list (str * json)) (s : str) (b : bytes) (args : list value)
    (kw : kwargs) (w : world) :
  dumps allow_nan (JDict d) = Ok s ->
  encode_utf8 s = Some b ->
  sent_by
    (_payload loads net lib allow_nan method path (PJson (JDict d)) args kw) w
  = match base_headers w kw,
          urllib.urljoin lib w.(self).(galaxy_root) path, args with
    | Ok base, Ok url, [] =>
        [mkRequest method url
           (Some (payload_headers base (List.length b)))
           (Some (PBytes b)) None kw.(kw_rest)]
    | _, _, _ => []
    end.
Proof.
  intros Hs Hb. rewrite _payload_sent. unfold encoded_body. rewrite Hs, Hb.
  cbn [body_len]. destruct (base_headers w kw); reflexivity.
Qed.

Lemma _payload_dict_announces loads net lib allow_nan (method path : str)
    (d : list (str * json)) (s : str) (b : bytes) (args : list value)
    (kw : kwargs) (w : world) :
  dumps allow_nan (JDict d) = Ok s ->
  encode_utf8 s = Some b ->
  Forall (announces b)
    (sent_by
       (_payload loads net lib allow_nan method path (PJson (JDict d)) args kw)
           w).
Proof.
  intros Hs Hb.
  rewrite (@_payload_dict_sent loads net lib allow_nan method path d s b
             args kw w Hs Hb).
  destruct (base_headers w kw) as [base|e]; [|constructor].
  destruct (urllib.urljoin lib _ path) as [url|e]; [|constructor].
  destruct args; constructor; [|constructor].
  split; [reflexivity|].
  exists (payload_headers base (List.length b)).
  split; [reflexivity|]. apply payload_headers_exact.
Qed.

(** When [dumps] raises, [_payload] raises the same and sends
    nothing. *)
Lemma _payload_dict_raises loads net lib allow_nan (method path : str)
    (d : list (str * json)) (e : exn) (args : list value) (kw : kwargs)
    (w : world) :
  dumps allow_nan (JDict d) = Raise e ->
  run (_payload loads net lib allow_nan method path (PJson (JDict d)) args kw) w
  = (Raise e, w).
Proof.
  intros He. rewrite _payload_run. unfold encoded_body. now rewrite He.
Qed.

(** ** Texts that are not JSON *)

Lemma stray_app (seen : bool) (x y : str) :
  stray seen (x ++ y) = stray (stray seen x) y.
Proof.
  revert seen. induction x as [|c x IH]; intros seen; cbn [app stray].
  - reflexivity.
  - destruct (c =? dquote)%N; apply IH.
Qed.

Lemma stray_structural (seen : bool) (x : str) :
  forallb structural x = true -> stray seen x = seen.
Proof.
  revert seen. induction x as [|c x IH]; intros seen; cbn [forallb stray].
  - reflexivity.
  - intros H. apply andb_true_iff in H as [Hc Hx].
    destruct (c =? dquote)%N eqn:E.
    + apply N.eqb_eq in E. subst c. discriminate.
    + rewrite Hc. cbn [negb]. rewrite orb_false_r. now apply IH.
Qed.

Lemma ws_structural (x : str) : ws x -> forallb structural x = true.
Proof.
  unfold ws. induction x as [|c x IH]; cbn [forallb]; auto.
  intros H. apply andb_true_iff in H as [Hc Hx].
  unfold structural at 1. now rewrite Hc, IH.
Qed.

Lemma number_structural (x : str) :
  json_number x -> forallb structural x = true.
Proof.
  intros H. apply json_number_chars in H.
  induction x as [|c x IH]; cbn [forallb] in *; auto.
  apply andb_true_iff in H as [Hc Hx].
  unfold structural at 1. now rewrite Hc, orb_true_r, IH.
Qed.

Lemma stray_string (seen : bool) (x : str) :
  json_string x -> stray seen x = false.
Proof.
  intros (body & -> & _). cbn [stray].
  change (dquote =? dquote)%N with true. cbv iota.
  rewrite stray_app. cbn [stray].
  change (dquote =? dquote)%N with true. reflexivity.
Qed.

Lemma stray_ws (seen : bool) (x : str) : ws x -> stray seen x = seen.
Proof. intros H. now apply stray_structural, ws_structural. Qed.

Scheme json_value_min := Minimality for json_value Sort Prop
  with json_elements_min := Minimality for json_elements Sort Prop
  with json_members_min := Minimality for json_members Sort Prop.

(** Outside its strings a JSON value has structural characters only:
    none other follows its last double quote. *)
Lemma json_value_stray (v : str) : json_value v -> stray false v = false.
Proof.
  intros H.
  induction H using json_value_min
    with (P0 := fun s => stray false s = false)
         (P1 := fun s => stray false s = false).
  - reflexivity.
  - reflexivity.
  - reflexivity.
  - now apply stray_structural, number_structural.
  - now apply stray_string.
  - change (chr "[" :: w ++ py "]") with (py "[" ++ w ++ py "]").
    rewrite !stray_app. now rewrite (stray_ws _ H).
  - change (chr "[" :: s ++ py "]") with (py "[" ++ s ++ py "]").
    rewrite !stray_app. change (stray false (py "[")) with false.
    now rewrite IHjson_value.
  - change (chr "{" :: w ++ py "}") with (py "{" ++ w ++ py "}").
    rewrite !stray_app. now rewrite (stray_ws _ H).
  - change (chr "{" :: s ++ py "}") with (py "{" ++ s ++ py "}").
    rewrite !stray_app. change (stray false (py "{")) with false.
    now rewrite IHjson_value.
  - rewrite !stray_app. rewrite (stray_ws _ H), IHjson_value.
    now apply stray_ws.
  - change (chr "," :: rest) with (py "," ++ rest).
    rewrite !stray_app. rewrite (stray_ws _ H), IHjson_value.
    rewrite (stray_ws _ H1). exact IHjson_value0.
  - change (chr ":" :: w3 ++ v ++ w4) with (py ":" ++ w3 ++ v ++ w4).
    rewrite !stray_app. rewrite (stray_ws _ H), (stray_string _ H0).
    rewrite (stray_ws _ H1). change (stray false (py ":")) with false.
    rewrite (stray_ws _ H2), IHjson_value. now apply stray_ws.
  - change (chr ":" :: w3 ++ v ++ w4 ++ chr "," :: rest)
      with (py ":" ++ w3 ++ v ++ w4 ++ py "," ++ rest).
    rewrite !stray_app. rewrite (stray_ws _ H), (stray_string _ H0).
    rewrite (stray_ws _ H1). change (stray false (py ":")) with false.
    rewrite (stray_ws _ H2), IHjson_value, (stray_ws _ H4).
    exact IHjson_value0.
Qed.

Lemma json_text_stray (s : str) : json_text s -> stray false s = false.
Proof.
  intros (w1 & v & w2 & -> & H1 & Hv & H2).
  rewrite !stray_app, (stray_ws _ H1), (json_value_stray Hv).
  now apply stray_ws.
Qed.

(** ** A mapping as the body *)




(** The text of that payload. *)
Example measured_body_example :
  dumps false (JDict measured_body)
  = Ok (quoted "{'name': 'admins', 'quota': 1.5}")
  /\ dumps true (JDict measured_body) = dumps false (JDict measured_body).
Proof. split; reflexivity. Qed.

(** The same call, evaluated: the payload has 18 bytes and the request
    says so. *)
Example post_example :
  let sent :=
    sent_by (post loads_sample (constant_server empty_object_response)
               lib_ascii false (py "_ui/v1/groups/")
               (PJson (JDict example_body)) [] no_kwargs)
      authenticated_world in
  List.map (request_header (py "Content-Length")) sent = [Some (py "18")]
  /\ List.map (request_header (py "Authorization")) sent
     = [Some (py "Token abc")]
  /\ List.map req_data sent
     = [option_map PBytes (encode_utf8 (quoted "{'name': 'admins'}"))].
Proof. cbv zeta. repeat split; vm_compute; reflexivity. Qed.

(** A [get] from a client without credentials does send a request, with
    an empty header mapping. *)
Example anonymous_get_example :
  sent_by (get loads_sample (constant_server empty_object_response)
             lib_ascii (py "v3/users/") [] no_kwargs) anonymous_world
  = [example_get_request].
Proof. reflexivity. Qed.

(* ================================================================== *)
(** * Further properties of the client *)
(* ================================================================== *)

(** ** What a call returns *)

(** X1.  A [get], [post] or [put] whose request is answered with a body
    that the decoder accepts returns the decoded value as it is, makes
    that one request and prints nothing. *)
Theorem call_returns_parsed_body loads net lib allow_nan (v : verb)
    (path : str) (args : list value) (kw : kwargs) (w : world) (req : Request)
    (resp : Response) (j : json) :
  let m := call loads net lib allow_nan v path args kw in
  In req (sent_by m w) ->
  net req = Ok resp ->
  loads resp.(text) = Some j ->
  fst (run m w) = Ok j /\ events_of m w = [Http req].
Proof.
  cbv zeta. intros Hin Hnet Hj.
  pose proof (@call_outcome loads net lib allow_nan v path args kw w req resp
                Hin Hnet) as H.
  cbv zeta in H. now rewrite Hj in H.
Qed.

(** X1 at a concrete exchange: a client that holds the token [abc]
    gets [v3/users/]; the request carries the token. *)
Lemma call_returns_parsed_body_witness :
  let m := call loads_sample (constant_server empty_object_response)
             lib_ascii false Get (py "v3/users/") [] no_kwargs in
  fst (run m authenticated_world) = Ok (JDict [])
  /\ events_of m authenticated_world = [Http example_token_request].
Proof.
  apply (@call_returns_parsed_body loads_sample
           (constant_server empty_object_response) lib_ascii false Get
           (py "v3/users/") [] no_kwargs authenticated_world
           example_token_request empty_object_response (JDict [])).
  - vm_compute. left. reflexivity.
  - reflexivity.
  - vm_compute. reflexivity.
Defined.

Lemma call_run loads net lib allow_nan (v : verb) (path : str)
    (args : list value) (kw : kwargs) (w : world) :
  run (call loads net lib allow_nan v path args kw) w =
  match v with
  | Get => run (_http loads net lib (py "get") path args kw) w
  | Post body =>
      run (_payload loads net lib allow_nan (py "post") path body args kw) w
  | Put body =>
      run (_payload loads net lib allow_nan (py "put") path body args kw) w
  end.
Proof. destruct v; reflexivity. Qed.

(** The answer of a network with the status codes replaced. *)
Lemma http_run_status loads net lib (status : Request -> Response -> Z)
    (method path : str) (args : list value) (kw : kwargs) (w : world) :
  run (_http loads
         (fun req =>
            match net req with
            | Ok resp => Ok (with_status (status req resp) resp)
            | Raise e => Raise e
            end) lib method path args kw) w
  = run (_http loads net lib method path args kw) w.
Proof.
  rewrite !_http_run.
  destruct (urllib.urljoin lib _ path) as [url|e]; [|reflexivity].
  destruct args as [|a args]; [|reflexivity].
  cbv zeta. destruct (net _) as [resp|e]; reflexivity.
Qed.

(** X2.  The status code of the response is never looked at: a network
    that answers the same bodies with other status codes gives every
    call the same outcome and the same events. *)
Theorem status_code_is_ignored loads net lib allow_nan
    (status : Request -> Response -> Z) (v : verb) (path : str)
    (args : list value) (kw : kwargs) (w : world) :
  let net' req :=
    match net req with
    | Ok resp => Ok (with_status (status req resp) resp)
    | Raise e => Raise e
    end in
  run (call loads net' lib allow_nan v path args kw) w
  = run (call loads net lib allow_nan v path args kw) w.
Proof.
  cbv zeta. rewrite !call_run. destruct v as [|body|body].
  - apply http_run_status.
  - rewrite !_payload_run.
    destruct (encoded_body allow_nan body) as [body'|e]; [|reflexivity].
    destruct (base_headers w kw) as [base|e]; [|reflexivity].
    destruct (body_len body') as [n|e]; [|reflexivity].
    apply http_run_status.
  - rewrite !_payload_run.
    destruct (encoded_body allow_nan body) as [body'|e]; [|reflexivity].
    destruct (base_headers w kw) as [base|e]; [|reflexivity].
    destruct (body_len body') as [n|e]; [|reflexivity].
    apply http_run_status.
Qed.

(** An error status with a JSON body is returned like a success. *)
Example server_error_is_returned :
  fst (run (call loads_sample
              (constant_server (with_status 500 empty_object_response))
              lib_ascii false Get (py "v3/users/") [] no_kwargs)
         authenticated_world)
  = Ok (JDict []).
Proof. vm_compute. reflexivity. Qed.

(** ** Failures of the network *)

Lemma _http_failure loads net lib (method path : str) (args : list value)
    (kw : kwargs) (w : world) (req : Request) (e : exn) :
  let m := _http loads net lib method path args kw in
  In req (sent_by m w) -> net req = Raise e ->
  fst (run m w) = Raise e /\ events_of m w = [Http req].
Proof.
  cbv zeta. rewrite _http_sent, _http_events, _http_run.
  destruct (urllib.urljoin lib _ path) as [url|e']; [|intros []].
  destruct args as [|a args]; [|intros []].
  intros [<-|[]] Hnet. cbv zeta. rewrite Hnet. auto.
Qed.

(** X3.  When [requests] raises for the request of a [get], [post] or
    [put] (a refused connection, a timeout), the exception reaches the
    caller as it is; the request has been attempted once and nothing
    is printed. *)
Theorem network_failure_propagates loads net lib allow_nan (v : verb)
    (path : str) (args : list value) (kw : kwargs) (w : world) (req : Request)
    (e : exn) :
  let m := call loads net lib allow_nan v path args kw in
  In req (sent_by m w) ->
  net req = Raise e ->
  fst (run m w) = Raise e /\ events_of m w = [Http req].
Proof.
  destruct v as [|body|body]; unfold call, get, post, put; cbv zeta.
  - exact (@_http_failure loads net lib (py "get") path args kw w req e).
  - unfold sent_by. rewrite _payload_events, _payload_run.
    destruct (encoded_body allow_nan body) as [body'|e']; [|intros []].
    destruct (base_headers w kw) as [base|e']; [|intros []].
    destruct (body_len body') as [n|e']; [|intros []].
    apply _http_failure.
  - unfold sent_by. rewrite _payload_events, _payload_run.
    destruct (encoded_body allow_nan body) as [body'|e']; [|intros []].
    destruct (base_headers w kw) as [base|e']; [|intros []].
    destruct (body_len body') as [n|e']; [|intros []].
    apply _http_failure.
Qed.

(** X3 at a concrete exchange: a server that refuses the connection. *)
Lemma network_failure_propagates_witness :
  let m := call loads_sample refusing_server lib_ascii false Get
             (py "v3/users/") [] no_kwargs in
  fst (run m anonymous_world) = Raise RequestException
  /\ events_of m anonymous_world = [Http example_get_request].
Proof.
  apply (@network_failure_propagates loads_sample refusing_server lib_ascii
           false Get (py "v3/users/") [] no_kwargs anonymous_world
           example_get_request RequestException).
  - vm_compute. left. reflexivity.
  - reflexivity.
Defined.

(** ** Calls that fail before anything is sent *)

Lemma _http_extra_argument loads net lib (method path : str) (a : value)
    (args : list value) (kw : kwargs) (w : world) :
  let m := _http loads net lib method path (a :: args) kw in
  (exists e, fst (run m w) = Raise e) /\ events_of m w = [].
Proof.
  cbv zeta. rewrite _http_events, _http_run.
  destruct (urllib.urljoin lib _ path) as [url|e]; split;
    try reflexivity; eexists; reflexivity.
Qed.

(** X4.  [requests.request] takes only the method and the URL by
    position, so a [get], [post] or [put] that is given a further
    positional argument always fails, and fails before any request is
    made or anything is printed. *)
Theorem extra_positional_argument_fails loads net lib allow_nan (v : verb)
    (path : str) (a : value) (args : list value) (kw : kwargs) (w : world) :
  let m := call loads net lib allow_nan v path (a :: args) kw in
  (exists e, fst (run m w) = Raise e) /\ events_of m w = [].
Proof.
  destruct v as [|body|body]; unfold call, get, post, put; cbv zeta.
  - apply _http_extra_argument.
  - rewrite _payload_events, _payload_run.
    destruct (encoded_body allow_nan body) as [body'|e];
        [|split; [eexists|]; reflexivity].
    destruct (base_headers w kw) as [base|e]; [|split; [eexists|]; reflexivity].
    destruct (body_len body') as [n|e]; [|split; [eexists|]; reflexivity].
    apply _http_extra_argument.
  - rewrite _payload_events, _payload_run.
    destruct (encoded_body allow_nan body) as [body'|e];
        [|split; [eexists|]; reflexivity].
    destruct (base_headers w kw) as [base|e]; [|split; [eexists|]; reflexivity].
    destruct (body_len body') as [n|e]; [|split; [eexists|]; reflexivity].
    apply _http_extra_argument.
Qed.

Lemma base_headers_error (w : world) (kw : kwargs) (e : exn) :
  base_headers w kw = Raise e -> e = TypeError.
Proof.
  unfold base_headers.
  destruct (kw_headers kw) as [[l|]|]; try discriminate; try congruence.
  destruct (headers (self w)); try discriminate; congruence.
Qed.

Lemma _payload_unsized loads net lib allow_nan (method path : str) (j : json)
    (args : list value) (kw : kwargs) (w : world) :
  unsized j = true ->
  run (_payload loads net lib allow_nan method path (PJson j) args kw) w
  = (Raise TypeError, w).
Proof.
  intros Hj. rewrite _payload_run.
  destruct j; try discriminate; cbn [encoded_body body_len];
    (destruct (base_headers w kw) as [base|e] eqn:E; [reflexivity|];
     now rewrite (base_headers_error _ _ E)).
Qed.

(** X5.  A [post] or [put] whose body is [None], a [bool], an [int] or
    a [float] raises [TypeError] (the body has no length): no request
    is made, nothing is printed, and the client and the heap are as
    before. *)
Theorem unsized_body_raises_TypeError loads net lib allow_nan (path : str)
    (j : json) (args : list value) (kw : kwargs) (w : world) :
  unsized j = true ->
  run (post loads net lib allow_nan path (PJson j) args kw) w
  = (Raise TypeError, w)
  /\ run (put loads net lib allow_nan path (PJson j) args kw) w
     = (Raise TypeError, w).
Proof.
  intros Hj. unfold post, put. split; now apply _payload_unsized.
Qed.

(** X5 at a concrete call: [post("v3/users/", None)]. *)
Lemma unsized_body_witness :
  run (post loads_sample (constant_server empty_object_response) lib_ascii false
         (py "v3/users/") (PJson JNull) [] no_kwargs) authenticated_world
  = (Raise TypeError, authenticated_world)
  /\ run (put loads_sample (constant_server empty_object_response) lib_ascii
            false (py "v3/users/") (PJson JNull) [] no_kwargs) authenticated_world
     = (Raise TypeError, authenticated_world).
Proof.
  apply (@unsized_body_raises_TypeError loads_sample
           (constant_server empty_object_response) lib_ascii false
           (py "v3/users/") JNull [] no_kwargs authenticated_world).
  reflexivity.
Defined.

Lemma utf8_char_surrogate (c : codepoint) :
  surrogate c = true -> utf8_char c = None.
Proof.
  unfold surrogate, utf8_char. intros H. rewrite H.
  bool_hyps.
  assert (H1 : (c <? 128)%N = false) by (apply N.ltb_ge; lia).
  assert (H2 : (c <? 2048)%N = false) by (apply N.ltb_ge; lia).
  now rewrite H1, H2.
Qed.

Lemma encode_utf8_surrogate (s : str) (c : codepoint) :
  In c s -> surrogate c = true -> encode_utf8 s = None.
Proof.
  intros Hin Hc. induction s as [|x s IH]; [contradiction|].
  cbn [encode_utf8]. destruct Hin as [->|Hin].
  - now rewrite utf8_char_surrogate.
  - rewrite (IH Hin). now destruct (utf8_char x).
Qed.

(** X6.  A [post] or [put] whose body is a text with a surrogate code
    point raises [UnicodeEncodeError]: no request is made, nothing is
    printed, and the client and the heap are as before. *)
Theorem surrogate_in_text_body_raises loads net lib allow_nan (path : str)
    (s : str) (c : codepoint) (args : list value) (kw : kwargs) (w : world) :
  In c s ->
  surrogate c = true ->
  run (post loads net lib allow_nan path (PJson (JStr s)) args kw) w
  = (Raise UnicodeEncodeError, w)
  /\ run (put loads net lib allow_nan path (PJson (JStr s)) args kw) w
     = (Raise UnicodeEncodeError, w).
Proof.
  intros Hin Hc. unfold post, put. rewrite !_payload_run.
  cbn [encoded_body]. rewrite (encode_utf8_surrogate _ _ Hin Hc). auto.
Qed.

(** X6 at a concrete call: the text [a], a lone high surrogate, [b]. *)
Lemma surrogate_in_text_body_witness :
  let s := [97; 55296; 98]%N in
  run (post loads_sample (constant_server empty_object_response) lib_ascii false
         (py "v3/users/") (PJson (JStr s)) [] no_kwargs) authenticated_world
  = (Raise UnicodeEncodeError, authenticated_world)
  /\ run (put loads_sample (constant_server empty_object_response) lib_ascii
            false (py "v3/users/") (PJson (JStr s)) [] no_kwargs)
       authenticated_world
     = (Raise UnicodeEncodeError, authenticated_world).
Proof.
  apply (@surrogate_in_text_body_raises loads_sample
           (constant_server empty_object_response) lib_ascii false
           (py "v3/users/") [97; 55296; 98]%N 55296%N [] no_kwargs
           authenticated_world).
  - right. left. reflexivity.
  - reflexivity.
Defined.

(** ** Bodies that are text, bytes or a list *)

Lemma _payload_bytes_sent loads net lib allow_nan (method path : str)
    (body : payload) (b : bytes) (args : list value) (kw : kwargs) (w : world) :
  encoded_body allow_nan body = Ok (PBytes b) ->
  sent_by (_payload loads net lib allow_nan method path body args kw) w
  = match base_headers w kw,
          urllib.urljoin lib w.(self).(galaxy_root) path, args with
    | Ok base, Ok url, [] =>
        [mkRequest method url
           (Some (payload_headers base (List.length b)))
           (Some (PBytes b)) None kw.(kw_rest)]
    | _, _, _ => []
    end.
Proof.
  intros Hb. rewrite _payload_sent, Hb. cbn [body_len].
  destruct (base_headers w kw); reflexivity.
Qed.

Lemma _payload_bytes_announces loads net lib allow_nan (method path : str)
    (body : payload) (b : bytes) (args : list value) (kw : kwargs) (w : world) :
  encoded_body allow_nan body = Ok (PBytes b) ->
  Forall (announces b)
    (sent_by (_payload loads net lib allow_nan method path body args kw) w).
Proof.
  intros Hb.
  rewrite (@_payload_bytes_sent loads net lib allow_nan method path body b args
      kw w
             Hb).
  destruct (base_headers w kw) as [base|e]; [|constructor].
  destruct (urllib.urljoin lib _ path) as [url|e]; [|constructor].
  destruct args; constructor; [|constructor].
  split; [reflexivity|].
  exists (payload_headers base (List.length b)).
  split; [reflexivity|]. apply payload_headers_exact.
Qed.

Lemma utf8_char_length (c : codepoint) (bs : bytes) :
  utf8_char c = Some bs -> 1 <= List.length bs <= 4.
Proof.
  unfold utf8_char.
  repeat match goal with
         | |- context [if ?t then _ else _] => destruct t
         end; intros H; try discriminate; injection H as <-; cbn; lia.
Qed.

Lemma encode_utf8_length (s : str) (b : bytes) :
  encode_utf8 s = Some b ->
  List.length s <= List.length b <= 4 * List.length s.
Proof.
  revert b. induction s as [|c s IH]; cbn [encode_utf8]; intros b H.
  - injection H as <-. cbn. lia.
  - destruct (utf8_char c) as [bs|] eqn:Hc; [|discriminate].
    destruct (encode_utf8 s) as [rest|]; [|discriminate].
    injection H as <-. apply utf8_char_length in Hc.
    specialize (IH rest eq_refl). rewrite length_app. cbn [List.length].
    lia.
Qed.

(** X7.  A text body is not serialized as JSON: [post] and [put] send
    its UTF-8 bytes as they are, exactly the request they send for
    those bytes given as a [bytes] body.  The announced length is the
    number of bytes, which lies between the number of characters and
    four times that number; a [data] argument of the caller is
    replaced by the body. *)
Theorem text_body_is_sent_as_its_bytes loads net lib allow_nan (path : str)
    (s : str) (b : bytes) (args : list value) (kw : kwargs) (w : world) :
  let sent body :=
    sent_by (post loads net lib allow_nan path body args kw) w
    ++ sent_by (put loads net lib allow_nan path body args kw) w in
  encode_utf8 s = Some b ->
  Forall (announces b) (sent (PJson (JStr s)))
  /\ sent (PJson (JStr s)) = sent (PBytes b)
  /\ List.length s <= List.length b <= 4 * List.length s
  /\ forall base url,
       base_headers w kw = Ok base ->
       urllib.urljoin lib w.(self).(galaxy_root) path = Ok url ->
       args = [] ->
       let h := Some (payload_headers base (List.length b)) in
       sent (PJson (JStr s))
       = [mkRequest (py "post") url h (Some (PBytes b)) None kw.(kw_rest);
          mkRequest (py "put") url h (Some (PBytes b)) None kw.(kw_rest)].
Proof.
  cbv zeta. intros Hb. unfold post, put.
  assert (Htext : encoded_body allow_nan (PJson (JStr s)) = Ok (PBytes b))
    by (cbn [encoded_body]; now rewrite Hb).
  assert (Hbytes : encoded_body allow_nan (PBytes b) = Ok (PBytes b))
    by reflexivity.
  repeat split.
  - apply Forall_app. split; now apply _payload_bytes_announces.
  - now rewrite
      !(fun m => @_payload_bytes_sent loads net lib allow_nan m path _ b
                   args kw w Htext),
      !(fun m => @_payload_bytes_sent loads net lib allow_nan m path _ b
                   args kw w Hbytes).
  - now apply encode_utf8_length.
  - now apply encode_utf8_length.
  - intros base url Hbase Hurl ->.
    now rewrite
      !(fun m => @_payload_bytes_sent loads net lib allow_nan m path _ b
                   [] kw w Htext), Hbase, Hurl.
Qed.

(** X7 at a concrete call: the two-character text [é!] is sent as three
    bytes. *)
Lemma text_body_witness :
  let s := [233; 33]%N in
  let b := [xc3; xa9; x21] in
  let h := Some (payload_headers example_headers 3) in
  sent_by (post loads_sample (constant_server empty_object_response)
             lib_ascii false (py "v3/users/") (PJson (JStr s)) [] no_kwargs)
    authenticated_world
  ++ sent_by (put loads_sample (constant_server empty_object_response)
                lib_ascii false (py "v3/users/") (PJson (JStr s)) [] no_kwargs)
       authenticated_world
  = [mkRequest (py "post") (py "https://galaxy.example/v3/users/") h
       (Some (PBytes b)) None [];
     mkRequest (py "put") (py "https://galaxy.example/v3/users/") h
       (Some (PBytes b)) None []].
Proof.
  refine (proj2 (proj2 (proj2
            (@text_body_is_sent_as_its_bytes loads_sample
               (constant_server empty_object_response) lib_ascii false
               (py "v3/users/") [233; 33]%N [xc3; xa9; x21] []
               no_kwargs authenticated_world _)))
            example_headers (py "https://galaxy.example/v3/users/") _ _ _);
    reflexivity.
Defined.

Lemma _payload_list_sent loads net lib allow_nan (method path : str)
    (l : list json) (args : list value) (kw : kwargs) (w : world) :
  sent_by (_payload loads net lib allow_nan method path (PJson (JList l)) args
      kw) w
  = match base_headers w kw,
          urllib.urljoin lib w.(self).(galaxy_root) path, args with
    | Ok base, Ok url, [] =>
        [mkRequest method url
           (Some (payload_headers base (List.length l)))
           (Some (PJson (JList l))) None kw.(kw_rest)]
    | _, _, _ => []
    end.
Proof.
  rewrite _payload_sent. cbn [encoded_body body_len].
  destruct (base_headers w kw); reflexivity.
Qed.

Lemma _payload_list_announces loads net lib allow_nan (method path : str)
    (l : list json) (args : list value) (kw : kwargs) (w : world) :
  Forall (announces_list l)
    (sent_by (_payload loads net lib allow_nan method path (PJson (JList l))
        args kw)
       w).
Proof.
  rewrite _payload_list_sent.
  destruct (base_headers w kw) as [base|e]; [|constructor].
  destruct (urllib.urljoin lib _ path) as [url|e]; [|constructor].
  destruct args; constructor; [|constructor].
  split; [reflexivity|].
  exists (payload_headers base (List.length l)).
  split; [reflexivity|]. apply payload_headers_exact.
Qed.

(** X8.  A list body is not serialized either: [post] and [put] hand the
    list itself to [requests] as the data, and the length they announce
    is the number of its elements, not a number of bytes. *)
Theorem list_body_is_sent_unserialized loads net lib allow_nan (path : str)
    (l : list json) (args : list value) (kw : kwargs) (w : world) :
  let sent :=
    sent_by (post loads net lib allow_nan path (PJson (JList l)) args kw) w
    ++ sent_by (put loads net lib allow_nan path (PJson (JList l)) args kw) w in
  Forall (announces_list l) sent
  /\ forall base url,
       base_headers w kw = Ok base ->
       urllib.urljoin lib w.(self).(galaxy_root) path = Ok url ->
       args = [] ->
       let h := Some (payload_headers base (List.length l)) in
       sent
       = [mkRequest (py "post") url h (Some (PJson (JList l))) None
            kw.(kw_rest);
          mkRequest (py "put") url h (Some (PJson (JList l))) None
            kw.(kw_rest)].
Proof.
  cbv zeta. unfold post, put. split.
  - apply Forall_app. split; apply _payload_list_announces.
  - intros base url Hbase Hurl ->.
    now rewrite !_payload_list_sent, Hbase, Hurl.
Qed.

(** X8 at a concrete call: a list of two names is announced with the
    length 2. *)
Lemma list_body_witness :
  let l := [JStr (py "alice"); JStr (py "bob")] in
  let h := Some (payload_headers example_headers 2) in
  sent_by (post loads_sample (constant_server empty_object_response)
             lib_ascii false (py "v3/users/") (PJson (JList l)) [] no_kwargs)
    authenticated_world
  ++ sent_by (put loads_sample (constant_server empty_object_response)
                lib_ascii false (py "v3/users/") (PJson (JList l)) [] no_kwargs)
       authenticated_world
  = [mkRequest (py "post") (py "https://galaxy.example/v3/users/") h
       (Some (PJson (JList l))) None [];
     mkRequest (py "put") (py "https://galaxy.example/v3/users/") h
       (Some (PJson (JList l))) None []].
Proof.
  refine (proj2
            (@list_body_is_sent_unserialized loads_sample
               (constant_server empty_object_response) lib_ascii false
               (py "v3/users/") [JStr (py "alice"); JStr (py "bob")] []
               no_kwargs authenticated_world)
            example_headers (py "https://galaxy.example/v3/users/") _ _ _);
    reflexivity.
Defined.

(** ** Headers given for one call *)

Lemma find_last (A : Type) (f : A -> bool) (l : list A) (x : A) :
  List.find f (l ++ [x])
  = match List.find f l with
    | Some y => Some y
    | None => if f x then Some x else None
    end.
Proof.
  induction l as [|y l IH]; cbn [app List.find]; [reflexivity|].
  destruct (f y); auto.
Qed.

Lemma header_get_cons (name : str) (kv : str * str) (d : dict str) :
  header_get name (kv :: d)
  = match header_get name d with
    | Some v => Some v
    | None =>
        if str_eqb (lower (fst kv)) (lower name) then Some (snd kv) else None
    end.
Proof.
  unfold header_get. cbn [rev]. rewrite find_last.
  destruct (List.find _ (rev d)); [reflexivity|].
  destruct (str_eqb (lower (fst kv)) (lower name)); reflexivity.
Qed.

Lemma header_get_set_other (name k v : str) (d : dict str) :
  str_eqb (lower k) (lower name) = false ->
  header_get name (dict_set k v d) = header_get name d.
Proof.
  intros Hk. induction d as [|[k' v'] d IH]; cbn [dict_set].
  - rewrite header_get_cons. cbn [fst]. now rewrite Hk.
  - destruct (str_eqb k k') eqn:E.
    + apply str_eqb_eq in E. subst k'.
      rewrite !header_get_cons. cbn [fst]. now rewrite Hk.
    + rewrite !header_get_cons, IH. reflexivity.
Qed.

Lemma str_eqb_neq (a b : str) : a <> b -> str_eqb a b = false.
Proof.
  intros H. destruct (str_eqb a b) eqn:E; [|reflexivity].
  apply str_eqb_eq in E. contradiction.
Qed.

Lemma payload_headers_other (name : str) (base : dict str) (n : nat) :
  lower name <> lower (py "Content-Type") ->
  lower name <> lower (py "Content-Length") ->
  header_get name (payload_headers base n) = header_get name base.
Proof.
  intros Htype Hlen. unfold payload_headers, dict_update.
  cbn [fold_left fst snd].
  rewrite !header_get_set_other; auto; apply str_eqb_neq; intros E.
  - apply Htype. now rewrite <- E.
  - apply Hlen. now rewrite <- E.
Qed.

(** X9.  Headers given for one call replace the client's headers; they
    are not merged with them.  Whatever the client has stored, every
    header of the request other than the content type and the content
    length is read from the caller's mapping alone, so a token that the
    caller does not repeat is not sent. *)
Theorem call_headers_replace_stored_headers loads net lib allow_nan (v : verb)
    (path : str) (args : list value) (l : loc) (data : option payload)
    (rest : dict value) (w : world) (name : str) :
  let kw := mkKwargs (Some (Some l)) data rest in
  lower name <> lower (py "Content-Type") ->
  lower name <> lower (py "Content-Length") ->
  Forall (fun r => request_header name r
                   = header_get name (deref w.(heap) l))
    (sent_by (call loads net lib allow_nan v path args kw) w).
Proof.
  cbv zeta. intros Htype Hlen.
  destruct v as [|body|body]; unfold call, get, post, put.
  - rewrite _http_sent.
    destruct (urllib.urljoin lib _ path) as [url|e]; [|constructor].
    destruct args; constructor; [|constructor]. reflexivity.
  - rewrite _payload_sent. cbn [base_headers kw_headers].
    destruct (encoded_body allow_nan body) as [body'|e]; [|constructor].
    destruct (body_len body') as [n|e]; [|constructor].
    destruct (urllib.urljoin lib _ path) as [url|e]; [|constructor].
    destruct args; constructor; [|constructor].
    unfold request_header. cbn [req_headers].
    now apply payload_headers_other.
  - rewrite _payload_sent. cbn [base_headers kw_headers].
    destruct (encoded_body allow_nan body) as [body'|e]; [|constructor].
    destruct (body_len body') as [n|e]; [|constructor].
    destruct (urllib.urljoin lib _ path) as [url|e]; [|constructor].
    destruct args; constructor; [|constructor].
    unfold request_header. cbn [req_headers].
    now apply payload_headers_other.
Qed.

(** X9 at a concrete call: a client that holds a token posts with
    [headers={'X-Request-Id': '7'}]; the request has no
    [Authorization] header. *)
Lemma call_headers_witness :
  Forall (fun r => request_header (py "Authorization") r = None)
    (sent_by (call loads_sample (constant_server empty_object_response)
                lib_ascii false (Post (PJson (JDict example_body)))
                (py "_ui/v1/groups/") [] override_kwargs) override_world).
Proof.
  apply (@call_headers_replace_stored_headers loads_sample
           (constant_server empty_object_response) lib_ascii false
           (Post (PJson (JDict example_body))) (py "_ui/v1/groups/") [] 1
           None [] override_world (py "Authorization")).
  - discriminate.
  - discriminate.
Defined.

(** The request of that call, evaluated. *)
Example call_headers_example :
  List.map req_headers
    (sent_by (call loads_sample (constant_server empty_object_response)
                lib_ascii false (Post (PJson (JDict example_body)))
                (py "_ui/v1/groups/") [] override_kwargs) override_world)
  = [Some [(py "X-Request-Id", py "7");
           (py "Content-Type", json_content_type);
           (py "Content-length", py "18")]].
Proof. vm_compute. reflexivity. Qed.

(** ** Several calls in a row *)

Lemma _payload_world loads net lib allow_nan (method path : str)
    (body : payload) (args : list value) (kw : kwargs) (w : world) :
  let m := _payload loads net lib allow_nan method path body args kw in
  snd (run m w) = log w (events_of m w)
  \/ exists d, snd (run m w) = log (with_dict w d) (events_of m w).
Proof.
  cbv zeta. rewrite _payload_events, _payload_run.
  destruct (encoded_body allow_nan body) as [body'|e];
    [|left; now rewrite log_nil].
  destruct (base_headers w kw) as [base|e];
    [|left; now rewrite log_nil].
  destruct (body_len body') as [n|e];
    [|left; now rewrite log_nil].
  right. exists (payload_headers base n).
  pose proof (_http_world loads net lib method path args
                (payload_kwargs w body' kw)
                (with_dict w (payload_headers base n))) as H.
  cbv zeta in H. exact H.
Qed.

Lemma call_world loads net lib allow_nan (v : verb) (path : str)
    (args : list value) (kw : kwargs) (w : world) :
  let m := call loads net lib allow_nan v path args kw in
  snd (run m w) = log w (events_of m w)
  \/ exists d, snd (run m w) = log (with_dict w d) (events_of m w).
Proof.
  destruct v as [|body|body]; unfold call, get, post, put; cbv zeta.
  - left. exact (_http_world loads net lib (py "get") path args kw w).
  - apply _payload_world.
  - apply _payload_world.
Qed.

Lemma call_wf loads net lib allow_nan (v : verb) (path : str)
    (args : list value) (kw : kwargs) (w : world) :
  wf w -> wf (snd (run (call loads net lib allow_nan v path args kw) w)).
Proof.
  intros Hwf.
  destruct (call_world loads net lib allow_nan v path args kw w) as [H|[d H]];
    cbv zeta in H; rewrite H; unfold wf, log, with_dict in *; cbn in *;
    destruct (headers (self w)); auto.
  rewrite length_app. cbn. lia.
Qed.

Lemma call_trace loads net lib allow_nan (v : verb) (path : str)
    (args : list value) (kw : kwargs) (w : world) :
  let m := call loads net lib allow_nan v path args kw in
  trace (snd (run m w)) = trace w ++ events_of m w.
Proof.
  destruct (call_world loads net lib allow_nan v path args kw w) as [H|[d H]];
    cbv zeta in *; rewrite H; reflexivity.
Qed.

Lemma firstn_prefix_trans (A : Type) (l1 l2 l3 : list A) :
  firstn (List.length l1) l2 = l1 ->
  firstn (List.length l2) l3 = l2 ->
  firstn (List.length l1) l3 = l1.
Proof.
  intros H12 H23.
  assert (Hle : List.length l1 <= List.length l2).
  { pose proof (f_equal (@List.length _) H12) as Hl.
    rewrite length_firstn in Hl. lia. }
  transitivity (firstn (List.length l1) l2); [|exact H12].
  replace (firstn (List.length l1) l2)
    with (firstn (List.length l1) (firstn (List.length l2) l3))
    by now rewrite H23.
  rewrite firstn_firstn. now rewrite Nat.min_l.
Qed.

Lemma firstn_length_app (A : Type) (l r : list A) :
  firstn (List.length l) (l ++ r) = l.
Proof.
  rewrite firstn_app, firstn_all, Nat.sub_diag. cbn [firstn].
  apply app_nil_r.
Qed.

Lemma client_preserved_trans (w1 w2 w3 : world) :
  client_preserved w1 w2 -> client_preserved w2 w3 ->
  client_preserved w1 w3.
Proof.
  unfold client_preserved.
  intros (Hs1 & Hh1 & Hd1) (Hs2 & Hh2 & Hd2). repeat split; try congruence.
  now apply firstn_prefix_trans with (heap w2).
Qed.

(** X10.  The client is the same after any number of calls: whatever
    sequence of [get], [post] and [put] a caller makes, and whether they
    return or raise, the client's fields and its stored headers are as
    at the start, every dictionary that existed then keeps its content,
    and the events of the past are still in the trace, in order. *)
Theorem calls_in_a_row_preserve_client loads net lib allow_nan
    (calls : list invocation) (w : world) :
  wf w ->
  let w' := run_all loads net lib allow_nan calls w in
  client_preserved w w'
  /\ wf w'
  /\ firstn (List.length w.(trace)) w'.(trace) = w.(trace).
Proof.
  revert w. induction calls as [|i calls IH]; intros w Hwf; cbn [run_all].
  - split; [|split; [exact Hwf|apply firstn_all]].
    pose proof (client_preserved_log w []) as H. now rewrite log_nil in H.
  - set (w1 := snd (run (call loads net lib allow_nan (inv_verb i) (inv_path i)
                           (inv_args i) (inv_kw i)) w)).
    assert (Hwf1 : wf w1) by now apply call_wf.
    destruct (IH w1 Hwf1) as (Hp & Hwf' & Ht). cbv zeta in *.
    split; [|split; [exact Hwf'|]].
    + apply client_preserved_trans with w1; [|exact Hp].
      now apply verbs_preserve_client.
    + apply firstn_prefix_trans with (trace w1); [|exact Ht].
      unfold w1. rewrite call_trace. apply firstn_length_app.
Qed.

(** X10 at a concrete session of four calls, one of which raises. *)
Lemma calls_in_a_row_witness :
  let w' := run_all loads_sample (constant_server empty_object_response)
              lib_ascii false example_calls override_world in
  client_preserved override_world w'
  /\ wf w'
  /\ firstn (List.length override_world.(trace)) w'.(trace)
     = override_world.(trace).
Proof.
  apply calls_in_a_row_preserve_client. unfold wf. cbn. lia.
Defined.

(** The requests of that session: three, the third with the caller's
    headers. *)
Example calls_in_a_row_example :
  List.map (fun r => (req_method r, request_header (py "Authorization") r))
    (requests_of
       (trace (run_all loads_sample (constant_server empty_object_response)
                 lib_ascii false example_calls override_world)))
  = [(py "get", Some (py "Token abc"));
     (py "post", Some (py "Token abc"));
     (py "put", None)].
Proof. vm_compute. reflexivity. Qed.

(** ** The container-image methods *)

Lemma docker_client_call_none session (method : str)
    (arguments : list (str * value)) (w : world) :
  docker_client (self w) = None ->
  run (docker_client_call session method arguments) w
  = (Raise AttributeError, w).
Proof.
  intros H. unfold run, docker_client_call, bind, get_self.
  now rewrite H.
Qed.

Lemma construct_no_session loads net lib cstr (root : str)
    (auth : option (str * str)) (engine registry : option str) (w : world) :
  docker_client
    (self (snd (run (construct loads net lib cstr root auth engine registry)
                  w))) = None.
Proof.
  destruct auth as [[u p]|].
  - now rewrite construct_with_credentials_run.
  - now rewrite construct_without_credentials_run.
Qed.

(** X11.  The constructor never leaves a client with a container
    session, whatever the credentials and the container options; so on
    every client it leaves, [pull_image], [tag_image] and [push_image]
    raise [AttributeError] (the session is [None]) and do nothing
    else. *)
Theorem image_methods_raise_AttributeError session loads net lib cstr
    (root : str) (auth : option (str * str)) (engine registry : option str)
    (w : world) (image_name newtag image_tag : str) (version : option str) :
  let w1 :=
    snd (run (construct loads net lib cstr root auth engine registry) w) in
  docker_client (self w1) = None
  /\ run (pull_image session image_name) w1 = (Raise AttributeError, w1)
  /\ run (tag_image session image_name newtag version) w1
     = (Raise AttributeError, w1)
  /\ run (push_image session image_tag) w1 = (Raise AttributeError, w1).
Proof.
  cbv zeta.
  pose proof (construct_no_session loads net lib cstr root auth engine
                registry w) as H.
  unfold pull_image, tag_image, push_image.
  repeat split; try exact H; now apply docker_client_call_none.
Qed.

(** ** One header dictionary for each client *)

(** X12.  The constructor gives each client a header dictionary of its
    own and changes no dictionary that exists: building a second client
    leaves the header mapping of the first where it is and as it is,
    and the two references differ. *)
Theorem clients_do_not_share_headers loads net lib cstr
    (root1 root2 : str) (auth1 auth2 : option (str * str))
    (engine1 engine2 registry1 registry2 : option str) (w : world) :
  let w1 :=
    snd (run (construct loads net lib cstr root1 auth1 engine1 registry1)
           w) in
  let w2 :=
    snd (run (construct loads net lib cstr root2 auth2 engine2 registry2)
           w1) in
  headers (self w1) = Some (List.length (heap w))
  /\ headers (self w2) = Some (S (List.length (heap w)))
  /\ firstn (List.length (heap w)) (heap w2) = heap w
  /\ option_map (deref (heap w2)) (headers (self w1)) = stored_headers w1.
Proof.
  cbv zeta.
  assert (H1 : snd (run (construct loads net lib cstr root1 auth1 engine1
                           registry1) w) = bare w root1).
  { destruct auth1 as [[u p]|];
      [now rewrite construct_with_credentials_run
      |now rewrite construct_without_credentials_run]. }
  rewrite H1.
  assert (H2 : snd (run (construct loads net lib cstr root2 auth2 engine2
                           registry2) (bare w root1))
               = bare (bare w root1) root2).
  { destruct auth2 as [[u p]|];
      [now rewrite construct_with_credentials_run
      |now rewrite construct_without_credentials_run]. }
  rewrite H2. unfold bare, stored_headers, deref; cbn.
  repeat split.
  - rewrite length_app. cbn. f_equal. lia.
  - rewrite <- app_assoc. apply firstn_length_app.
  - f_equal. rewrite <- app_assoc.
    rewrite app_nth2, Nat.sub_diag by lia. cbn [app nth].
    now rewrite app_nth2, Nat.sub_diag by lia.
Qed.

(** ** Empty paths and paths that name a host *)

Lemma urljoin_empty_path lib (base : str) :
  urllib.urljoin lib base [] = Ok base.
Proof. destruct base; reflexivity. Qed.

Lemma urljoin_empty_base lib (url : str) :
  urllib.urljoin lib [] url = Ok url.
Proof. reflexivity. Qed.

(** X13.  With an empty path a call goes to the base URL itself, for
    every base URL (it is not parsed); and a client whose base URL is
    empty sends a [get] to the path as it is. *)
Theorem empty_path_requests_base_url loads net lib allow_nan (v : verb)
    (args : list value) (kw : kwargs) (w : world) :
  let root := w.(self).(galaxy_root) in
  Forall (fun r => req_url r = root)
    (sent_by (call loads net lib allow_nan v [] args kw) w)
  /\ List.map req_url (sent_by (get loads net lib [] [] kw) w) = [root]
  /\ forall path,
       root = [] ->
       List.map req_url (sent_by (get loads net lib path [] kw) w) = [path].
Proof.
  cbv zeta. repeat split.
  - destruct v as [|body|body]; unfold call, get, post, put.
    + rewrite _http_sent, urljoin_empty_path.
      destruct args; repeat constructor.
    + rewrite _payload_sent, urljoin_empty_path.
      destruct (encoded_body allow_nan body) as [body'|e]; [|constructor].
      destruct (base_headers w kw) as [base|e]; [|constructor].
      destruct (body_len body') as [n|e]; [|constructor].
      destruct args; repeat constructor.
    + rewrite _payload_sent, urljoin_empty_path.
      destruct (encoded_body allow_nan body) as [body'|e]; [|constructor].
      destruct (base_headers w kw) as [base|e]; [|constructor].
      destruct (body_len body') as [n|e]; [|constructor].
      destruct args; repeat constructor.
  - unfold get. now rewrite _http_sent, urljoin_empty_path.
  - intros path Hroot. unfold get.
    now rewrite _http_sent, Hroot, urljoin_empty_base.
Qed.

(** X13 at a concrete call: a client without a base URL gets a full
    URL. *)
Lemma empty_base_witness :
  List.map req_url
    (sent_by (get loads_sample (constant_server empty_object_response)
                lib_ascii (py "https://galaxy.example/v3/users/") []
                no_kwargs) rootless_world)
  = [py "https://galaxy.example/v3/users/"].
Proof.
  refine (proj2 (proj2
            (@empty_path_requests_base_url loads_sample
               (constant_server empty_object_response) lib_ascii false Get []
               no_kwargs rootless_world))
            (py "https://galaxy.example/v3/users/") _).
  reflexivity.
Defined.

Lemma urlparse_empty_netloc lib (default_scheme : str)
    (u : urllib.ParseResult) :
  urllib.urlparse lib [] default_scheme = Ok u -> urllib.netloc u = [].
Proof.
  unfold urllib.urlparse, urllib.urlsplit. cbn.
  rewrite andb_false_r. intros H. injection H as <-. reflexivity.
Qed.

Lemma urljoin_network_location lib (base ref : str)
    (b u : urllib.ParseResult) :
  base <> [] ->
  urllib.urlparse lib base [] = Ok b ->
  urllib.urlparse lib ref (urllib.scheme b) = Ok u ->
  urllib.netloc u <> [] ->
  urllib.urljoin lib base ref
  = Ok (if str_eqb (urllib.scheme u) (urllib.scheme b)
           && urllib.mem (urllib.scheme u) urllib.uses_relative
        then urllib.urlunparse u else ref).
Proof.
  intros Hbase Hb Hu Hnetloc.
  destruct base as [|c0 base']; [congruence|].
  destruct ref as [|r0 ref'].
  - apply urlparse_empty_netloc in Hu. congruence.
  - unfold urllib.urljoin. rewrite Hb, Hu.
    destruct (str_eqb (urllib.scheme u) (urllib.scheme b));
      [|reflexivity].
    destruct (urllib.mem (urllib.scheme u) urllib.uses_relative) eqn:Hrel;
      [|reflexivity].
    cbn [negb orb andb]. rewrite (uses_relative_netloc _ Hrel).
    destruct (urllib.netloc u); [congruence|reflexivity].
Qed.

(** X14.  A path that names a network location of its own does not go
    to the host of the base URL: the request is sent to the URL that
    the path spells (with the scheme of the base when it gives none),
    and it carries the headers a call to the base would carry, the
    stored token among them. *)
Theorem path_with_network_location loads net lib (path : str) (kw : kwargs)
    (w : world) (b u : urllib.ParseResult) :
  let root := w.(self).(galaxy_root) in
  let url :=
    if str_eqb (urllib.scheme u) (urllib.scheme b)
       && urllib.mem (urllib.scheme u) urllib.uses_relative
    then urllib.urlunparse u else path in
  root <> [] ->
  urllib.urlparse lib root [] = Ok b ->
  urllib.urlparse lib path (urllib.scheme b) = Ok u ->
  urllib.netloc u <> [] ->
  sent_by (get loads net lib path [] kw) w
  = [mkRequest (py "get") url (http_headers w kw) kw.(kw_data) None
       kw.(kw_rest)].
Proof.
  cbv zeta. intros Hroot Hb Hu Hnetloc. unfold get.
  rewrite _http_sent.
  now rewrite (@urljoin_network_location lib _ _ _ _ Hroot Hb Hu Hnetloc).
Qed.

(** X14 at a concrete call: a client that holds a token gets
    [//other.example/x]. *)
Lemma path_with_network_location_witness :
  sent_by (get loads_sample (constant_server empty_object_response)
             lib_ascii (py "//other.example/x") [] no_kwargs)
    authenticated_world
  = [mkRequest (py "get") (py "https://other.example/x")
       (Some example_headers) None None []].
Proof.
  refine (@path_with_network_location loads_sample
            (constant_server empty_object_response) lib_ascii
            (py "//other.example/x") no_kwargs authenticated_world
            (urllib.mkParseResult (py "https") (py "galaxy.example")
               (py "/") [] [] [])
            (urllib.mkParseResult (py "https") (py "other.example")
               (py "/x") [] [] [])
            _ _ _ _).
  - discriminate.
  - reflexivity.
  - reflexivity.
  - discriminate.
Defined.

(** ** Relative paths *)

Lemma split_no_separator (c : codepoint) (s : str) :
  contains_char c s = false -> split c s = [s].
Proof.
  induction s as [|x s IH]; cbn [split contains_char existsb];
    [reflexivity|].
  intros H. apply orb_false_iff in H as [Hx Hs].
  rewrite N.eqb_sym, Hx. unfold contains_char in IH. now rewrite (IH Hs).
Qed.

Lemma split_at_separator (c : codepoint) (s r : str) :
  contains_char c s = false -> split c (s ++ c :: r) = s :: split c r.
Proof.
  induction s as [|x s IH]; cbn [split contains_char existsb app].
  - intros _. now rewrite N.eqb_refl.
  - intros H. apply orb_false_iff in H as [Hx Hs].
    rewrite N.eqb_sym, Hx. unfold contains_char in IH. now rewrite (IH Hs).
Qed.

Lemma join_cons (c : str) (s : str) (l : list str) :
  l <> [] -> join c (s :: l) = s ++ c ++ join c l.
Proof. destruct l; [congruence|reflexivity]. Qed.

Lemma split_join (l : list str) :
  l <> [] ->
  Forall (fun s => contains_char (chr "/") s = false) l ->
  split (chr "/") (join (py "/") l) = l.
Proof.
  intros Hne H. induction H as [|s l Hs Hl IH]; [congruence|].
  destruct l as [|s' l].
  - cbn [join]. now apply split_no_separator.
  - rewrite join_cons by discriminate.
    change (py "/" ++ ?x) with (chr "/" :: x).
    rewrite split_at_separator by exact Hs.
    rewrite IH; [reflexivity|discriminate].
Qed.

Lemma join_app (c : str) (l1 l2 : list str) :
  l1 <> [] -> l2 <> [] ->
  join c (l1 ++ l2) = join c l1 ++ c ++ join c l2.
Proof.
  intros H1 H2. induction l1 as [|s l1 IH]; [congruence|].
  destruct l1 as [|s' l1].
  - cbn [app]. now rewrite join_cons.
  - change ((s :: s' :: l1) ++ l2) with (s :: (s' :: l1) ++ l2).
    rewrite (@join_cons c s ((s' :: l1) ++ l2)) by discriminate.
    rewrite (@join_cons c s (s' :: l1)) by discriminate.
    rewrite IH by discriminate. now rewrite <- !app_assoc.
Qed.

Lemma clean_segment_spec (s : str) :
  clean_segment s = true ->
  s <> [] /\ contains_char (chr "/") s = false
  /\ str_eqb s (py ".") = false /\ str_eqb s (py "..") = false.
Proof.
  unfold clean_segment. intros H.
  apply andb_true_iff in H as [H H4]. apply andb_true_iff in H as [H H3].
  apply andb_true_iff in H as [H1 H2].
  apply negb_true_iff in H2, H3, H4.
  repeat split; auto. now destruct s.
Qed.

Lemma clean_segments_no_slash (l : list str) :
  forallb clean_segment l = true ->
  Forall (fun s => contains_char (chr "/") s = false) l.
Proof.
  intros H. apply Forall_forall. intros s Hin.
  rewrite forallb_forall in H. now apply clean_segment_spec, H.
Qed.

Lemma filter_clean (l : list str) :
  forallb clean_segment l = true ->
  filter (fun s : str => match s with [] => false | _ => true end) l = l.
Proof.
  induction l as [|s l IH]; cbn [forallb filter]; [reflexivity|].
  intros H. apply andb_true_iff in H as [Hs Hl].
  destruct (clean_segment_spec _ Hs) as [Hne _].
  destruct s; [congruence|]. now rewrite (IH Hl).
Qed.

(** A segment that the loop of [urljoin] appends: neither [.] nor
    [..]. *)
Lemma resolve_kept (segs acc : list str) :
  Forall (fun s => str_eqb s (py ".") = false
                   /\ str_eqb s (py "..") = false) segs ->
  fold_left
    (fun resolved_path seg =>
       if str_eqb seg (py "..") then removelast resolved_path
       else if str_eqb seg (py ".") then resolved_path
       else resolved_path ++ [seg]) segs acc
  = acc ++ segs.
Proof.
  intros H. revert acc.
  induction H as [|s segs [H1 H2] Hsegs IH]; intros acc; cbn [fold_left].
  - now rewrite app_nil_r.
  - rewrite H1, H2, IH. now rewrite <- app_assoc.
Qed.

Lemma urlparse_plain lib (s sch : str) :
  plain s = true ->
  lstrip_c0 s = s ->
  str_eqb (firstn 2 s) (py "//") = false ->
  forallb urllib.scheme_char sch = true ->
  urllib.urlparse lib s sch = Ok (urllib.mkParseResult sch [] s [] [] []).
Proof.
  intros Hplain Hstrip Hnn Hsch.
  assert (Hc : forall c, plain_char c = false -> contains_char c s = false).
  { intros c Hcp. now apply (contains_char_forallb plain_char). }
  unfold urllib.urlparse, urllib.urlsplit.
  rewrite Hstrip. cbv zeta.
  rewrite (strip_plain _ Hplain), (strip_scheme _ Hsch).
  rewrite find_absent by now apply Hc.
  rewrite Hnn. cbv beta iota zeta.
  change (contains_char (chr "[") []) with false.
  change (contains_char (chr "]") []) with false.
  cbn [andb orb negb].
  rewrite (Hc (chr "#")) by reflexivity.
  rewrite (Hc (chr "?")) by reflexivity.
  change (urllib._checknetloc lib []) with true.
  cbv beta iota zeta. cbn [urllib.scheme urllib.path].
  rewrite (Hc (chr ";")) by reflexivity.
  now rewrite andb_false_r.
Qed.

(** The text of a relative path starts with the first character of its
    first segment, which is not a slash. *)
Lemma relative_path_head (segs : list str) (final : str) :
  forallb clean_segment segs = true ->
  match final with [] => true | _ => clean_segment final end = true ->
  join (py "/") (segs ++ [final]) <> [] ->
  exists c rest,
    join (py "/") (segs ++ [final]) = c :: rest /\ N.eqb c (chr "/") = false.
Proof.
  intros Hsegs Hfinal Hne.
  assert (Hhead : forall s, clean_segment s = true ->
            exists c s', s = c :: s' /\ N.eqb c (chr "/") = false).
  { intros s Hs. destruct (clean_segment_spec _ Hs) as (H1 & H2 & _).
    destruct s as [|c s']; [congruence|]. exists c, s'. split; auto.
    cbn in H2. apply orb_false_iff in H2 as [H2 _].
    now rewrite N.eqb_sym. }
  destruct segs as [|s segs].
  - cbn [app join] in *. destruct final as [|c f]; [congruence|].
    destruct (Hhead _ Hfinal) as (c' & s' & E & Hc).
    injection E as -> ->. eauto.
  - cbn [forallb] in Hsegs. apply andb_true_iff in Hsegs as [Hs _].
    destruct (Hhead _ Hs) as (c & s' & -> & Hc).
    change ((?x :: segs) ++ ?y) with (x :: segs ++ y).
    rewrite join_cons by (destruct segs; discriminate).
    exists c. eexists. split; [reflexivity|exact Hc].
Qed.

Lemma final_no_slash (final : str) :
  match final with [] => true | _ => clean_segment final end = true ->
  contains_char (chr "/") final = false
  /\ str_eqb final (py ".") = false /\ str_eqb final (py "..") = false.
Proof.
  destruct final as [|c f]; [auto|].
  intros H. now destruct (clean_segment_spec _ H) as (_ & H1 & H2 & H3).
Qed.

(** [segments[1:-1] = filter(None, segments[1:-1])] on a list given by
    its first element, its middle and its last element. *)
Lemma filter_middle_last (first : str) (mid : list str) (lst : str)
    (kept : list str) :
  filter (fun s : str => match s with [] => false | _ => true end) mid
  = kept ->
  urllib.filter_middle (first :: mid ++ [lst]) = (first :: kept) ++ [lst].
Proof.
  intros Hkept. unfold urllib.filter_middle.
  pose proof (removelast_last mid lst) as Hr.
  pose proof (last_last mid lst []) as Hl.
  remember (mid ++ [lst]) as rest eqn:E.
  destruct rest as [|x l]; [destruct mid; discriminate|].
  cbn [app]. f_equal. f_equal.
  - transitivity
      (filter (fun s : str => match s with [] => false | _ => true end)
         mid); [f_equal; exact Hr|exact Hkept].
  - f_equal. exact Hl.
Qed.

(** What [urljoin] makes of a base path and a relative path without
    dot segments: the base path up to its last slash, then the path. *)
Lemma resolve_path_relative (dirs segs : list str) (file final : str) :
  forallb clean_segment dirs = true ->
  contains_char (chr "/") file = false ->
  forallb clean_segment segs = true ->
  match final with [] => true | _ => clean_segment final end = true ->
  join (py "/") (segs ++ [final]) <> [] ->
  urllib.resolve_path (join (py "/") ([] :: dirs ++ [file]))
    (join (py "/") (segs ++ [final]))
  = join (py "/") ([] :: dirs) ++ py "/" ++ join (py "/") (segs ++ [final]).
Proof.
  intros Hdirs Hfile Hsegs Hfinal Hne.
  destruct (final_no_slash _ Hfinal) as (Hf1 & Hf2 & Hf3).
  destruct (relative_path_head _ _ Hsegs Hfinal Hne) as (c & rest & E & Hc).
  unfold urllib.resolve_path.
  rewrite (@split_join ([] :: dirs ++ [file])).
  2: discriminate.
  2: { constructor; [reflexivity|]. apply Forall_app. split.
       - now apply clean_segments_no_slash.
       - now constructor. }
  rewrite (@split_join (segs ++ [final])).
  2: { destruct segs; discriminate. }
  2: { apply Forall_app. split.
       - now apply clean_segments_no_slash.
       - now constructor. }
  assert (Hfirst : str_eqb (firstn 1 (join (py "/") (segs ++ [final])))
                     (py "/") = false).
  { rewrite E. cbn in Hc |- *. now rewrite Hc. }
  rewrite Hfirst. cbv zeta.
  change ([] :: dirs ++ [file]) with (([] :: dirs) ++ [file]).
  rewrite last_last.
  match goal with
  | |- context [urllib.filter_middle (?k ++ _)] =>
      assert (Hkept : exists mid,
                k = [] :: mid
                /\ filter
                     (fun s : str => match s with [] => false | _ => true end)
                     mid = dirs)
  end.
  { destruct file as [|f file'].
    - exists (dirs ++ [[]]). split; [reflexivity|].
      rewrite filter_app. cbn [filter]. rewrite app_nil_r.
      exact (filter_clean _ Hdirs).
    - rewrite removelast_last. exists dirs. split; [reflexivity|].
      exact (filter_clean _ Hdirs). }
  destruct Hkept as (mid & -> & Hmid).
  match goal with
  | |- context [urllib.filter_middle ?x] =>
      assert (Hsegments :
                urllib.filter_middle x = ([] :: dirs ++ segs) ++ [final])
  end.
  { change (([] :: mid) ++ segs ++ [final])
      with ([] :: mid ++ segs ++ [final]).
    rewrite app_assoc.
    exact (@filter_middle_last [] (mid ++ segs) final
             (dirs ++ segs)
             (eq_trans (filter_app _ mid segs)
                (f_equal2 (@app str) Hmid (filter_clean _ Hsegs)))). }
  rewrite Hsegments.
  unfold urllib.resolve_segments.
  rewrite resolve_kept.
  2: { change (([] :: dirs ++ segs) ++ [final])
         with ([] :: (dirs ++ segs) ++ [final]).
       constructor; [split; reflexivity|].
       apply Forall_app. split.
       - apply Forall_forall. intros s Hin.
         assert (Hs : clean_segment s = true).
         { apply in_app_or in Hin as [Hin|Hin].
           - rewrite forallb_forall in Hdirs. now apply Hdirs.
           - rewrite forallb_forall in Hsegs. now apply Hsegs. }
         now destruct (clean_segment_spec _ Hs) as (_ & _ & H1 & H2).
       - constructor; [split; assumption|constructor]. }
  rewrite app_nil_l, last_last.
  assert (Hmem : urllib.mem final [py "."; py ".."] = false).
  { unfold urllib.mem. cbn [existsb]. now rewrite Hf2, Hf3. }
  rewrite Hmem.
  replace (([] :: dirs ++ segs) ++ [final])
    with (([] :: dirs) ++ (segs ++ [final]))
    by (cbn [app]; now rewrite app_assoc).
  rewrite join_app; [|discriminate|destruct segs; discriminate].
  destruct (join (py "/") ([] :: dirs) ++ py "/"
            ++ join (py "/") (segs ++ [final])) eqn:Ej; [|reflexivity].
  apply app_eq_nil in Ej as [_ Ej]. discriminate.
Qed.

Lemma urljoin_plain_relative lib (base : str) (b : urllib.ParseResult)
    (dirs segs : list str) (file final : str) :
  let path := join (py "/") (segs ++ [final]) in
  base <> [] ->
  urllib.urlparse lib base [] = Ok b ->
  urllib.mem (urllib.scheme b) urllib.uses_relative = true ->
  urllib.path b = join (py "/") ([] :: dirs ++ [file]) ->
  forallb clean_segment dirs = true ->
  contains_char (chr "/") file = false ->
  forallb clean_segment segs = true ->
  match final with [] => true | _ => clean_segment final end = true ->
  path <> [] ->
  plain path = true ->
  lstrip_c0 path = path ->
  urllib.urljoin lib base path
  = Ok (urllib.urlunparse
          (urllib.mkParseResult (urllib.scheme b) (urllib.netloc b)
             (join (py "/") ([] :: dirs) ++ py "/" ++ path) [] [] [])).
Proof.
  cbv zeta.
  intros Hbase Hb Hrel Hbpath Hdirs Hfile Hsegs Hfinal Hne Hplain Hstrip.
  pose proof (@urlparse_scheme _ _ _ Hb) as Hs.
  pose proof (@resolve_path_relative _ _ _ _ Hdirs Hfile Hsegs Hfinal Hne)
    as Hres.
  destruct (@relative_path_head _ _ Hsegs Hfinal Hne) as (c & rest & E & Hc).
  rewrite E in *.
  assert (Hnn : str_eqb (firstn 2 (c :: rest)) (py "//") = false).
  { destruct rest; cbn in Hc |- *; now rewrite Hc. }
  pose proof (@urlparse_plain lib _ _ Hplain Hstrip Hnn Hs) as Hu.
  destruct base as [|c0 base']; [congruence|].
  unfold urllib.urljoin. rewrite Hb, Hu.
  cbn [urllib.scheme urllib.netloc urllib.path urllib.params urllib.query
       urllib.fragment].
  rewrite str_eqb_refl, Hrel, (@uses_relative_netloc _ Hrel).
  cbn [negb orb andb]. cbv iota. now rewrite Hbpath, Hres.
Qed.

(** X15.  A relative path without dot segments is appended to the base
    URL's path up to its last slash: what follows the last slash of
    the base URL is dropped, the rest of the base URL stays.  With a
    base URL that ends in a slash, the URL is the base URL followed by
    the path. *)
Theorem relative_path_is_appended loads net lib (kw : kwargs) (w : world)
    (b : urllib.ParseResult) (dirs segs : list str) (file final : str) :
  let root := w.(self).(galaxy_root) in
  let path := join (py "/") (segs ++ [final]) in
  root <> [] ->
  urllib.urlparse lib root [] = Ok b ->
  urllib.mem (urllib.scheme b) urllib.uses_relative = true ->
  urllib.path b = join (py "/") ([] :: dirs ++ [file]) ->
  forallb clean_segment dirs = true ->
  contains_char (chr "/") file = false ->
  forallb clean_segment segs = true ->
  match final with [] => true | _ => clean_segment final end = true ->
  path <> [] ->
  plain path = true ->
  lstrip_c0 path = path ->
  List.map req_url (sent_by (get loads net lib path [] kw) w)
  = [urllib.urlunparse
       (urllib.mkParseResult (urllib.scheme b) (urllib.netloc b)
          (join (py "/") ([] :: dirs) ++ py "/" ++ path) [] [] [])].
Proof.
  cbv zeta.
  intros Hroot Hb Hrel Hbpath Hdirs Hfile Hsegs Hfinal Hne Hplain Hstrip.
  unfold get. rewrite _http_sent.
  now rewrite (@urljoin_plain_relative lib _ _ _ _ _ _ Hroot Hb Hrel Hbpath
                 Hdirs Hfile Hsegs Hfinal Hne Hplain Hstrip).
Qed.

(** X15 at a concrete call: the base URL ends in a slash and the path
    is [v3/users/]. *)
Lemma relative_path_witness :
  List.map req_url
    (sent_by (get loads_sample (constant_server empty_object_response)
                lib_ascii (py "v3/users/") [] no_kwargs) prefixed_world)
  = [py "https://galaxy.example/api/galaxy/v3/users/"].
Proof.
  refine (@relative_path_is_appended loads_sample
            (constant_server empty_object_response) lib_ascii no_kwargs
            prefixed_world
            (urllib.mkParseResult (py "https") (py "galaxy.example")
               (py "/api/galaxy/") [] [] [])
            [py "api"; py "galaxy"] [py "v3"; py "users"] [] []
            _ _ _ _ _ _ _ _ _ _ _).
  - discriminate.
  - reflexivity.
  - reflexivity.
  - reflexivity.
  - reflexivity.
  - reflexivity.
  - reflexivity.
  - reflexivity.
  - discriminate.
  - reflexivity.
  - reflexivity.
Defined.

(** A base URL that does not end in a slash loses its last segment. *)
Example relative_path_replaces_last_segment :
  List.map req_url
    (sent_by (get loads_sample (constant_server empty_object_response)
                lib_ascii (py "v3/users/") [] no_kwargs)
       (bare empty_world (py "https://galaxy.example/api/galaxy")))
  = [py "https://galaxy.example/api/v3/users/"].
Proof.
  refine (@relative_path_is_appended loads_sample
            (constant_server empty_object_response) lib_ascii no_kwargs
            (bare empty_world (py "https://galaxy.example/api/galaxy"))
            (urllib.mkParseResult (py "https") (py "galaxy.example")
               (py "/api/galaxy") [] [] [])
            [py "api"] [py "v3"; py "users"] (py "galaxy") []
            _ _ _ _ _ _ _ _ _ _ _);
    solve [reflexivity | discriminate].
Qed.
